(** * Upload coordination and gallery materialisation: a shallow embedding

    The Netlify functions of the memorial site are embedded as Rocq
    functions.  JavaScript strings are sequences of UTF-16 code units,
    Buffers are sequences of bytes, the storage service and the clock are
    explicit arguments, and every handler returns its HTTP response
    together with the log of the service calls it made. *)

From Stdlib Require Import String Ascii DecimalString.
From Stdlib.Strings Require Import Byte.
From Stdlib Require Import ZArith NArith Lia Bool List.
Import ListNotations.

(* ================================================================== *)
(** ** JavaScript strings *)

Module JS.

(** A UTF-16 code unit and a string of them. *)
Definition char := N.
Definition str := list char.

(** An ASCII literal of the source, as code units. *)
Definition lit (s : string) : str :=
  map N_of_ascii (list_ascii_of_string s).

Fixpoint eqb (a b : str) : bool :=
  match a, b with
  | [], [] => true
  | x :: a', y :: b' => N.eqb x y && eqb a' b'
  | _, _ => false
  end.

(** [!s] is false exactly for a non-empty string; an absent property
    ([undefined]) is [None]. *)
Definition truthy (o : option str) : bool :=
  match o with
  | Some (_ :: _) => true
  | _ => false
  end.

(** [a || b] on an optional string with a string default. *)
Definition orElse (o : option str) (d : str) : str :=
  match o with
  | Some (c :: s) => c :: s
  | _ => d
  end.

(** [s.startsWith(p)] *)
Fixpoint startsWith (s p : str) : bool :=
  match p, s with
  | [], _ => true
  | y :: p', x :: s' => N.eqb x y && startsWith s' p'
  | _ :: _, [] => false
  end.

(** [s.includes(p)] *)
Fixpoint includes (s p : str) : bool :=
  startsWith s p ||
  match s with
  | [] => false
  | _ :: s' => includes s' p
  end.

(** [s.endsWith(p)]: [p] occupies the last [length p] code units. *)
Definition endsWith (s p : str) : bool :=
  (length p <=? length s)%nat && eqb (skipn (length s - length p) s) p.

(** [s.split(sep)] for a non-empty separator: the pieces between the
    successive, non-overlapping occurrences of [sep], found left to
    right.  [cur] is the piece being read, in reverse; [skip] counts
    the code units of the occurrence still to pass. *)
Fixpoint split_from (sep s cur : str) (skip : nat) : list str :=
  match s with
  | [] => [rev cur]
  | c :: s' =>
      match skip with
      | S k => split_from sep s' cur k
      | O =>
          if startsWith s sep
          then rev cur :: split_from sep s' [] (length sep - 1)
          else split_from sep s' (c :: cur) 0
      end
  end.

Definition split (s sep : str) : list str := split_from sep s [] 0.

(** [s.replace(pat, empty)] for a string pattern and the empty
    replacement: the first occurrence of [pat] is removed. *)
Fixpoint removeFirst (s pat : str) : str :=
  if startsWith s pat then skipn (length pat) s
  else
    match s with
    | [] => []
    | c :: s' => c :: removeFirst s' pat
    end.

(** [s.replace(/_/g, " ")] and its like: every code unit satisfying
    [p] is replaced by [r]. *)
Definition replaceAll (p : char -> bool) (r : char) (s : str) : str :=
  map (fun c => if p c then r else c) s.

Definition between (lo hi c : N) : bool := (lo <=? c)%N && (c <=? hi)%N.

Definition isUpper := between 65 90.
Definition isLower := between 97 122.
Definition isDigit := between 48 57.
Definition isAlnum (c : char) : bool := isLower c || isUpper c || isDigit c.

(** [\s] and the code units removed by [trim()]: WhiteSpace and
    LineTerminator of ECMAScript. *)
Definition isSpace (c : char) : bool :=
  between 9 13 c || N.eqb c 32 || N.eqb c 160 || N.eqb c 5760 ||
  between 8192 8202 c || N.eqb c 8232 || N.eqb c 8233 || N.eqb c 8239 ||
  N.eqb c 8287 || N.eqb c 12288 || N.eqb c 65279.

Fixpoint trimStart (s : str) : str :=
  match s with
  | c :: s' => if isSpace c then trimStart s' else s
  | [] => []
  end.

Definition trim (s : str) : str := rev (trimStart (rev (trimStart s))).

(** The decimal rendering of a length inside a template literal. *)
Definition ofNat (n : nat) : str :=
  lit (NilZero.string_of_uint (Nat.to_uint n)).

(** An optional string inside a template literal. *)
Definition template (o : option str) : str :=
  match o with
  | Some s => s
  | None => lit "undefined"
  end.

End JS.

Arguments JS.lit : simpl never.

(* ================================================================== *)
(** ** Ambient configuration, errors and responses *)

(** [process.env]: an unset variable is [None]. *)
Record config := {
  R2_ACCOUNT_ID : option JS.str;
  R2_ACCESS_KEY_ID : option JS.str;
  R2_SECRET_ACCESS_KEY : option JS.str;
  R2_BUCKET_NAME_env : option JS.str
}.

Definition R2_BUCKET_NAME (c : config) : JS.str :=
  JS.orElse (R2_BUCKET_NAME_env c) (JS.lit "family-archive-uploads").

(** [!R2_ACCOUNT_ID || !R2_ACCESS_KEY_ID || !R2_SECRET_ACCESS_KEY] *)
Definition credentialsMissing (c : config) : bool :=
  negb (JS.truthy (R2_ACCOUNT_ID c)) ||
  negb (JS.truthy (R2_ACCESS_KEY_ID c)) ||
  negb (JS.truthy (R2_SECRET_ACCESS_KEY c)).

(** A thrown [Error]: the handlers read only its [message]; [name] tells
    a "not found" answer of the service from any other fault. *)
Record error := { name : JS.str; message : JS.str }.

(** The result of awaiting a promise. *)
Inductive outcome (A : Type) : Type :=
| Fulfilled (a : A)
| Threw (e : error).

Arguments Fulfilled {A} a.
Arguments Threw {A} e.

(** One entry of the [files] array of an upload response. *)
Record uploadedFile := {
  uf_filename : JS.str;
  uf_objectKey : JS.str;
  uf_size : nat
}.

(** One entry of the [photos] array of the gallery response. *)
Record photo := {
  ph_key : JS.str;
  ph_url : JS.str;
  ph_filename : JS.str;
  ph_contributor : JS.str;
  ph_size : Z;
  ph_lastModified : JS.str;
  ph_isVideo : bool;
  ph_isHeic : bool
}.

(** The objects the handlers pass to [JSON.stringify], by shape. *)
Inductive body :=
| EmptyBody
| ErrorBody (error : JS.str)
| ErrorDetailsBody (error details : JS.str)
| SkippedBody (objectKey message : JS.str)
| UploadUrlBody (uploadUrl objectKey : JS.str) (expiresIn : Z)
| UploadedBody (message : JS.str) (files : list uploadedFile)
| GalleryBody (photos : list photo) (total : nat).

Record response := { statusCode : Z; responseBody : body }.

(** [new Date().toISOString().replace(/[:.]/g, "-").slice(0, 19)] on the
    ISO rendering [iso] of the current instant. *)
Definition timestampOf (iso : JS.str) : JS.str :=
  firstn 19 (JS.replaceAll (fun c => N.eqb c 58 || N.eqb c 46) 45%N iso).

(** The class [[a-zA-Z0-9._-]] of the file-name pattern. *)
Definition filenameChar (c : JS.char) : bool :=
  JS.isAlnum c || N.eqb c 46 || N.eqb c 95 || N.eqb c 45.

(** [filename.replace(/[^a-zA-Z0-9._-]/g, "_")] *)
Definition safeFilename (filename : JS.str) : JS.str :=
  JS.replaceAll (fun c => negb (filenameChar c)) 95%N filename.

(* ================================================================== *)
(** ** Presigned upload URLs *)

(** The parsed request body [{ filename, contentType, size, fileHash }],
    as the interface types it: strings, and a number for [size]; an
    absent property is [None]. *)
Record uploadRequest := {
  filename : option JS.str;
  contentType : option JS.str;
  size : option Z;
  fileHash : option JS.str
}.

(** [JSON.parse(event.body)] followed by the destructuring: either the
    four properties, or the exception. *)
Record presignEvent := {
  httpMethod : JS.str;
  parsedBody : outcome uploadRequest
}.

(** [new PutObjectCommand({ Bucket, Key, ContentType })] *)
Record putCommand := {
  put_Bucket : JS.str;
  put_Key : JS.str;
  put_ContentType : JS.str
}.

(** The calls a presign handler makes. *)
Inductive presignCall :=
| HeadObject (Bucket Key : JS.str)
| GetSignedUrl (command : putCommand) (expiresIn : Z).

(** The collaborators of a presign handler: the clock, the metadata
    probe and the signer. *)
Record presignWorld := {
  env : config;
  toISOString : JS.str;
  headObject : JS.str -> JS.str -> outcome unit;
  getSignedUrl : putCommand -> Z -> outcome JS.str
}.

(** The tail shared by both versions: sign a write to [objectKey]. *)
Definition signUpload (w : presignWorld) (req : uploadRequest)
    (objectKey : JS.str) (log : list presignCall)
  : response * list presignCall :=
  let command :=
    {| put_Bucket := R2_BUCKET_NAME (env w);
       put_Key := objectKey;
       put_ContentType :=
         JS.orElse (contentType req) (JS.lit "application/octet-stream") |} in
  let log' := log ++ [GetSignedUrl command 3600] in
  match getSignedUrl w command 3600 with
  | Fulfilled presignedUrl =>
      ({| statusCode := 200;
          responseBody := UploadUrlBody presignedUrl objectKey 3600 |}, log')
  | Threw e =>
      ({| statusCode := 500;
          responseBody :=
            ErrorBody (JS.lit "Failed to generate upload URL: " ++ message e) |},
       log')
  end.

(** The version with hash-addressed keys. *)
Module Presign.

(** [`Memorial_Guest_UPLOADS/${discriminator}_${safeFilename}`] *)
Definition objectKey (discriminator safe : JS.str) : JS.str :=
  JS.lit "Memorial_Guest_UPLOADS/" ++ discriminator ++ JS.lit "_" ++ safe.

(** The key chosen for a file name: by hash when [fileHash] is truthy,
    by timestamp otherwise. *)
Definition resolveKey (iso filename : JS.str) (fileHash : option JS.str)
  : JS.str :=
  let safe := safeFilename filename in
  match fileHash with
  | Some (c :: h) => objectKey (c :: h) safe
  | _ => objectKey (timestampOf iso) safe
  end.

Definition handler (w : presignWorld) (event : presignEvent)
  : response * list presignCall :=
  if JS.eqb (httpMethod event) (JS.lit "OPTIONS") then
    ({| statusCode := 200; responseBody := EmptyBody |}, [])
  else if negb (JS.eqb (httpMethod event) (JS.lit "POST")) then
    ({| statusCode := 405;
        responseBody := ErrorBody (JS.lit "Method not allowed") |}, [])
  else if credentialsMissing (env w) then
    ({| statusCode := 500;
        responseBody := ErrorBody (JS.lit "Storage not configured") |}, [])
  else
    match parsedBody event with
    | Threw e =>
        ({| statusCode := 500;
            responseBody :=
              ErrorBody (JS.lit "Failed to generate upload URL: " ++ message e) |},
         [])
    | Fulfilled req =>
        match filename req with
        | Some (c :: f) =>
            let key := resolveKey (toISOString w) (c :: f) (fileHash req) in
            if JS.truthy (fileHash req) then
              let probe := HeadObject (R2_BUCKET_NAME (env w)) key in
              match headObject w (R2_BUCKET_NAME (env w)) key with
              | Fulfilled _ =>
                  ({| statusCode := 200;
                      responseBody :=
                        SkippedBody key (JS.lit "File already exists") |},
                   [probe])
              | Threw _ => signUpload w req key [probe]
              end
            else signUpload w req key []
        | _ =>
            ({| statusCode := 400;
                responseBody := ErrorBody (JS.lit "Filename is required") |},
             [])
        end
    end.

End Presign.

(** The earlier version: timestamp keys only. *)
Module PresignByTime.

Definition objectKey (timestamp safe : JS.str) : JS.str :=
  JS.lit "Memorial_Guest_UPLOADS/" ++ timestamp ++ JS.lit "_" ++ safe.

Definition handler (w : presignWorld) (event : presignEvent)
  : response * list presignCall :=
  if JS.eqb (httpMethod event) (JS.lit "OPTIONS") then
    ({| statusCode := 200; responseBody := EmptyBody |}, [])
  else if negb (JS.eqb (httpMethod event) (JS.lit "POST")) then
    ({| statusCode := 405;
        responseBody := ErrorBody (JS.lit "Method not allowed") |}, [])
  else if credentialsMissing (env w) then
    ({| statusCode := 500;
        responseBody := ErrorBody (JS.lit "Storage not configured") |}, [])
  else
    match parsedBody event with
    | Threw e =>
        ({| statusCode := 500;
            responseBody :=
              ErrorBody (JS.lit "Failed to generate upload URL: " ++ message e) |},
         [])
    | Fulfilled req =>
        match filename req with
        | Some (c :: f) =>
            let timestamp := timestampOf (toISOString w) in
            let key := objectKey timestamp (safeFilename (c :: f)) in
            signUpload w req key []
        | _ =>
            ({| statusCode := 400;
                responseBody := ErrorBody (JS.lit "Filename is required") |},
             [])
        end
    end.

End PresignByTime.

(* ================================================================== *)
(** ** Buffers *)

Module Buffer.

Definition t := list byte.

Definition len (buf : t) : Z := Z.of_nat (length buf).

Definition byteOf (n : N) : byte :=
  match Byte.of_N (n mod 256) with
  | Some b => b
  | None => x00
  end.

Definition isHighSurrogate := JS.between 55296 56319.
Definition isLowSurrogate := JS.between 56320 57343.

Definition replacement : t := [xef; xbf; xbd].

(** [Buffer.from(string)]: the UTF-8 encoding; a surrogate pair is one
    code point, a lone surrogate becomes U+FFFD. *)
Fixpoint from (s : JS.str) : t :=
  match s with
  | [] => []
  | c :: s' =>
      if (c <? 128)%N then byteOf c :: from s'
      else if (c <? 2048)%N then
        byteOf (192 + c / 64) :: byteOf (128 + c mod 64) :: from s'
      else if isHighSurrogate c then
        match s' with
        | d :: s'' =>
            if isLowSurrogate d then
              let cp := (65536 + (c - 55296) * 1024 + (d - 56320))%N in
              byteOf (240 + cp / 262144) ::
              byteOf (128 + (cp / 4096) mod 64) ::
              byteOf (128 + (cp / 64) mod 64) ::
              byteOf (128 + cp mod 64) :: from s''
            else replacement ++ from s'
        | [] => replacement
        end
      else if isLowSurrogate c then replacement ++ from s'
      else
        byteOf (224 + c / 4096) ::
        byteOf (128 + (c / 64) mod 64) ::
        byteOf (128 + c mod 64) :: from s'
  end.

Fixpoint isPrefix (value buf : t) : bool :=
  match value, buf with
  | [], _ => true
  | v :: value', b :: buf' => Byte.eqb b v && isPrefix value' buf'
  | _ :: _, [] => false
  end.

(** The first position, counted from [pos], at which [value] occurs in
    [buf]. *)
Fixpoint search (value buf : t) (pos : nat) : option nat :=
  if isPrefix value buf then Some pos
  else
    match buf with
    | [] => None
    | _ :: buf' => search value buf' (S pos)
    end.

(** [buf.indexOf(value, byteOffset)]: the first occurrence at or after
    [byteOffset], or -1.  A negative offset counts from the end. *)
Definition indexOf (buf value : t) (byteOffset : Z) : Z :=
  let off :=
    if (byteOffset <? 0)%Z then Z.max 0 (len buf + byteOffset)
    else Z.min byteOffset (len buf) in
  match search value (skipn (Z.to_nat off) buf) (Z.to_nat off) with
  | Some i => Z.of_nat i
  | None => (-1)%Z
  end.

(** An index argument of [slice]: negative ones count from the end,
    all are clamped to the buffer. *)
Definition clamp (buf : t) (i : Z) : Z :=
  if (i <? 0)%Z then Z.max 0 (len buf + i) else Z.min i (len buf).

(** [buf.slice(start, end)] *)
Definition slice (buf : t) (start end_ : Z) : t :=
  let s := clamp buf start in
  let e := clamp buf end_ in
  firstn (Z.to_nat (e - s)) (skipn (Z.to_nat s) buf).

(** [buf.slice(start)] *)
Definition sliceFrom (buf : t) (start : Z) : t :=
  slice buf start (len buf).

End Buffer.

(* ================================================================== *)
(** ** The regular expressions of the multipart parser *)

Module Regex.

(** The longest prefix of code units satisfying [p]. *)
Fixpoint run (p : JS.char -> bool) (s : JS.str) : JS.str :=
  match s with
  | c :: s' => if p c then c :: run p s' else []
  | [] => []
  end.

Definition notQuote (c : JS.char) : bool := negb (N.eqb c 34).
Definition isLineBreak (c : JS.char) : bool := N.eqb c 13 || N.eqb c 10.
Definition notLineBreak (c : JS.char) : bool := negb (isLineBreak c).

(** [([^"]+)"] anchored at [s]: the greedy run of non-quotes must be
    non-empty and followed by a quote. *)
Definition quotedHere (s : JS.str) : option JS.str :=
  let r := run notQuote s in
  match r, skipn (length r) s with
  | _ :: _, _ :: _ => Some r
  | _, _ => None
  end.

(** [s.match(/attr="([^"]+)"/)], with [prefix] the literal [attr="]:
    the capture of the leftmost match. *)
Fixpoint quoted (prefix s : JS.str) : option JS.str :=
  let here :=
    if JS.startsWith s prefix then quotedHere (skipn (length prefix) s)
    else None in
  match here with
  | Some r => Some r
  | None =>
      match s with
      | [] => None
      | _ :: s' => quoted prefix s'
      end
  end.

Definition filenameMatch : JS.str -> option JS.str :=
  quoted (JS.lit "filename=" ++ [34%N]).

Definition nameMatch : JS.str -> option JS.str :=
  quoted (JS.lit "name=" ++ [34%N]).

(** Case folding of the [i] flag, which never maps a code unit
    outside ASCII to one inside. *)
Definition fold (c : JS.char) : JS.char :=
  if JS.isLower c then (c - 32)%N else c.

Fixpoint startsWithFolded (s p : JS.str) : bool :=
  match p, s with
  | [], _ => true
  | y :: p', x :: s' => N.eqb (fold x) (fold y) && startsWithFolded s' p'
  | _ :: _, [] => false
  end.

(** [\s*([^\r\n]+)] anchored at [s]: the longest run of white space
    is tried first, then shorter ones. *)
Fixpoint afterSpaces (s : JS.str) : option JS.str :=
  match s with
  | [] => None
  | c :: s' =>
      if JS.isSpace c then
        match afterSpaces s' with
        | Some r => Some r
        | None => if isLineBreak c then None else Some (run notLineBreak s)
        end
      else Some (run notLineBreak s)
  end.

(** [s.match(/Content-Type:\s*([^\r\n]+)/i)] *)
Fixpoint contentTypeMatch (s : JS.str) : option JS.str :=
  let here :=
    if startsWithFolded s (JS.lit "Content-Type:")
    then afterSpaces (skipn 13 s)
    else None in
  match here with
  | Some r => Some r
  | None =>
      match s with
      | [] => None
      | _ :: s' => contentTypeMatch s'
      end
  end.

End Regex.

(* ================================================================== *)
(** ** Direct uploads *)

(** [new PutObjectCommand({ Bucket, Key, Body, ContentType })] *)
Record putObjectCommand := {
  Bucket : JS.str;
  Key : JS.str;
  Body : Buffer.t;
  ContentType : JS.str
}.

(** The collaborators of an upload handler.  [send] answers a write
    given the writes already sent in this call. *)
Record uploadWorld := {
  up_env : config;
  up_toISOString : JS.str;
  send : list putObjectCommand -> putObjectCommand -> outcome unit
}.

(** [`${contributorName.replace(/[^a-zA-Z0-9]/g, "_")}_UPLOADS`] *)
Definition folderNameOf (contributorName : JS.str) : JS.str :=
  JS.replaceAll (fun c => negb (JS.isAlnum c)) 95%N contributorName
  ++ JS.lit "_UPLOADS".

(** [`${folderName}/${timestamp}_${safeFilename}`] *)
Definition uploadKey (folderName timestamp filename : JS.str) : JS.str :=
  folderName ++ JS.lit "/" ++ timestamp ++ JS.lit "_" ++ safeFilename filename.

(** A file to store: its name, its content type and its bytes. *)
Record file := {
  file_filename : JS.str;
  file_contentType : JS.str;
  file_data : Buffer.t
}.

(** The [for] loop over the files: each is written in turn; the first
    failed write aborts the loop with its error. *)
Fixpoint uploadAll (w : uploadWorld) (folderName timestamp : JS.str)
    (files : list file) (uploadedFiles : list uploadedFile)
    (log : list putObjectCommand)
  : outcome (list uploadedFile) * list putObjectCommand :=
  match files with
  | [] => (Fulfilled uploadedFiles, log)
  | f :: rest =>
      let objectKey := uploadKey folderName timestamp (file_filename f) in
      let command :=
        {| Bucket := R2_BUCKET_NAME (up_env w);
           Key := objectKey;
           Body := file_data f;
           ContentType := file_contentType f |} in
      match send w log command with
      | Threw e => (Threw e, log ++ [command])
      | Fulfilled _ =>
          uploadAll w folderName timestamp rest
            (uploadedFiles ++
               [{| uf_filename := file_filename f;
                   uf_objectKey := objectKey;
                   uf_size := length (file_data f) |}])
            (log ++ [command])
      end
  end.

(** The part of both upload handlers after parsing: write the files and
    compose the response. *)
Definition storeFiles (w : uploadWorld) (contributor : option JS.str)
    (files : list file) : response * list putObjectCommand :=
  let timestamp := timestampOf (up_toISOString w) in
  let contributorName := JS.orElse contributor (JS.lit "Memorial_Guest") in
  let folderName := folderNameOf contributorName in
  match uploadAll w folderName timestamp files [] [] with
  | (Fulfilled uploadedFiles, log) =>
      ({| statusCode := 200;
          responseBody :=
            UploadedBody
              (JS.ofNat (length uploadedFiles)
                 ++ JS.lit " photo(s) uploaded successfully")
              uploadedFiles |}, log)
  | (Threw e, log) =>
      ({| statusCode := 500;
          responseBody := ErrorBody (JS.lit "Upload failed: " ++ message e) |},
       log)
  end.

(** The handler that parses with busboy. *)
Module UploadBusboy.

(** What [parseMultipartForm] resolves to. *)
Record form := {
  files : list file;
  fields_contributor : option JS.str
}.

(** The event: its method and the settlement of
    [parseMultipartForm(event)], which is busboy's work. *)
Record event := {
  httpMethod : JS.str;
  parseMultipartForm : outcome form
}.

Definition handler (w : uploadWorld) (ev : event)
  : response * list putObjectCommand :=
  if JS.eqb (httpMethod ev) (JS.lit "OPTIONS") then
    ({| statusCode := 200; responseBody := EmptyBody |}, [])
  else if negb (JS.eqb (httpMethod ev) (JS.lit "POST")) then
    ({| statusCode := 405;
        responseBody := ErrorBody (JS.lit "Method not allowed") |}, [])
  else if credentialsMissing (up_env w) then
    ({| statusCode := 500;
        responseBody :=
          ErrorBody (JS.lit "Storage not configured. Missing R2 credentials.") |},
     [])
  else
    match parseMultipartForm ev with
    | Threw e =>
        ({| statusCode := 500;
            responseBody := ErrorBody (JS.lit "Upload failed: " ++ message e) |},
         [])
    | Fulfilled parsed =>
        if (length (files parsed) =? 0)%nat then
          ({| statusCode := 400;
              responseBody := ErrorBody (JS.lit "No files uploaded") |}, [])
        else storeFiles w (fields_contributor parsed) (files parsed)
    end.

End UploadBusboy.

(** The handler with its own multipart parser. *)
Module UploadManual.

(** What [parseMultipart] returns. *)
Record parsed := {
  files : list file;
  contributor : JS.str
}.

Definition CRLFCRLF : Buffer.t := [x0d; x0a; x0d; x0a].

(** [Buffer.from(`--${boundary}`)]; [boundary] is [undefined] when
    the header has no [boundary=]. *)
Definition boundaryBuffer (boundary : option JS.str) : Buffer.t :=
  Buffer.from (JS.lit "--" ++ JS.template boundary).

(** The [while (idx !== -1)] loop collecting the raw segments.  One
    unit of [fuel] is spent per iteration; [None] is a run that has
    not finished when the fuel is spent. *)
Fixpoint collectParts (fuel : nat) (body boundaryBuffer : Buffer.t)
    (idx : Z) (parts : list Buffer.t) : option (list Buffer.t) :=
  if (idx =? -1)%Z then Some parts
  else
    match fuel with
    | O => None
    | S fuel' =>
        let nextIdx :=
          Buffer.indexOf body boundaryBuffer
            (idx + Buffer.len boundaryBuffer) in
        if (nextIdx =? -1)%Z then Some parts
        else
          let partData :=
            Buffer.slice body (idx + Buffer.len boundaryBuffer) nextIdx in
          collectParts fuel' body boundaryBuffer nextIdx (parts ++ [partData])
    end.

(** The segments of [body], with fuel for every position of it. *)
Definition rawParts (body boundaryBuffer : Buffer.t)
  : option (list Buffer.t) :=
  collectParts (S (length body)) body boundaryBuffer
    (Buffer.indexOf body boundaryBuffer 0) [].

(** [content.slice(0, content.length - 2)] of the bytes after the
    blank line at [headerEnd]. *)
Definition cleanContent (part : Buffer.t) (headerEnd : Z) : Buffer.t :=
  let content := Buffer.sliceFrom part (headerEnd + 4) in
  Buffer.slice content 0 (Buffer.len content - 2).

Section Decoding.

(** [buf.toString()]: UTF-8 decoding, the runtime's. *)
Variable toString : Buffer.t -> JS.str.

(** The body of the [for (const part of parts)] loop. *)
Definition decodePart (result : parsed) (part : Buffer.t) : parsed :=
  let headerEnd := Buffer.indexOf part CRLFCRLF 0 in
  if (headerEnd =? -1)%Z then result
  else
    let headers := toString (Buffer.slice part 0 headerEnd) in
    let clean := cleanContent part headerEnd in
    match Regex.filenameMatch headers with
    | Some filename =>
        {| files :=
             files result ++
             [{| file_filename := filename;
                 file_contentType :=
                   match Regex.contentTypeMatch headers with
                   | Some ct => ct
                   | None => JS.lit "application/octet-stream"
                   end;
                 file_data := clean |}];
           contributor := contributor result |}
    | None =>
        match Regex.nameMatch headers with
        | Some n =>
            if JS.eqb n (JS.lit "contributor") then
              {| files := files result;
                 contributor :=
                   JS.orElse (Some (JS.trim (toString clean)))
                     (JS.lit "Memorial_Guest") |}
            else result
        | None => result
        end
    end.

Definition parseMultipart (body : Buffer.t) (boundary : option JS.str)
  : option parsed :=
  match rawParts body (boundaryBuffer boundary) with
  | None => None
  | Some parts =>
      Some (fold_left decodePart parts
              {| files := []; contributor := JS.lit "Memorial_Guest" |})
  end.

(** The event: its method, the two spellings of the content-type
    header, and the Buffer made of its body (or the exception of
    making it). *)
Record event := {
  httpMethod : JS.str;
  header_content_type : option JS.str;
  header_Content_Type : option JS.str;
  bodyBuffer : outcome Buffer.t
}.

(** [None] is a call that does not return. *)
Definition handler (w : uploadWorld) (ev : event)
  : option (response * list putObjectCommand) :=
  if JS.eqb (httpMethod ev) (JS.lit "OPTIONS") then
    Some ({| statusCode := 200; responseBody := EmptyBody |}, [])
  else if negb (JS.eqb (httpMethod ev) (JS.lit "POST")) then
    Some ({| statusCode := 405;
             responseBody := ErrorBody (JS.lit "Method not allowed") |}, [])
  else if credentialsMissing (up_env w) then
    Some ({| statusCode := 500;
             responseBody := ErrorBody (JS.lit "Storage not configured") |},
          [])
  else
    let contentType :=
      if JS.truthy (header_content_type ev) then header_content_type ev
      else header_Content_Type ev in
    match contentType with
    | Some (c :: ct) =>
        if negb (JS.includes (c :: ct) (JS.lit "multipart/form-data")) then
          Some ({| statusCode := 400;
                   responseBody :=
                     ErrorBody
                       (JS.lit "Content-Type must be multipart/form-data") |},
                [])
        else
          match bodyBuffer ev with
          | Threw e =>
              Some ({| statusCode := 500;
                       responseBody :=
                         ErrorBody (JS.lit "Upload failed: " ++ message e) |},
                    [])
          | Fulfilled body =>
              let boundary :=
                nth_error (JS.split (c :: ct) (JS.lit "boundary=")) 1 in
              match parseMultipart body boundary with
              | None => None
              | Some parts =>
                  Some (storeFiles w (Some (contributor parts)) (files parts))
              end
          end
    | _ =>
        Some ({| statusCode := 400;
                 responseBody :=
                   ErrorBody
                     (JS.lit "Content-Type must be multipart/form-data") |},
              [])
    end.

End Decoding.

End UploadManual.

(* ================================================================== *)
(** ** The gallery *)

Module Gallery.

(** An entry of [listResponse.Contents]. *)
Record s3Object := {
  Key : JS.str;
  Size : Z;
  LastModified : JS.str
}.

(** The answer to one [ListObjectsV2Command]. *)
Record listResponse := {
  Contents : option (list s3Object);
  IsTruncated : bool;
  NextContinuationToken : option JS.str
}.

Inductive call :=
| ListObjectsV2 (Bucket : JS.str) (MaxKeys : Z)
    (ContinuationToken : option JS.str)
| GetSignedUrl (Bucket Key : JS.str) (expiresIn : Z).

(** [Math.floor(Math.random() * n)] at the [k]-th call of
    [Math.random]: an index below [n]. *)
Record randomSource := {
  floorRandom : nat -> nat -> nat;
  floorRandom_lt : forall k n, floorRandom k (S n) <= n
}.

(** The collaborators of the gallery handler.  [listing] is the
    sequence of answers the service gives to the successive list
    requests of one call. *)
Record world := {
  env : config;
  listing : list (outcome listResponse);
  getSignedUrl : JS.str -> JS.str -> Z -> outcome JS.str;
  random : randomSource
}.

(** [listResponse.IsTruncated ? listResponse.NextContinuationToken : null] *)
Definition nextToken (r : listResponse) : option JS.str :=
  if IsTruncated r then NextContinuationToken r else None.

(** [listResponse.Contents || []] *)
Definition objectsOf (r : listResponse) : list s3Object :=
  match Contents r with
  | Some objects => objects
  | None => []
  end.

(** The [do ... while (continuationToken)] loop, one answer of the
    service per iteration.  [None]: the answers end before the loop
    does. *)
Fixpoint listAll (bucket : JS.str) (answers : list (outcome listResponse))
    (allObjects : list s3Object) (continuationToken : option JS.str)
    (log : list call) : option (outcome (list s3Object) * list call) :=
  match answers with
  | [] => None
  | answer :: later =>
      let log' := log ++ [ListObjectsV2 bucket 1000 continuationToken] in
      match answer with
      | Threw e => Some (Threw e, log')
      | Fulfilled listResponse =>
          let allObjects' := allObjects ++ objectsOf listResponse in
          if JS.truthy (nextToken listResponse)
          then listAll bucket later allObjects' (nextToken listResponse) log'
          else Some (Fulfilled allObjects', log')
      end
  end.

Definition mediaExtensions : list JS.str :=
  map JS.lit [".jpg"; ".jpeg"; ".png"; ".gif"; ".webp"; ".heic"; ".heif";
              ".mp4"; ".mov"; ".webm"]%string.

(** [array[i] = x] for an index of the array. *)
Fixpoint setAt {A} (i : nat) (x : A) (array : list A) : list A :=
  match array, i with
  | [], _ => []
  | _ :: rest, O => x :: rest
  | a :: rest, S i' => a :: setAt i' x rest
  end.

(** [[array[i], array[j]] = [array[j], array[i]]] for two indices of
    the array. *)
Definition swap {A} (array : list A) (i j : nat) : list A :=
  match nth_error array i, nth_error array j with
  | Some ai, Some aj => setAt j ai (setAt i aj array)
  | _, _ => array
  end.

(** The [for (let i = array.length - 1; i > 0; i--)] loop of
    [shuffleArray], at its [k]-th iteration. *)
Fixpoint shuffleFrom {A} (r : randomSource) (k i : nat) (array : list A)
  : list A :=
  match i with
  | O => array
  | S i' =>
      let j := floorRandom r k (i + 1) in
      shuffleFrom r (S k) i' (swap array i j)
  end.

Definition shuffleArray {A} (r : randomSource) (array : list A) : list A :=
  shuffleFrom r 0 (length array - 1) array.

(** [Promise.all] over the settled items: the values in order, or the
    rejection of the first item in order that rejected. *)
Fixpoint all {A} (items : list (outcome A)) : outcome (list A) :=
  match items with
  | [] => Fulfilled []
  | Threw e :: _ => Threw e
  | Fulfilled a :: rest =>
      match all rest with
      | Fulfilled l => Fulfilled (a :: l)
      | Threw e => Threw e
      end
  end.

Section Casing.

(** [s.toLowerCase()], the runtime's Unicode case conversion. *)
Variable toLowerCase : JS.str -> JS.str.

(** The predicate of [allObjects.filter]. *)
Definition isMedia (obj : s3Object) : bool :=
  let key := toLowerCase (Key obj) in
  if JS.startsWith key (JS.lit "_") || JS.includes key (JS.lit "manifest")
  then false
  else existsb (fun ext => JS.endsWith key ext) mediaExtensions.

Definition mediaFiles (allObjects : list s3Object) : list s3Object :=
  filter isMedia allObjects.

(** The selection signed for display:
    [shuffleArray([...mediaFiles]).slice(0, 50)]. *)
Definition selection (r : randomSource) (allObjects : list s3Object)
  : list s3Object :=
  firstn 50 (shuffleArray r (mediaFiles allObjects)).

(** The callback mapped over the selection, given the signed URL. *)
Definition project (obj : s3Object) (signedUrl : JS.str) : photo :=
  let parts := JS.split (Key obj) (JS.lit "/") in
  let contributor :=
    JS.replaceAll (fun c => N.eqb c 95) 32%N
      (JS.removeFirst (nth 0 parts []) (JS.lit "_UPLOADS")) in
  let filename := last parts [] in
  let isVideo :=
    existsb (fun ext => JS.endsWith (toLowerCase (Key obj)) ext)
      (map JS.lit [".mp4"; ".mov"; ".webm"]%string) in
  let isHeic :=
    existsb (fun ext => JS.endsWith (toLowerCase (Key obj)) ext)
      (map JS.lit [".heic"; ".heif"]%string) in
  {| ph_key := Key obj;
     ph_url := signedUrl;
     ph_filename := filename;
     ph_contributor := contributor;
     ph_size := Size obj;
     ph_lastModified := LastModified obj;
     ph_isVideo := isVideo;
     ph_isHeic := isHeic |}.

Definition signOne (w : world) (obj : s3Object) : outcome photo :=
  match getSignedUrl w (R2_BUCKET_NAME (env w)) (Key obj) 3600 with
  | Fulfilled signedUrl => Fulfilled (project obj signedUrl)
  | Threw e => Threw e
  end.

Definition failure (e : error) : response :=
  {| statusCode := 500;
     responseBody :=
       ErrorDetailsBody (JS.lit "Failed to fetch gallery") (message e) |}.

(** [None] is a call whose listing never completes. *)
Definition handler (w : world) (httpMethod : JS.str)
  : option (response * list call) :=
  if JS.eqb httpMethod (JS.lit "OPTIONS") then
    Some ({| statusCode := 200; responseBody := EmptyBody |}, [])
  else if negb (JS.eqb httpMethod (JS.lit "GET")) then
    Some ({| statusCode := 405;
             responseBody := ErrorBody (JS.lit "Method not allowed") |}, [])
  else if credentialsMissing (env w) then
    Some ({| statusCode := 500;
             responseBody := ErrorBody (JS.lit "Server configuration error") |},
          [])
  else
    match listAll (R2_BUCKET_NAME (env w)) (listing w) [] None [] with
    | None => None
    | Some (Threw e, log) => Some (failure e, log)
    | Some (Fulfilled allObjects, log) =>
        let chosen := selection (random w) allObjects in
        let log' :=
          log ++
          map (fun obj => GetSignedUrl (R2_BUCKET_NAME (env w)) (Key obj) 3600)
            chosen in
        match all (map (signOne w) chosen) with
        | Fulfilled photos =>
            Some ({| statusCode := 200;
                     responseBody := GalleryBody photos (length photos) |},
                  log')
        | Threw e => Some (failure e, log')
        end
    end.

End Casing.

End Gallery.


(* ================================================================== *)
(** ** Boundary occurrences, as the specification speaks of them *)

(** The occurrences of [boundaryBuffer] in [body] from position [from]
    on, each sought after the end of the one before; after the last
    there is no further one. *)
Fixpoint occurrencesFrom (body boundaryBuffer : Buffer.t) (from : Z)
    (occurrences : list Z) : Prop :=
  match occurrences with
  | [] => Buffer.indexOf body boundaryBuffer from = (-1)%Z
  | p :: later =>
      Buffer.indexOf body boundaryBuffer from = p /\ p <> (-1)%Z /\
      occurrencesFrom body boundaryBuffer (p + Buffer.len boundaryBuffer) later
  end.

(** The bytes of [body] from position [from] up to position [to]. *)
Definition bytesBetween (body : Buffer.t) (from to : Z) : Buffer.t :=
  firstn (Z.to_nat (to - from)) (skipn (Z.to_nat from) body).

(** One raw segment per pair of consecutive occurrences: the bytes
    between the end of the first and the start of the second. *)
Fixpoint delimitedSegments (body boundaryBuffer : Buffer.t)
    (occurrences : list Z) : list Buffer.t :=
  match occurrences with
  | p :: later =>
      match later with
      | q :: _ =>
          bytesBetween body (p + Buffer.len boundaryBuffer) q
          :: delimitedSegments body boundaryBuffer later
      | [] => []
      end
  | [] => []
  end.

(* ================================================================== *)
(** ** Gallery keys, as the specification speaks of them *)

(** A lowercased key the gallery may show: it ends with one of the
    media extensions, does not start with an underscore and does not
    contain [manifest]. *)
Definition shownKey (lowercased : JS.str) : Prop :=
  (exists ext,
     In ext (map JS.lit [".jpg"; ".jpeg"; ".png"; ".gif"; ".webp"; ".heic";
                         ".heif"; ".mp4"; ".mov"; ".webm"]%string)
     /\ JS.endsWith lowercased ext = true)
  /\ JS.startsWith lowercased (JS.lit "_") = false
  /\ JS.includes lowercased (JS.lit "manifest") = false.
(* ================================================================== *)
(** ** Sample deployments and requests *)

(** A deployment with its storage credentials set and the default
    bucket name. *)
Definition configured : config :=
  {| R2_ACCOUNT_ID := Some (JS.lit "acct");
     R2_ACCESS_KEY_ID := Some (JS.lit "AKIA");
     R2_SECRET_ACCESS_KEY := Some (JS.lit "secret");
     R2_BUCKET_NAME_env := None |}.

(** A bucket that holds every key asked for, and a signer that
    answers with a fixed URL. *)
Definition worldWhereAllExist : presignWorld :=
  {| env := configured;
     toISOString := JS.lit "2024-01-15T10:30:45.123Z";
     headObject := fun _ _ => Fulfilled tt;
     getSignedUrl := fun _ _ => Fulfilled (JS.lit "https://signed.example/put") |}.

(** A configured deployment whose storage service cannot be reached by
    the probe: every [HeadObjectCommand] fails with a network fault,
    which is not a "not found" answer. *)
Definition worldWithUnreachableProbe : presignWorld :=
  {| env := configured;
     toISOString := JS.lit "2024-01-15T10:30:45.123Z";
     headObject := fun _ _ =>
       Threw {| name := JS.lit "TimeoutError";
                message := JS.lit "connect ETIMEDOUT" |};
     getSignedUrl := fun _ _ => Fulfilled (JS.lit "https://signed.example/put") |}.


(** UTF-8 decoding of a buffer of ASCII bytes: each byte is its code
    unit. *)
Definition asciiToString (buf : Buffer.t) : JS.str := map Byte.to_N buf.

Definition bytesOf (s : string) : Buffer.t := list_byte_of_string s.

Definition CRLF : Buffer.t := [x0d; x0a].

(** A storage service that accepts every write. *)
Definition worldAcceptingWrites : uploadWorld :=
  {| up_env := configured;
     up_toISOString := JS.lit "2024-01-15T10:30:45.123Z";
     send := fun _ _ => Fulfilled tt |}.

(** A form submitted with a contributor name and no file. *)
Definition formWithoutFiles : Buffer.t :=
  bytesOf "--XYZ" ++ CRLF ++
  bytesOf "Content-Disposition: form-data; name=" ++ [x22] ++
  bytesOf "contributor" ++ [x22] ++ CRLF ++ CRLF ++
  bytesOf "Bob" ++ CRLF ++
  bytesOf "--XYZ--" ++ CRLF.

Definition requestWithoutFiles : UploadManual.event :=
  {| UploadManual.httpMethod := JS.lit "POST";
     UploadManual.header_content_type :=
       Some (JS.lit "multipart/form-data; boundary=XYZ");
     UploadManual.header_Content_Type := None;
     UploadManual.bodyBuffer := Fulfilled formWithoutFiles |}.

(** A body whose second part is cut off before its closing boundary. *)
Definition truncatedForm : Buffer.t :=
  bytesOf "--XYZ" ++ CRLF ++
  bytesOf "Content-Disposition: form-data; name=" ++ [x22] ++
  bytesOf "contributor" ++ [x22] ++ CRLF ++ CRLF ++
  bytesOf "Bob" ++ CRLF ++
  bytesOf "--XYZ" ++ CRLF ++
  bytesOf "Content-Disposition: form-data; name=" ++ [x22] ++
  bytesOf "photo" ++ [x22] ++ bytesOf "; filename=" ++ [x22] ++
  bytesOf "a.png" ++ [x22] ++ CRLF ++ CRLF ++
  bytesOf "PNGDATA".

(** A raw segment whose body does not end with CRLF. *)
Definition segmentWithoutCRLF : Buffer.t :=
  CRLF ++
  bytesOf "Content-Disposition: form-data; name=" ++ [x22] ++
  bytesOf "photo" ++ [x22] ++ bytesOf "; filename=" ++ [x22] ++
  bytesOf "a.png" ++ [x22] ++ CRLF ++ CRLF ++
  bytesOf "PNGDATA".

(** Lowercasing of ASCII letters, which is what [toLowerCase] does to
    a string of ASCII code units. *)
Definition asciiLower (s : JS.str) : JS.str :=
  map (fun c => if JS.isUpper c then (c + 32)%N else c) s.

(** A random source whose every draw is 0. *)
Definition alwaysZero : Gallery.randomSource :=
  {| Gallery.floorRandom := fun _ _ => 0;
     Gallery.floorRandom_lt := fun _ n => Nat.le_0_l n |}.

Definition object (key : string) : Gallery.s3Object :=
  {| Gallery.Key := JS.lit key;
     Gallery.Size := 2048;
     Gallery.LastModified := JS.lit "2024-01-15T10:30:45.000Z" |}.

(** A listing in two pages: the first is truncated and names the
    marker ["page-2"], the second is final. *)
Definition firstPage : Gallery.listResponse :=
  {| Gallery.Contents :=
       Some [object "Bob_UPLOADS/a.JPG"; object "_hidden/b.png";
             object "Bob_UPLOADS/manifest.json"];
     Gallery.IsTruncated := true;
     Gallery.NextContinuationToken := Some (JS.lit "page-2") |}.

Definition secondPage : Gallery.listResponse :=
  {| Gallery.Contents :=
       Some [object "Bob_UPLOADS/manifest_photo.jpg";
             object "Ann_Lee_UPLOADS/clip.mov"; object "Bob_UPLOADS/notes.txt"];
     Gallery.IsTruncated := false;
     Gallery.NextContinuationToken := None |}.

Definition signer (bucket key : JS.str) (expiresIn : Z) : outcome JS.str :=
  Fulfilled (JS.lit "https://signed.example/" ++ key).

Definition twoPageWorld : Gallery.world :=
  {| Gallery.env := configured;
     Gallery.listing := [Fulfilled firstPage; Fulfilled secondPage];
     Gallery.getSignedUrl := signer;
     Gallery.random := alwaysZero |}.

(** A bucket of sixty photos, listed in one page. *)
Definition sixtyPhotos : list Gallery.s3Object :=
  map (fun n =>
         {| Gallery.Key :=
              JS.lit "Guest_UPLOADS/photo" ++ JS.ofNat n ++ JS.lit ".jpg";
            Gallery.Size := 2048;
            Gallery.LastModified := JS.lit "2024-01-15T10:30:45.000Z" |})
      (seq 0 60).

Definition sixtyPhotoWorld : Gallery.world :=
  {| Gallery.env := configured;
     Gallery.listing :=
       [Fulfilled {| Gallery.Contents := Some sixtyPhotos;
                     Gallery.IsTruncated := false;
                     Gallery.NextContinuationToken := None |}];
     Gallery.getSignedUrl := signer;
     Gallery.random := alwaysZero |}.

From Stdlib Require Import Permutation.

(* ================================================================== *)
(** ** Further sample requests *)

(** A request for an upload URL without a hash. *)
Definition requestWithoutHash : presignEvent :=
  {| httpMethod := JS.lit "POST";
     parsedBody :=
       Fulfilled {| filename := Some (JS.lit "My Photo #1.JPG");
                    contentType := None;
                    size := Some 1024%Z;
                    fileHash := None |} |}.

(** The write the upload loop sends for a file, and the entry it
    reports for it, under a folder and a timestamp. *)
Definition commandFor (w : uploadWorld) (folderName timestamp : JS.str)
    (f : file) : putObjectCommand :=
  {| Bucket := R2_BUCKET_NAME (up_env w);
     Key := uploadKey folderName timestamp (file_filename f);
     Body := file_data f;
     ContentType := file_contentType f |}.

Definition entryFor (folderName timestamp : JS.str) (f : file) : uploadedFile :=
  {| uf_filename := file_filename f;
     uf_objectKey := uploadKey folderName timestamp (file_filename f);
     uf_size := length (file_data f) |}.

(** The folder and the timestamp of one upload call. *)
Definition folderOf (contributor : option JS.str) : JS.str :=
  folderNameOf (JS.orElse contributor (JS.lit "Memorial_Guest")).

Definition photoOne : file :=
  {| file_filename := JS.lit "a b.png";
     file_contentType := JS.lit "image/png";
     file_data := bytesOf "first" |}.

Definition clipTwo : file :=
  {| file_filename := JS.lit "clip.mov";
     file_contentType := JS.lit "video/quicktime";
     file_data := bytesOf "second!" |}.

Definition photoThree : file :=
  {| file_filename := JS.lit "a#b.png";
     file_contentType := JS.lit "image/png";
     file_data := bytesOf "third" |}.

Definition threeFiles : list file := [photoOne; clipTwo; photoThree].

(** A storage service that fails the second write of a call. *)
Definition worldFailingSecondWrite : uploadWorld :=
  {| up_env := configured;
     up_toISOString := JS.lit "2024-01-15T10:30:45.123Z";
     send := fun log _ =>
       match log with
       | [_] => Threw {| name := JS.lit "ServiceUnavailable";
                         message := JS.lit "503" |}
       | _ => Fulfilled tt
       end |}.

(** A multipart body: the boundary, then each raw segment followed by
    the boundary, then what follows the last boundary. *)
Definition joinSegments (boundaryBuffer : Buffer.t) (segments : list Buffer.t)
    (tail : Buffer.t) : Buffer.t :=
  boundaryBuffer ++ concat (map (fun s => s ++ boundaryBuffer) segments) ++ tail.

(** The raw segment of a part: its header block, the blank line, its
    bytes and the CRLF that precedes the next boundary. *)
Definition segmentOf (headers data : Buffer.t) : Buffer.t :=
  headers ++ [x0d; x0a; x0d; x0a] ++ data ++ [x0d; x0a].

(** The header block of a file part, with the CRLF that follows the
    boundary. *)
Definition photoHeaders : Buffer.t :=
  CRLF ++
  bytesOf "Content-Disposition: form-data; name=" ++ [x22] ++
  bytesOf "photo" ++ [x22] ++ bytesOf "; filename=" ++ [x22] ++
  bytesOf "a.png" ++ [x22] ++ CRLF ++
  bytesOf "Content-Type: image/png".

(** Bytes of a file that hold a CRLF, a blank line and dashes. *)
Definition photoBytes : Buffer.t :=
  bytesOf "PNG" ++ CRLF ++ CRLF ++ bytesOf "--data--" ++ CRLF.

(** A file part as a producer encodes it: its header block, its bytes,
    and the file name its header block declares. *)
Record encodedPart := {
  ep_headers : Buffer.t;
  ep_data : Buffer.t;
  ep_filename : JS.str
}.

(** The file the parser is to give back for an encoded part. *)
Definition decodedFile (toString : Buffer.t -> JS.str) (p : encodedPart)
  : file :=
  {| file_filename := ep_filename p;
     file_contentType :=
       match Regex.contentTypeMatch (toString (ep_headers p)) with
       | Some ct => ct
       | None => JS.lit "application/octet-stream"
       end;
     file_data := ep_data p |}.

(** A part is well delimited under a boundary when the boundary does
    not occur in its segment, its header block holds no blank line, and
    its header block declares its file name. *)
Definition wellDelimited (toString : Buffer.t -> JS.str) (bb : Buffer.t)
    (p : encodedPart) : Prop :=
  Buffer.search bb (segmentOf (ep_headers p) (ep_data p) ++ bb) 0
  = Some (length (segmentOf (ep_headers p) (ep_data p)))
  /\ Buffer.search UploadManual.CRLFCRLF
       (ep_headers p ++ UploadManual.CRLFCRLF) 0
     = Some (length (ep_headers p))
  /\ Regex.filenameMatch (toString (ep_headers p)) = Some (ep_filename p).

Definition encodedPhoto : encodedPart :=
  {| ep_headers := photoHeaders;
     ep_data := photoBytes;
     ep_filename := JS.lit "a.png" |}.

(** A request whose content-type header names no boundary, with a body
    delimited by the token [undefined]. *)
Definition requestWithoutBoundary : UploadManual.event :=
  {| UploadManual.httpMethod := JS.lit "POST";
     UploadManual.header_content_type := Some (JS.lit "multipart/form-data");
     UploadManual.header_Content_Type := None;
     UploadManual.bodyBuffer :=
       Fulfilled (joinSegments (bytesOf "--undefined")
                    [segmentOf photoHeaders photoBytes]
                    (bytesOf "--" ++ CRLF)) |}.

(** A signer that refuses one key. *)
Definition signerRefusingOne (bucket key : JS.str) (expiresIn : Z)
  : outcome JS.str :=
  if JS.eqb key (JS.lit "Bob_UPLOADS/a.JPG")
  then Threw {| name := JS.lit "CredentialsProviderError";
                message := JS.lit "could not load credentials" |}
  else Fulfilled (JS.lit "https://signed.example/" ++ key).

Definition worldRefusingOneSignature : Gallery.world :=
  {| Gallery.env := configured;
     Gallery.listing := [Fulfilled firstPage; Fulfilled secondPage];
     Gallery.getSignedUrl := signerRefusingOne;
     Gallery.random := alwaysZero |}.

(** A listing whose second page request fails. *)
Definition worldFailingSecondPage : Gallery.world :=
  {| Gallery.env := configured;
     Gallery.listing :=
       [Fulfilled firstPage;
        Threw {| name := JS.lit "TimeoutError";
                 message := JS.lit "connect ETIMEDOUT" |}];
     Gallery.getSignedUrl := signer;
     Gallery.random := alwaysZero |}.

(** The header block of the contributor field. *)
Definition contributorHeaders : Buffer.t :=
  CRLF ++
  bytesOf "Content-Disposition: form-data; name=" ++ [x22] ++
  bytesOf "contributor" ++ [x22].

(** A request carrying one photo, with a parameter after the boundary
    in its content-type header. *)
Definition photoRequest : UploadManual.event :=
  {| UploadManual.httpMethod := JS.lit "POST";
     UploadManual.header_content_type :=
       Some (JS.lit "multipart/form-data; boundary=XYZ");
     UploadManual.header_Content_Type := None;
     UploadManual.bodyBuffer :=
       Fulfilled (joinSegments (bytesOf "--XYZ")
                    [segmentOf photoHeaders photoBytes]
                    (bytesOf "--" ++ CRLF)) |}.

(** An upload cut off in its third part: a contributor field, a whole
    photo, and a second photo whose closing boundary never arrives. *)
Definition truncatedUpload : Buffer.t :=
  joinSegments (bytesOf "--XYZ")
    [segmentOf contributorHeaders (bytesOf " Bob  ");
     segmentOf photoHeaders photoBytes]
    (photoHeaders ++ CRLF ++ CRLF ++ bytesOf "PNGDATA").

(** The rendering of an instant by [toISOString] for the years 0000 to
    9999, [YYYY-MM-DDTHH:mm:ss.sssZ]: in the template a digit is [None]
    and any other code unit is itself. *)
Definition isoTemplate : list (option JS.char) :=
  [None; None; None; None; Some 45%N; None; None; Some 45%N; None; None;
   Some 84%N; None; None; Some 58%N; None; None; Some 58%N; None; None;
   Some 46%N; None; None; None; Some 90%N].

Fixpoint fits (template : list (option JS.char)) (s : JS.str) : bool :=
  match template, s with
  | [], [] => true
  | None :: template', c :: s' => JS.isDigit c && fits template' s'
  | Some l :: template', c :: s' => N.eqb c l && fits template' s'
  | _, _ => false
  end.

Definition isoInstant (iso : JS.str) : bool := fits isoTemplate iso.

(** Two such renderings are of the same second when they agree on
    their date and their time of day up to the seconds, the first
    nineteen code units. *)
Definition sameSecond (iso1 iso2 : JS.str) : Prop :=
  firstn 19 iso1 = firstn 19 iso2.
(* ================================================================== *)
(** * Properties *)

(** ** Key resolution *)

Lemma truthy_cons (o : option JS.str) :
  JS.truthy o = true -> exists c s, o = Some (c :: s).
Proof.
  destruct o as [[|c s]|]; simpl; intro H; try discriminate.
  now exists c, s.
Qed.

Lemma replaceAll_length p r s : length (JS.replaceAll p r s) = length s.
Proof. apply length_map. Qed.

Lemma replaceAll_nth p r s i c :
  nth_error s i = Some c ->
  nth_error (JS.replaceAll p r s) i = Some (if p c then r else c).
Proof.
  intro H. unfold JS.replaceAll.
  now rewrite nth_error_map, H.
Qed.

Lemma safeFilename_Forall filename :
  Forall (fun c => filenameChar c = true) (safeFilename filename).
Proof.
  unfold safeFilename, JS.replaceAll.
  induction filename as [|c s IH]; simpl; constructor; auto.
  destruct (filenameChar c) eqn:E; simpl; auto.
Qed.

Lemma resolveKey_hash iso f h :
  JS.truthy (Some h) = true ->
  Presign.resolveKey iso f (Some h) = Presign.objectKey h (safeFilename f).
Proof.
  intro H. apply truthy_cons in H as (c & s & E).
  injection E as ->. reflexivity.
Qed.

(** C8: the file-name segment of every resolved key is the file name
    with each code unit outside [[A-Za-z0-9._-]] replaced by an
    underscore, so it holds only code units of that class; this is so
    for hash keys and timestamp keys, in both versions of the presign
    handler, and ["My Photo #1.JPG"] becomes ["My_Photo__1.JPG"]. *)
Theorem safeFilename_only_allowed_chars (filename : JS.str) :
  Forall (fun c => filenameChar c = true) (safeFilename filename)
  /\ length (safeFilename filename) = length filename
  /\ (forall i c, nth_error filename i = Some c ->
        nth_error (safeFilename filename) i
        = Some (if filenameChar c then c else 95%N))
  /\ (forall iso fileHash, exists discriminator,
        Presign.resolveKey iso filename fileHash
        = JS.lit "Memorial_Guest_UPLOADS/" ++ discriminator ++ JS.lit "_"
            ++ safeFilename filename)
  /\ (forall timestamp,
        PresignByTime.objectKey timestamp (safeFilename filename)
        = JS.lit "Memorial_Guest_UPLOADS/" ++ timestamp ++ JS.lit "_"
            ++ safeFilename filename)
  /\ safeFilename (JS.lit "My Photo #1.JPG") = JS.lit "My_Photo__1.JPG".
Proof.
  split; [apply safeFilename_Forall|].
  split; [apply replaceAll_length|].
  split.
  { intros i c H. unfold safeFilename.
    rewrite (replaceAll_nth _ _ _ _ _ H). now destruct (filenameChar c). }
  split.
  { intros iso [[|c h]|]; eexists; reflexivity. }
  split; reflexivity.
Qed.

(** C9: in hash mode the resolved key does not depend on the time of
    the call, and for one file name two hashes give the same key exactly
    when they are the same hash. *)
Theorem hash_key_idempotent_injective (filename h1 h2 iso1 iso2 : JS.str) :
  JS.truthy (Some h1) = true ->
  JS.truthy (Some h2) = true ->
  (h1 = h2 ->
   Presign.resolveKey iso1 filename (Some h1)
   = Presign.resolveKey iso2 filename (Some h2))
  /\ (h1 <> h2 ->
      Presign.resolveKey iso1 filename (Some h1)
      <> Presign.resolveKey iso2 filename (Some h2)).
Proof.
  intros T1 T2.
  rewrite (resolveKey_hash iso1 filename h1 T1), (resolveKey_hash iso2 filename h2 T2).
  split.
  - now intros ->.
  - intros Hne E. apply Hne.
    unfold Presign.objectKey in E.
    apply app_inv_head in E.
    now apply app_inv_tail in E.
Qed.

Lemma hash_key_idempotent_injective_witness :
  Presign.resolveKey (JS.lit "2024-01-15T10:30:45.123Z") (JS.lit "a.png")
    (Some (JS.lit "abc123"))
  = Presign.resolveKey (JS.lit "2025-06-30T23:59:59.999Z") (JS.lit "a.png")
      (Some (JS.lit "abc123"))
  /\ Presign.resolveKey (JS.lit "2024-01-15T10:30:45.123Z") (JS.lit "a.png")
       (Some (JS.lit "abc123"))
     <> Presign.resolveKey (JS.lit "2024-01-15T10:30:45.123Z") (JS.lit "a.png")
          (Some (JS.lit "abc124")).
Proof.
  split.
  - apply (hash_key_idempotent_injective (JS.lit "a.png")
             (JS.lit "abc123") (JS.lit "abc123")
             (JS.lit "2024-01-15T10:30:45.123Z")
             (JS.lit "2025-06-30T23:59:59.999Z")); reflexivity.
  - apply (hash_key_idempotent_injective (JS.lit "a.png")
             (JS.lit "abc123") (JS.lit "abc124")
             (JS.lit "2024-01-15T10:30:45.123Z")
             (JS.lit "2024-01-15T10:30:45.123Z"));
      [reflexivity | reflexivity | vm_compute; discriminate].
Defined.

(** ** The deduplication gate *)

(** A request by POST with a truthy file name and a truthy hash, in a
    configured deployment: the handler reaches the metadata probe. *)
Lemma Presign_handler_hash_path w req f h :
  credentialsMissing (env w) = false ->
  filename req = Some f -> JS.truthy (Some f) = true ->
  fileHash req = Some h -> JS.truthy (Some h) = true ->
  let bucket := R2_BUCKET_NAME (env w) in
  let key := Presign.objectKey h (safeFilename f) in
  Presign.handler w
    {| httpMethod := JS.lit "POST"; parsedBody := Fulfilled req |}
  = match headObject w bucket key with
    | Fulfilled _ =>
        ({| statusCode := 200;
            responseBody := SkippedBody key (JS.lit "File already exists") |},
         [HeadObject bucket key])
    | Threw _ => signUpload w req key [HeadObject bucket key]
    end.
Proof.
  intros Hc Hf Tf Hh Th bucket key.
  unfold Presign.handler. cbn [httpMethod parsedBody].
  change (JS.eqb (JS.lit "POST") (JS.lit "OPTIONS")) with false.
  change (JS.eqb (JS.lit "POST") (JS.lit "POST")) with true.
  cbn [negb]. rewrite Hc, Hf, Hh.
  destruct (truthy_cons _ Tf) as (c & s & Ef). injection Ef as ->.
  rewrite Th, (resolveKey_hash _ _ _ Th).
  reflexivity.
Qed.

(** C3: a request carrying a hash whose key the probe finds is
    answered [{success: true, skipped: true, objectKey}] with the
    existing key, after the probe alone: no URL is signed. *)
Theorem existing_hash_is_skipped w req f h :
  credentialsMissing (env w) = false ->
  filename req = Some f -> JS.truthy (Some f) = true ->
  fileHash req = Some h -> JS.truthy (Some h) = true ->
  headObject w (R2_BUCKET_NAME (env w))
    (JS.lit "Memorial_Guest_UPLOADS/" ++ h ++ JS.lit "_" ++ safeFilename f)
  = Fulfilled tt ->
  Presign.handler w
    {| httpMethod := JS.lit "POST"; parsedBody := Fulfilled req |}
  = ({| statusCode := 200;
        responseBody :=
          SkippedBody
            (JS.lit "Memorial_Guest_UPLOADS/" ++ h ++ JS.lit "_" ++ safeFilename f)
            (JS.lit "File already exists") |},
     [HeadObject (R2_BUCKET_NAME (env w))
        (JS.lit "Memorial_Guest_UPLOADS/" ++ h ++ JS.lit "_" ++ safeFilename f)]).
Proof.
  intros Hc Hf Tf Hh Th Hhead.
  rewrite (Presign_handler_hash_path w req f h Hc Hf Tf Hh Th).
  unfold Presign.objectKey. now rewrite Hhead.
Qed.

Lemma existing_hash_is_skipped_witness :
  Presign.handler worldWhereAllExist
    {| httpMethod := JS.lit "POST";
       parsedBody :=
         Fulfilled {| filename := Some (JS.lit "a.png");
                      contentType := Some (JS.lit "image/png");
                      size := Some 1024%Z;
                      fileHash := Some (JS.lit "abc123") |} |}
  = ({| statusCode := 200;
        responseBody :=
          SkippedBody (JS.lit "Memorial_Guest_UPLOADS/abc123_a.png")
            (JS.lit "File already exists") |},
     [HeadObject (JS.lit "family-archive-uploads")
        (JS.lit "Memorial_Guest_UPLOADS/abc123_a.png")]).
Proof.
  exact (existing_hash_is_skipped worldWhereAllExist
           {| filename := Some (JS.lit "a.png");
              contentType := Some (JS.lit "image/png");
              size := Some 1024%Z;
              fileHash := Some (JS.lit "abc123") |}
           (JS.lit "a.png") (JS.lit "abc123")
           eq_refl eq_refl eq_refl eq_refl eq_refl eq_refl).
Defined.

(** Whatever the probe throws, the handler goes on to sign a write to
    the key. *)
Lemma probe_error_proceeds_to_sign w req f h e url :
  credentialsMissing (env w) = false ->
  filename req = Some f -> JS.truthy (Some f) = true ->
  fileHash req = Some h -> JS.truthy (Some h) = true ->
  let bucket := R2_BUCKET_NAME (env w) in
  let key := Presign.objectKey h (safeFilename f) in
  let command :=
    {| put_Bucket := bucket; put_Key := key;
       put_ContentType :=
         JS.orElse (contentType req) (JS.lit "application/octet-stream") |} in
  headObject w bucket key = Threw e ->
  getSignedUrl w command 3600%Z = Fulfilled url ->
  Presign.handler w
    {| httpMethod := JS.lit "POST"; parsedBody := Fulfilled req |}
  = ({| statusCode := 200; responseBody := UploadUrlBody url key 3600 |},
     [HeadObject bucket key; GetSignedUrl command 3600]).
Proof.
  intros Hc Hf Tf Hh Th bucket key command Hhead Hsign.
  rewrite (Presign_handler_hash_path w req f h Hc Hf Tf Hh Th).
  fold bucket key. rewrite Hhead.
  unfold signUpload. fold bucket command. now rewrite Hsign.
Qed.

(** C1, as the code behaves: with the probe failing by a network fault
    the handler does not answer with an error; it answers 200 with a
    signed write URL for the very key it could not probe. *)
Theorem probe_fault_is_treated_as_not_found :
  Presign.handler worldWithUnreachableProbe
    {| httpMethod := JS.lit "POST";
       parsedBody :=
         Fulfilled {| filename := Some (JS.lit "a.png");
                      contentType := Some (JS.lit "image/png");
                      size := Some 1024%Z;
                      fileHash := Some (JS.lit "abc123") |} |}
  = ({| statusCode := 200;
        responseBody :=
          UploadUrlBody (JS.lit "https://signed.example/put")
            (JS.lit "Memorial_Guest_UPLOADS/abc123_a.png") 3600 |},
     [HeadObject (JS.lit "family-archive-uploads")
        (JS.lit "Memorial_Guest_UPLOADS/abc123_a.png");
      GetSignedUrl
        {| put_Bucket := JS.lit "family-archive-uploads";
           put_Key := JS.lit "Memorial_Guest_UPLOADS/abc123_a.png";
           put_ContentType := JS.lit "image/png" |} 3600]).
Proof.
  exact (probe_error_proceeds_to_sign worldWithUnreachableProbe
           {| filename := Some (JS.lit "a.png");
              contentType := Some (JS.lit "image/png");
              size := Some 1024%Z;
              fileHash := Some (JS.lit "abc123") |}
           (JS.lit "a.png") (JS.lit "abc123") _ _
           eq_refl eq_refl eq_refl eq_refl eq_refl eq_refl eq_refl).
Qed.

(** ** Uploads without files *)

Lemma storeFiles_nil w contributor :
  storeFiles w contributor []
  = ({| statusCode := 200;
        responseBody :=
          UploadedBody (JS.lit "0 photo(s) uploaded successfully") [] |}, []).
Proof. reflexivity. Qed.

(** The handler that parses with busboy refuses a form without files:
    400, "No files uploaded", and nothing is written. *)
Lemma UploadBusboy_no_files w ev form :
  UploadBusboy.httpMethod ev = JS.lit "POST" ->
  credentialsMissing (up_env w) = false ->
  UploadBusboy.parseMultipartForm ev = Fulfilled form ->
  UploadBusboy.files form = [] ->
  UploadBusboy.handler w ev
  = ({| statusCode := 400;
        responseBody := ErrorBody (JS.lit "No files uploaded") |}, []).
Proof.
  intros Hm Hc Hp Hf. unfold UploadBusboy.handler.
  rewrite Hm, Hc, Hp, Hf.
  change (JS.eqb (JS.lit "POST") (JS.lit "OPTIONS")) with false.
  change (JS.eqb (JS.lit "POST") (JS.lit "POST")) with true.
  reflexivity.
Qed.

(** The handler with its own parser has no such test: whenever the
    parser finds no file part it answers 200 with an empty list. *)
Lemma UploadManual_no_files toString w ev ct body parts :
  UploadManual.httpMethod ev = JS.lit "POST" ->
  credentialsMissing (up_env w) = false ->
  UploadManual.header_content_type ev = Some ct ->
  JS.includes ct (JS.lit "multipart/form-data") = true ->
  UploadManual.bodyBuffer ev = Fulfilled body ->
  UploadManual.parseMultipart toString body
    (nth_error (JS.split ct (JS.lit "boundary=")) 1) = Some parts ->
  UploadManual.files parts = [] ->
  UploadManual.handler toString w ev
  = Some ({| statusCode := 200;
             responseBody :=
               UploadedBody (JS.lit "0 photo(s) uploaded successfully") [] |},
          []).
Proof.
  intros Hm Hc Hct Hinc Hb Hp Hf. unfold UploadManual.handler.
  rewrite Hm, Hc, Hct.
  change (JS.eqb (JS.lit "POST") (JS.lit "OPTIONS")) with false.
  change (JS.eqb (JS.lit "POST") (JS.lit "POST")) with true.
  cbn [negb].
  destruct ct as [|c ct]; [discriminate Hinc|].
  cbn [JS.truthy]. rewrite Hinc, Hb. cbn [negb].
  rewrite Hp, Hf. now rewrite storeFiles_nil.
Qed.

(** C2, as the code behaves: a form with a contributor name and no
    file, sent to the handler with its own parser, is answered 200
    "0 photo(s) uploaded successfully" and not 400 "No files uploaded". *)
Theorem manual_upload_without_files_succeeds :
  UploadManual.handler asciiToString worldAcceptingWrites requestWithoutFiles
  = Some ({| statusCode := 200;
             responseBody :=
               UploadedBody (JS.lit "0 photo(s) uploaded successfully") [] |},
          []).
Proof.
  apply (UploadManual_no_files asciiToString worldAcceptingWrites
           requestWithoutFiles
           (JS.lit "multipart/form-data; boundary=XYZ") formWithoutFiles
           {| UploadManual.files := [];
              UploadManual.contributor := JS.lit "Bob" |});
    vm_compute; reflexivity.
Qed.

(** ** The multipart parser: collecting the raw segments *)

Lemma isPrefix_length value buf :
  Buffer.isPrefix value buf = true -> length value <= length buf.
Proof.
  revert buf. induction value as [|v value IH]; intros [|b buf]; simpl;
    try lia; try discriminate.
  intro H. apply andb_prop in H as [_ H]. apply IH in H. lia.
Qed.

Lemma search_bounds value buf pos i :
  Buffer.search value buf pos = Some i ->
  pos <= i /\ i + length value <= pos + length buf.
Proof.
  revert pos. induction buf as [|b buf IH]; intro pos; simpl.
  - destruct (Buffer.isPrefix value []) eqn:E; [|discriminate].
    intro H. injection H as <-. apply isPrefix_length in E. simpl in E. lia.
  - destruct (Buffer.isPrefix value (b :: buf)) eqn:E.
    + intro H. injection H as <-. apply isPrefix_length in E. simpl in E. lia.
    + intro H. apply IH in H. lia.
Qed.

(** An occurrence found from a position on lies at or after it and
    fits in the buffer. *)
Lemma indexOf_bounds buf value from :
  value <> [] -> (0 <= from)%Z ->
  Buffer.indexOf buf value from <> (-1)%Z ->
  (from <= Buffer.indexOf buf value from)%Z /\
  (Buffer.indexOf buf value from + Buffer.len value <= Buffer.len buf)%Z.
Proof.
  intros Hv Hfrom. unfold Buffer.indexOf, Buffer.len.
  destruct (Z.ltb_spec from 0); [lia|].
  set (off := Z.min from (Z.of_nat (length buf))).
  destruct (Buffer.search value (skipn (Z.to_nat off) buf) (Z.to_nat off))
    as [i|] eqn:E; [|congruence].
  intros _. apply search_bounds in E. rewrite length_skipn in E.
  assert (0 < length value) by (destruct value; [congruence | simpl; lia]).
  lia.
Qed.

Lemma slice_bytesBetween body from to :
  (0 <= from)%Z -> (from <= to)%Z -> (to <= Buffer.len body)%Z ->
  Buffer.slice body from to = bytesBetween body from to.
Proof.
  intros H0 H1 H2. unfold Buffer.slice, Buffer.clamp, bytesBetween.
  destruct (Z.ltb_spec from 0); [lia|].
  destruct (Z.ltb_spec to 0); [lia|].
  now rewrite !Z.min_l by lia.
Qed.

Lemma boundaryBuffer_cons boundary :
  UploadManual.boundaryBuffer boundary
  = x2d :: x2d :: Buffer.from (JS.template boundary).
Proof. reflexivity. Qed.

Lemma boundaryBuffer_nonempty boundary :
  UploadManual.boundaryBuffer boundary <> [].
Proof. rewrite boundaryBuffer_cons. discriminate. Qed.

(** The loop, entered at an occurrence with fuel for the bytes that
    remain, appends the segments delimited from there on. *)
Lemma collectParts_segments fuel : forall body bb idx parts occurrences,
  bb <> [] ->
  (0 <= idx)%Z -> (idx <= Buffer.len body)%Z ->
  Z.to_nat (Buffer.len body - idx) < fuel ->
  occurrencesFrom body bb (idx + Buffer.len bb) occurrences ->
  UploadManual.collectParts fuel body bb idx parts
  = Some (parts ++ delimitedSegments body bb (idx :: occurrences)).
Proof.
  induction fuel as [|fuel IH]; intros body bb idx parts occs Hbb H0 H1 Hfuel Hocc;
    [lia|].
  assert (Hlen : (0 < Buffer.len bb)%Z)
    by (unfold Buffer.len; destruct bb; [congruence | simpl; lia]).
  simpl. destruct (Z.eqb_spec idx (-1)); [lia|].
  destruct occs as [|q later]; simpl in Hocc.
  - rewrite Hocc. simpl. now rewrite app_nil_r.
  - destruct Hocc as (Hq & Hne & Hlater).
    rewrite Hq. destruct (Z.eqb_spec q (-1)); [contradiction|].
    pose proof (indexOf_bounds body bb (idx + Buffer.len bb) Hbb) as B.
    rewrite Hq in B. specialize (B ltac:(lia) Hne) as [B1 B2].
    rewrite (IH body bb q _ later Hbb) by (auto; lia).
    rewrite slice_bytesBetween by lia.
    now rewrite <- app_assoc.
Qed.

(** The collection of raw segments, from the first occurrence on. *)
Lemma rawParts_segments body boundary occurrences :
  occurrencesFrom body (UploadManual.boundaryBuffer boundary) 0 occurrences ->
  UploadManual.rawParts body (UploadManual.boundaryBuffer boundary)
  = Some (delimitedSegments body (UploadManual.boundaryBuffer boundary)
            occurrences).
Proof.
  intro Hocc.
  pose proof (boundaryBuffer_nonempty boundary) as Hbb.
  unfold UploadManual.rawParts.
  destruct occurrences as [|p later]; simpl in Hocc.
  - rewrite Hocc. reflexivity.
  - destruct Hocc as (Hp & Hne & Hlater). rewrite Hp.
    pose proof (indexOf_bounds body _ 0 Hbb (Z.le_refl 0)) as B.
    rewrite Hp in B. specialize (B Hne) as [B1 B2].
    assert (0 < Buffer.len (UploadManual.boundaryBuffer boundary))%Z
      by (rewrite boundaryBuffer_cons; unfold Buffer.len; simpl length; lia).
    apply (collectParts_segments (S (length body)) body _ p [] later Hbb);
      unfold Buffer.len in *; auto; lia.
Qed.

(** Every buffer has its list of occurrences: the scan ends. *)
Lemma occurrences_exist body bb :
  bb <> [] ->
  forall n from, (0 <= from)%Z ->
    Z.to_nat (Buffer.len body + 1 - from) <= n ->
    exists occurrences, occurrencesFrom body bb from occurrences.
Proof.
  intro Hbb.
  assert (Hlen : (0 < Buffer.len bb)%Z)
    by (unfold Buffer.len; destruct bb; [congruence | simpl; lia]).
  induction n as [|n IH]; intros from H0 Hn;
    destruct (Z.eq_dec (Buffer.indexOf body bb from) (-1)) as [E|E];
    try (exists []; exact E);
    destruct (indexOf_bounds body bb from Hbb H0 E) as [B1 B2].
  - lia.
  - destruct (IH (Buffer.indexOf body bb from + Buffer.len bb)%Z) as [later L];
      try lia.
    exists (Buffer.indexOf body bb from :: later). simpl. auto.
Qed.

(** The parser returns for every buffer and every boundary token. *)
Lemma parseMultipart_total toString body boundary :
  exists result,
    UploadManual.parseMultipart toString body boundary = Some result.
Proof.
  destruct (occurrences_exist body (UploadManual.boundaryBuffer boundary)
              (boundaryBuffer_nonempty boundary)
              (Z.to_nat (Buffer.len body + 1 - 0)) 0%Z (Z.le_refl 0) (le_n _))
    as [occs Hocc].
  unfold UploadManual.parseMultipart.
  rewrite (rawParts_segments body boundary occs Hocc).
  eexists. reflexivity.
Qed.

(** ** The multipart parser: the body of a part *)

Lemma sliceFrom_skipn buf start :
  (0 <= start)%Z -> (start <= Buffer.len buf)%Z ->
  Buffer.sliceFrom buf start = skipn (Z.to_nat start) buf.
Proof.
  intros H0 H1. unfold Buffer.sliceFrom.
  rewrite slice_bytesBetween by lia.
  unfold bytesBetween. apply firstn_all2.
  rewrite length_skipn. unfold Buffer.len. lia.
Qed.

Lemma slice_without_last_two content :
  Buffer.slice content 0 (Buffer.len content - 2)
  = firstn (length content - 2) content.
Proof.
  unfold Buffer.slice, Buffer.clamp, Buffer.len.
  change (0 <? 0)%Z with false. cbv iota.
  replace (Z.min 0 (Z.of_nat (length content))) with 0%Z by lia.
  change (skipn (Z.to_nat 0) content) with content.
  destruct (Z.ltb_spec (Z.of_nat (length content) - 2) 0).
  - replace (length content - 2) with 0 by lia.
    rewrite Z.max_l by lia. reflexivity.
  - rewrite Z.min_l by lia. f_equal. lia.
Qed.

Lemma cleanContent_firstn part headerEnd :
  headerEnd = Buffer.indexOf part UploadManual.CRLFCRLF 0 ->
  headerEnd <> (-1)%Z ->
  UploadManual.cleanContent part headerEnd
  = firstn (length (skipn (Z.to_nat (headerEnd + 4)) part) - 2)
      (skipn (Z.to_nat (headerEnd + 4)) part).
Proof.
  intros E Hne. unfold UploadManual.cleanContent.
  assert (B : (0 <= headerEnd)%Z /\ (headerEnd + 4 <= Buffer.len part)%Z).
  { subst headerEnd.
    destruct (indexOf_bounds part UploadManual.CRLFCRLF 0) as [B1 B2];
      [discriminate | lia | exact Hne |].
    change (Buffer.len UploadManual.CRLFCRLF) with 4%Z in B2. lia. }
  rewrite sliceFrom_skipn by lia.
  apply slice_without_last_two.
Qed.

(** C10: in a segment with a blank line, the bytes kept as the body of
    the part are the bytes after the blank line without their last two,
    whatever these two are: nothing is kept of fewer than two bytes,
    and a body [kept ++ [a; b]] is cut to [kept] for any [a] and [b];
    these are the bytes stored as the data of a file part. *)
Theorem cleanContent_drops_last_two_bytes (part : Buffer.t) (headerEnd : Z) :
  headerEnd = Buffer.indexOf part UploadManual.CRLFCRLF 0 ->
  headerEnd <> (-1)%Z ->
  let content := skipn (Z.to_nat (headerEnd + 4)) part in
  UploadManual.cleanContent part headerEnd
  = firstn (length content - 2) content
  /\ (length content < 2 -> UploadManual.cleanContent part headerEnd = [])
  /\ (forall kept a b,
        content = kept ++ [a; b] ->
        UploadManual.cleanContent part headerEnd = kept)
  /\ (forall toString result filename,
        Regex.filenameMatch (toString (Buffer.slice part 0 headerEnd))
        = Some filename ->
        exists contentType,
          UploadManual.files (UploadManual.decodePart toString result part)
          = UploadManual.files result ++
            [{| file_filename := filename;
                file_contentType := contentType;
                file_data := firstn (length content - 2) content |}]).
Proof.
  intros E Hne content.
  pose proof (cleanContent_firstn part headerEnd E Hne) as C.
  fold content in C.
  split; [exact C|]. split; [|split].
  - intro Hlt. rewrite C. replace (length content - 2) with 0 by lia.
    reflexivity.
  - intros kept a b Hc. rewrite C, Hc, length_app. simpl length.
    replace (length kept + 2 - 2) with (length kept + 0) by lia.
    rewrite firstn_app_2. simpl. apply app_nil_r.
  - intros toString result fname Hm.
    unfold UploadManual.decodePart. rewrite <- E.
    destruct (Z.eqb_spec headerEnd (-1)); [contradiction|].
    rewrite Hm, C. eexists. reflexivity.
Qed.

Lemma cleanContent_drops_last_two_bytes_witness :
  UploadManual.cleanContent segmentWithoutCRLF
    (Buffer.indexOf segmentWithoutCRLF UploadManual.CRLFCRLF 0)
  = bytesOf "PNGDA".
Proof.
  exact (proj1 (proj2 (proj2 (cleanContent_drops_last_two_bytes
                                segmentWithoutCRLF
                                (Buffer.indexOf segmentWithoutCRLF
                                   UploadManual.CRLFCRLF 0)
                                eq_refl ltac:(vm_compute; discriminate))))
           (bytesOf "PNGDA") "T"%byte "A"%byte eq_refl).
Defined.

(** ** The bucket enumerator *)

(** The loop over a run of continuing pages closed by a final one. *)
Lemma listAll_pages bucket pages : forall last later allObjects token log,
  Forall (fun r => JS.truthy (Gallery.nextToken r) = true) pages ->
  JS.truthy (Gallery.nextToken last) = false ->
  Gallery.listAll bucket (map Fulfilled (pages ++ [last]) ++ later)
    allObjects token log
  = Some (Fulfilled (allObjects ++ flat_map Gallery.objectsOf (pages ++ [last])),
          log ++ map (Gallery.ListObjectsV2 bucket 1000)
                   (token :: map Gallery.nextToken pages)).
Proof.
  induction pages as [|r pages IH]; intros last later allObjects token log HF HL.
  - simpl. rewrite HL. now rewrite app_nil_r.
  - inversion HF as [|? ? Hr HF']; subst.
    cbn [app map Gallery.listAll]. rewrite Hr.
    rewrite IH by assumption.
    cbn [flat_map map]. now rewrite <- !app_assoc.
Qed.

(** A page that names a continuation marker is a continuing page. *)
Lemma nextToken_continuing r :
  Gallery.IsTruncated r = true ->
  JS.truthy (Gallery.NextContinuationToken r) = true ->
  Gallery.nextToken r = Gallery.NextContinuationToken r
  /\ JS.truthy (Gallery.nextToken r) = true.
Proof.
  intros Ht Hn. unfold Gallery.nextToken. rewrite Ht. auto.
Qed.

Lemma nextToken_final r :
  Gallery.IsTruncated r = false
  \/ JS.truthy (Gallery.NextContinuationToken r) = false ->
  JS.truthy (Gallery.nextToken r) = false.
Proof.
  unfold Gallery.nextToken. intros [H|H].
  - now rewrite H.
  - destruct (Gallery.IsTruncated r); [exact H | reflexivity].
Qed.

(** C4: when the service answers the successive list requests with
    pages that are truncated and name a continuation marker, and then
    with a page that is not truncated or names none, the enumerator
    asks once per page, passing no marker first and then each page's
    marker to the next request, asks no more after the final page, and
    returns the [Contents] of all pages, concatenated in order; so the
    keys it returns are the keys of all pages, in order. *)
Theorem listAll_concatenates_all_pages
    (bucket : JS.str) (pages : list Gallery.listResponse)
    (last : Gallery.listResponse) (later : list (outcome Gallery.listResponse)) :
  Forall (fun r =>
            Gallery.IsTruncated r = true
            /\ JS.truthy (Gallery.NextContinuationToken r) = true) pages ->
  Gallery.IsTruncated last = false
  \/ JS.truthy (Gallery.NextContinuationToken last) = false ->
  exists allObjects,
    Gallery.listAll bucket (map Fulfilled (pages ++ [last]) ++ later) [] None []
    = Some (Fulfilled allObjects,
            map (Gallery.ListObjectsV2 bucket 1000)
              (None :: map Gallery.NextContinuationToken pages))
    /\ allObjects
       = concat (map (fun r =>
                        match Gallery.Contents r with
                        | Some objects => objects
                        | None => []
                        end) (pages ++ [last]))
    /\ map Gallery.Key allObjects
       = concat (map (fun r =>
                        match Gallery.Contents r with
                        | Some objects => map Gallery.Key objects
                        | None => []
                        end) (pages ++ [last])).
Proof.
  intros HF HL.
  assert (HF' : Forall (fun r => JS.truthy (Gallery.nextToken r) = true) pages).
  { eapply Forall_impl; [|exact HF]. intros r [Ht Hn].
    now apply nextToken_continuing. }
  assert (HT : map Gallery.nextToken pages
               = map Gallery.NextContinuationToken pages).
  { apply map_ext_Forall. eapply Forall_impl; [|exact HF]. intros r [Ht Hn].
    now apply nextToken_continuing. }
  eexists. split; [|split].
  - rewrite (listAll_pages bucket pages last later [] None [] HF'
               (nextToken_final last HL)), HT.
    reflexivity.
  - simpl. rewrite flat_map_concat_map. reflexivity.
  - simpl. rewrite flat_map_concat_map, concat_map, map_map.
    f_equal. apply map_ext. intro r. unfold Gallery.objectsOf.
    now destruct (Gallery.Contents r).
Qed.

Lemma listAll_concatenates_all_pages_witness :
  exists allObjects,
    Gallery.listAll (JS.lit "family-archive-uploads")
      [Fulfilled firstPage; Fulfilled secondPage] [] None []
    = Some (Fulfilled allObjects,
            [Gallery.ListObjectsV2 (JS.lit "family-archive-uploads") 1000 None;
             Gallery.ListObjectsV2 (JS.lit "family-archive-uploads") 1000
               (Some (JS.lit "page-2"))])
    /\ map Gallery.Key allObjects
       = [JS.lit "Bob_UPLOADS/a.JPG"; JS.lit "_hidden/b.png";
          JS.lit "Bob_UPLOADS/manifest.json";
          JS.lit "Bob_UPLOADS/manifest_photo.jpg";
          JS.lit "Ann_Lee_UPLOADS/clip.mov"; JS.lit "Bob_UPLOADS/notes.txt"].
Proof.
  destruct (listAll_concatenates_all_pages (JS.lit "family-archive-uploads")
              [firstPage] secondPage []
              (Forall_cons firstPage (conj eq_refl eq_refl) (Forall_nil _))
              (or_introl eq_refl))
    as (allObjects & E & _ & K).
  exists allObjects. split; [exact E|].
  rewrite K. reflexivity.
Defined.

(** ** The gallery sampler *)

Lemma setAt_length {A} i (x : A) array :
  length (Gallery.setAt i x array) = length array.
Proof.
  revert i. induction array as [|a array IH]; intros [|i]; simpl; auto.
Qed.

Lemma setAt_In {A} i (x y : A) array :
  In y (Gallery.setAt i x array) -> y = x \/ In y array.
Proof.
  revert i. induction array as [|a array IH]; intros [|i]; simpl; auto.
  - intros [<-|H]; auto.
  - intros [<-|H]; auto. apply IH in H as [H|H]; auto.
Qed.

Lemma swap_length {A} (array : list A) i j :
  length (Gallery.swap array i j) = length array.
Proof.
  unfold Gallery.swap.
  destruct (nth_error array i), (nth_error array j); auto.
  now rewrite !setAt_length.
Qed.

Lemma swap_In {A} (array : list A) i j y :
  In y (Gallery.swap array i j) -> In y array.
Proof.
  unfold Gallery.swap.
  destruct (nth_error array i) as [ai|] eqn:Ei; auto.
  destruct (nth_error array j) as [aj|] eqn:Ej; auto.
  intro H. apply setAt_In in H as [->|H]; [eapply nth_error_In; eauto|].
  apply setAt_In in H as [->|H]; [eapply nth_error_In; eauto | exact H].
Qed.

Lemma shuffleFrom_length {A} r i : forall k (array : list A),
  length (Gallery.shuffleFrom r k i array) = length array.
Proof.
  induction i as [|i IH]; intros k array; simpl; auto.
  now rewrite IH, swap_length.
Qed.

Lemma shuffleFrom_In {A} r i : forall k (array : list A) y,
  In y (Gallery.shuffleFrom r k i array) -> In y array.
Proof.
  induction i as [|i IH]; intros k array y; simpl; auto.
  intro H. apply IH in H. now apply swap_In in H.
Qed.

Lemma In_firstn {A} n (l : list A) x : In x (firstn n l) -> In x l.
Proof.
  intro H. rewrite <- (firstn_skipn n l). apply in_or_app. now left.
Qed.

Lemma Forall2_In_r {A B} (R : A -> B -> Prop) l l' :
  Forall2 R l l' -> forall b, In b l' -> exists a, In a l /\ R a b.
Proof.
  induction 1 as [|a b l l' Hab _ IH]; intros y; simpl; [tauto|].
  intros [<-|H]; [exists a; auto|].
  destruct (IH y H) as (x & Hx & Rx). exists x; auto.
Qed.

Lemma selection_length toLowerCase r allObjects :
  length (Gallery.selection toLowerCase r allObjects)
  = Nat.min 50 (length (Gallery.mediaFiles toLowerCase allObjects)).
Proof.
  unfold Gallery.selection, Gallery.shuffleArray.
  now rewrite length_firstn, shuffleFrom_length.
Qed.

Lemma selection_In toLowerCase r allObjects obj :
  In obj (Gallery.selection toLowerCase r allObjects) ->
  In obj (Gallery.mediaFiles toLowerCase allObjects).
Proof.
  unfold Gallery.selection, Gallery.shuffleArray. intro H.
  apply In_firstn in H. now apply shuffleFrom_In in H.
Qed.

(** The filter keeps exactly the objects whose lowercased key may be
    shown. *)
Lemma isMedia_shownKey toLowerCase obj :
  Gallery.isMedia toLowerCase obj = true
  <-> shownKey (toLowerCase (Gallery.Key obj)).
Proof.
  unfold Gallery.isMedia, shownKey.
  change Gallery.mediaExtensions
    with (map JS.lit [".jpg"; ".jpeg"; ".png"; ".gif"; ".webp"; ".heic";
                      ".heif"; ".mp4"; ".mov"; ".webm"]%string).
  set (key := toLowerCase (Gallery.Key obj)).
  destruct (JS.startsWith key (JS.lit "_")) eqn:Es;
    destruct (JS.includes key (JS.lit "manifest")) eqn:Em; cbn [orb];
    try (split; [discriminate | intros (_ & ? & ?); discriminate]).
  rewrite existsb_exists. split.
  - intros (ext & Hin & He). repeat split; auto. now exists ext.
  - intros ((ext & Hin & He) & _). now exists ext.
Qed.

(** When every item is fulfilled, the values are those of the items,
    one for one. *)
Lemma all_map_fulfilled {A B} (f : A -> outcome B) items : forall values,
  Gallery.all (map f items) = Fulfilled values ->
  Forall2 (fun item value => f item = Fulfilled value) items values.
Proof.
  induction items as [|a items IH]; intros values; simpl.
  - intro H. injection H as <-. constructor.
  - destruct (f a) as [b|e] eqn:Ea; [|discriminate].
    destruct (Gallery.all (map f items)) as [l|e] eqn:El; [|discriminate].
    intro H. injection H as <-. constructor; auto.
Qed.

(** The photos of a 200 answer are the projections of the selection. *)
Lemma handler_photos toLowerCase w httpMethod resp log photos total :
  Gallery.handler toLowerCase w httpMethod = Some (resp, log) ->
  responseBody resp = GalleryBody photos total ->
  total = length photos /\
  exists allObjects,
    Forall2 (fun obj p => Gallery.Key obj = ph_key p)
      (Gallery.selection toLowerCase (Gallery.random w) allObjects) photos.
Proof.
  unfold Gallery.handler.
  destruct (JS.eqb httpMethod (JS.lit "OPTIONS"));
    [intros H; injection H as <- <-; discriminate|].
  destruct (negb (JS.eqb httpMethod (JS.lit "GET")));
    [intros H; injection H as <- <-; discriminate|].
  destruct (credentialsMissing (Gallery.env w));
    [intros H; injection H as <- <-; discriminate|].
  destruct (Gallery.listAll _ _ _ _ _) as [[[allObjects|e] log0]|];
    [| intros H; injection H as <- <-; discriminate | discriminate].
  destruct (Gallery.all _) as [ps|e] eqn:Eall;
    [| intros H; injection H as <- <-; discriminate].
  intros H Hb. injection H as <- <-. simpl in Hb. injection Hb as <- <-.
  split; [reflexivity|]. exists allObjects.
  apply all_map_fulfilled in Eall.
  induction Eall as [|obj p objs ps' Hp _ IH]; constructor; auto.
  unfold Gallery.signOne in Hp.
  destruct (Gallery.getSignedUrl _ _ _ _); [|discriminate].
  injection Hp as <-. reflexivity.
Qed.

(** C6: the filter keeps an object exactly when its lowercased key
    ends with one of the ten media extensions, does not start with an
    underscore and does not contain [manifest]; every photo of a
    gallery answer has such a key, so no excluded key is shown. *)
Theorem gallery_shows_only_media_keys (toLowerCase : JS.str -> JS.str) :
  (forall allObjects obj,
     In obj (Gallery.mediaFiles toLowerCase allObjects)
     <-> In obj allObjects /\ shownKey (toLowerCase (Gallery.Key obj)))
  /\ (forall w httpMethod resp log photos total,
        Gallery.handler toLowerCase w httpMethod = Some (resp, log) ->
        responseBody resp = GalleryBody photos total ->
        forall p, In p photos -> shownKey (toLowerCase (ph_key p))).
Proof.
  split.
  - intros allObjects obj. unfold Gallery.mediaFiles.
    now rewrite filter_In, isMedia_shownKey.
  - intros w httpMethod resp log photos total Hrun Hbody p Hp.
    destruct (handler_photos _ _ _ _ _ _ _ Hrun Hbody) as (_ & allObjects & F).
    destruct (Forall2_In_r _ _ _ F p Hp) as (obj & Hobj & Hkey).
    rewrite <- Hkey. apply isMedia_shownKey.
    apply selection_In in Hobj. unfold Gallery.mediaFiles in Hobj.
    now apply filter_In in Hobj.
Qed.

Lemma gallery_shows_only_media_keys_witness :
  exists resp log photos total,
    Gallery.handler asciiLower twoPageWorld (JS.lit "GET") = Some (resp, log)
    /\ responseBody resp = GalleryBody photos total
    /\ map ph_key photos
       = [JS.lit "Ann_Lee_UPLOADS/clip.mov"; JS.lit "Bob_UPLOADS/a.JPG"]
    /\ forall p, In p photos -> shownKey (asciiLower (ph_key p)).
Proof.
  eexists _, _, _, _.
  split; [vm_compute; reflexivity|].
  split; [reflexivity|].
  split; [reflexivity|].
  eapply (proj2 (gallery_shows_only_media_keys asciiLower)
            twoPageWorld (JS.lit "GET"));
    [vm_compute; reflexivity | reflexivity].
Defined.

Lemma all_map_total {A B} (f : A -> outcome B) items :
  (forall a, exists b, f a = Fulfilled b) ->
  exists values,
    Gallery.all (map f items) = Fulfilled values
    /\ length values = length items.
Proof.
  intro Hf. induction items as [|a items (values & E & L)]; simpl.
  - exists []. auto.
  - destruct (Hf a) as [b ->]. rewrite E.
    exists (b :: values). simpl. auto.
Qed.

(** When the listing completes and the signer signs, the handler
    answers 200 with one photo per selected object. *)
Lemma handler_answers toLowerCase w allObjects log :
  credentialsMissing (Gallery.env w) = false ->
  Gallery.listAll (R2_BUCKET_NAME (Gallery.env w)) (Gallery.listing w) [] None []
  = Some (Fulfilled allObjects, log) ->
  (forall key, exists url,
     Gallery.getSignedUrl w (R2_BUCKET_NAME (Gallery.env w)) key 3600%Z
     = Fulfilled url) ->
  exists photos log',
    Gallery.handler toLowerCase w (JS.lit "GET")
    = Some ({| statusCode := 200;
               responseBody := GalleryBody photos (length photos) |}, log')
    /\ length photos
       = Nat.min 50 (length (Gallery.mediaFiles toLowerCase allObjects)).
Proof.
  intros Hc Hl Hs. unfold Gallery.handler.
  change (JS.eqb (JS.lit "GET") (JS.lit "OPTIONS")) with false.
  change (JS.eqb (JS.lit "GET") (JS.lit "GET")) with true.
  cbn [negb]. rewrite Hc, Hl.
  destruct (all_map_total (Gallery.signOne toLowerCase w)
              (Gallery.selection toLowerCase (Gallery.random w) allObjects))
    as (photos & E & L).
  { intro obj. unfold Gallery.signOne.
    destruct (Hs (Gallery.Key obj)) as [url ->]. eexists. reflexivity. }
  rewrite E. exists photos. eexists. split; [reflexivity|].
  now rewrite L, selection_length.
Qed.

(** C7: the selection signed for display has the length of the
    filtered listing or 50, whichever is less; every gallery answer has
    at most 50 photos, and its [total] is their number; and when the
    listing completes and the signer signs, there is such an answer. *)
Theorem gallery_returns_at_most_50 (toLowerCase : JS.str -> JS.str) :
  (forall r allObjects,
     length (Gallery.selection toLowerCase r allObjects)
     = Nat.min 50 (length (Gallery.mediaFiles toLowerCase allObjects))
     /\ length (Gallery.selection toLowerCase r allObjects) <= 50)
  /\ (forall w httpMethod resp log photos total,
        Gallery.handler toLowerCase w httpMethod = Some (resp, log) ->
        responseBody resp = GalleryBody photos total ->
        length photos <= 50 /\ total = length photos)
  /\ (forall w allObjects log,
        credentialsMissing (Gallery.env w) = false ->
        Gallery.listAll (R2_BUCKET_NAME (Gallery.env w)) (Gallery.listing w)
          [] None []
        = Some (Fulfilled allObjects, log) ->
        (forall key, exists url,
           Gallery.getSignedUrl w (R2_BUCKET_NAME (Gallery.env w)) key 3600%Z
           = Fulfilled url) ->
        exists photos log',
          Gallery.handler toLowerCase w (JS.lit "GET")
          = Some ({| statusCode := 200;
                     responseBody := GalleryBody photos (length photos) |}, log')
          /\ length photos <= 50).
Proof.
  split; [|split].
  - intros r allObjects. rewrite selection_length. split; lia.
  - intros w httpMethod resp log photos total Hrun Hbody.
    destruct (handler_photos _ _ _ _ _ _ _ Hrun Hbody) as (Ht & allObjects & F).
    split; [|exact Ht].
    apply Forall2_length in F. rewrite <- F, selection_length. lia.
  - intros w allObjects log Hc Hl Hs.
    destruct (handler_answers toLowerCase w allObjects log Hc Hl Hs)
      as (photos & log' & E & L).
    exists photos, log'. split; [exact E | lia].
Qed.

Lemma gallery_returns_at_most_50_witness :
  length (Gallery.mediaFiles asciiLower sixtyPhotos) = 60
  /\ exists resp log photos total,
       Gallery.handler asciiLower sixtyPhotoWorld (JS.lit "GET")
       = Some (resp, log)
       /\ responseBody resp = GalleryBody photos total
       /\ length photos <= 50 /\ total = length photos.
Proof.
  split; [reflexivity|].
  eexists _, _, _, _.
  split; [vm_compute; reflexivity|].
  split; [reflexivity|].
  eapply (proj1 (proj2 (gallery_returns_at_most_50 asciiLower))
            sixtyPhotoWorld (JS.lit "GET"));
    [vm_compute; reflexivity | reflexivity].
Defined.

(* ================================================================== *)
(** * Further properties of the handlers *)

(** ** Presigned upload URLs *)

Lemma JS_eqb_eq a : forall b, JS.eqb a b = true <-> a = b.
Proof.
  induction a as [|x a IH]; intros [|y b]; simpl; split; intro H;
    try discriminate; try reflexivity.
  - apply andb_prop in H as [H1 H2]. apply N.eqb_eq in H1.
    apply IH in H2. now subst.
  - injection H as -> ->. rewrite N.eqb_refl. now apply IH.
Qed.

Lemma JS_eqb_false_neq a b : JS.eqb a b = false -> a <> b.
Proof.
  intros H E. apply JS_eqb_eq in E. congruence.
Qed.

(** X1: the presign handler calls the storage service only for a
    request it has validated: a POST, with the credentials configured,
    a body that parsed and a file name that is not empty. *)
Theorem presign_calls_only_after_validation w ev resp log :
  Presign.handler w ev = (resp, log) ->
  log <> [] ->
  httpMethod ev = JS.lit "POST"
  /\ credentialsMissing (env w) = false
  /\ exists req,
       parsedBody ev = Fulfilled req /\ JS.truthy (filename req) = true.
Proof.
  unfold Presign.handler.
  destruct (JS.eqb (httpMethod ev) (JS.lit "OPTIONS"));
    [intros H; injection H as <- <-; congruence|].
  destruct (JS.eqb (httpMethod ev) (JS.lit "POST")) eqn:Em; cbn [negb];
    [|intros H; injection H as <- <-; congruence].
  apply JS_eqb_eq in Em.
  destruct (credentialsMissing (env w));
    [intros H; injection H as <- <-; congruence|].
  destruct (parsedBody ev) as [req|e];
    [|intros H; injection H as <- <-; congruence].
  destruct (filename req) as [[|c f]|] eqn:Ef;
    try (intros H; injection H as <- <-; congruence).
  intros _ _. repeat split; auto. exists req. now rewrite Ef.
Qed.

Lemma presign_calls_only_after_validation_witness :
  httpMethod requestWithoutHash = JS.lit "POST"
  /\ credentialsMissing (env worldWhereAllExist) = false
  /\ exists req,
       parsedBody requestWithoutHash = Fulfilled req
       /\ JS.truthy (filename req) = true.
Proof.
  refine (presign_calls_only_after_validation worldWhereAllExist
            requestWithoutHash _ _ eq_refl _).
  vm_compute. discriminate.
Defined.

(** The answers [signUpload] can give, with the calls it adds. *)
Lemma signUpload_cases w req key log :
  let command :=
    {| put_Bucket := R2_BUCKET_NAME (env w); put_Key := key;
       put_ContentType :=
         JS.orElse (contentType req) (JS.lit "application/octet-stream") |} in
  (exists url,
     getSignedUrl w command 3600%Z = Fulfilled url
     /\ signUpload w req key log
        = ({| statusCode := 200; responseBody := UploadUrlBody url key 3600 |},
           log ++ [GetSignedUrl command 3600]))
  \/ (exists e,
        getSignedUrl w command 3600%Z = Threw e
        /\ signUpload w req key log
           = ({| statusCode := 500;
                 responseBody :=
                   ErrorBody (JS.lit "Failed to generate upload URL: "
                              ++ message e) |},
              log ++ [GetSignedUrl command 3600])).
Proof.
  intro command. unfold signUpload. fold command.
  destruct (getSignedUrl w command 3600%Z) as [url|e]; [left|right];
    eexists; split; reflexivity.
Qed.

(** X2: an answer that carries an upload URL is a 200 valid for 3600
    seconds; the URL is the one the signer gave for a write to the very
    key of the answer, in the configured bucket, with the content type
    of the request or [application/octet-stream]; that signature is the
    last call made, preceded at most by the probe of the same key. *)
Theorem presign_url_is_signed_for_answered_key w ev resp log url key expiresIn :
  Presign.handler w ev = (resp, log) ->
  responseBody resp = UploadUrlBody url key expiresIn ->
  statusCode resp = 200%Z /\ expiresIn = 3600%Z
  /\ exists req,
       parsedBody ev = Fulfilled req
       /\ let command :=
            {| put_Bucket := R2_BUCKET_NAME (env w); put_Key := key;
               put_ContentType :=
                 JS.orElse (contentType req)
                   (JS.lit "application/octet-stream") |} in
          getSignedUrl w command 3600%Z = Fulfilled url
          /\ (log = [GetSignedUrl command 3600]
              \/ log = [HeadObject (R2_BUCKET_NAME (env w)) key;
                        GetSignedUrl command 3600]).
Proof.
  unfold Presign.handler.
  destruct (JS.eqb (httpMethod ev) (JS.lit "OPTIONS"));
    [intros H; injection H as <- <-; discriminate|].
  destruct (negb (JS.eqb (httpMethod ev) (JS.lit "POST")));
    [intros H; injection H as <- <-; discriminate|].
  destruct (credentialsMissing (env w));
    [intros H; injection H as <- <-; discriminate|].
  destruct (parsedBody ev) as [req|e];
    [|intros H; injection H as <- <-; discriminate].
  destruct (filename req) as [[|c f]|];
    try (intros H; injection H as <- <-; discriminate).
  set (k := Presign.resolveKey (toISOString w) (c :: f) (fileHash req)).
  assert (S : forall l,
             signUpload w req k l = (resp, log) ->
             responseBody resp = UploadUrlBody url key expiresIn ->
             statusCode resp = 200%Z /\ expiresIn = 3600%Z /\ key = k
             /\ getSignedUrl w
                  {| put_Bucket := R2_BUCKET_NAME (env w); put_Key := k;
                     put_ContentType :=
                       JS.orElse (contentType req)
                         (JS.lit "application/octet-stream") |} 3600%Z
                = Fulfilled url
             /\ log = l ++ [GetSignedUrl
                              {| put_Bucket := R2_BUCKET_NAME (env w);
                                 put_Key := k;
                                 put_ContentType :=
                                   JS.orElse (contentType req)
                                     (JS.lit "application/octet-stream") |}
                              3600]).
  { intros l Hs Hb.
    destruct (signUpload_cases w req k l) as [(u & Hu & E)|(e & He & E)];
      rewrite E in Hs; injection Hs as <- <-; simpl in Hb;
      [|discriminate].
    injection Hb as <- <- <-. auto. }
  destruct (JS.truthy (fileHash req)).
  - destruct (headObject w (R2_BUCKET_NAME (env w)) k);
      [intros H; injection H as <- <-; discriminate|].
    intros Hs Hb. destruct (S _ Hs Hb) as (H1 & H2 & -> & H3 & ->).
    split; [exact H1|]. split; [exact H2|]. exists req.
    split; [reflexivity|]. cbv zeta. split; [exact H3|]. right. reflexivity.
  - intros Hs Hb. destruct (S _ Hs Hb) as (H1 & H2 & -> & H3 & ->).
    split; [exact H1|]. split; [exact H2|]. exists req.
    split; [reflexivity|]. cbv zeta. split; [exact H3|]. left. reflexivity.
Qed.

Lemma presign_url_is_signed_for_answered_key_witness :
  exists resp log url key,
    Presign.handler worldWhereAllExist requestWithoutHash = (resp, log)
    /\ responseBody resp = UploadUrlBody url key 3600
    /\ key = JS.lit "Memorial_Guest_UPLOADS/2024-01-15T10-30-45_My_Photo__1.JPG"
    /\ statusCode resp = 200%Z
    /\ log = [GetSignedUrl
                {| put_Bucket := JS.lit "family-archive-uploads";
                   put_Key := key;
                   put_ContentType := JS.lit "application/octet-stream" |}
                3600].
Proof.
  eexists _, _, _, _.
  split; [vm_compute; reflexivity|].
  split; [reflexivity|]. split; [reflexivity|].
  split.
  - eapply (presign_url_is_signed_for_answered_key worldWhereAllExist
              requestWithoutHash); [vm_compute; reflexivity | reflexivity].
  - reflexivity.
Defined.

(** X3: for a request without a truthy hash, the handler with hash
    keys answers and calls exactly as the earlier handler with
    timestamp keys does. *)
Theorem presign_without_hash_is_timestamp_version w ev :
  (forall req, parsedBody ev = Fulfilled req -> JS.truthy (fileHash req) = false) ->
  Presign.handler w ev = PresignByTime.handler w ev.
Proof.
  intro H. unfold Presign.handler, PresignByTime.handler.
  destruct (JS.eqb (httpMethod ev) (JS.lit "OPTIONS")); [reflexivity|].
  destruct (negb (JS.eqb (httpMethod ev) (JS.lit "POST"))); [reflexivity|].
  destruct (credentialsMissing (env w)); [reflexivity|].
  destruct (parsedBody ev) as [req|e]; [|reflexivity].
  specialize (H req eq_refl).
  destruct (filename req) as [[|c f]|]; try reflexivity.
  rewrite H. unfold Presign.resolveKey.
  destruct (fileHash req) as [[|d h]|]; try reflexivity. discriminate H.
Qed.

Lemma presign_without_hash_is_timestamp_version_witness :
  Presign.handler worldWhereAllExist requestWithoutHash
  = PresignByTime.handler worldWhereAllExist requestWithoutHash.
Proof.
  apply (presign_without_hash_is_timestamp_version worldWhereAllExist
           requestWithoutHash).
  intros req H. injection H as <-. reflexivity.
Defined.

Lemma fits_firstn template : forall s n,
  fits template s = true -> fits (firstn n template) (firstn n s) = true.
Proof.
  induction template as [|t template IH]; intros [|c s] [|n] H; simpl in *;
    try reflexivity; try discriminate;
    try (destruct t; discriminate).
  destruct t as [l|]; apply andb_prop in H as [H1 H2];
    rewrite H1, (IH s n H2); reflexivity.
Qed.

(** On strings that fit one template, replacing colons and periods by
    hyphens loses nothing. *)
Lemma fits_replace_injective template : forall a b,
  fits template a = true -> fits template b = true ->
  JS.replaceAll (fun c => N.eqb c 58 || N.eqb c 46) 45%N a
  = JS.replaceAll (fun c => N.eqb c 58 || N.eqb c 46) 45%N b ->
  a = b.
Proof.
  assert (D : forall c, JS.isDigit c = true ->
                (if N.eqb c 58 || N.eqb c 46 then 45%N else c) = c).
  { intros c Hc.
    destruct (N.eqb_spec c 58) as [->|_]; [discriminate Hc|].
    destruct (N.eqb_spec c 46) as [->|_]; [discriminate Hc|]. reflexivity. }
  unfold JS.replaceAll.
  induction template as [|t template IH]; intros [|x a] [|y b] Ha Hb E;
    cbn [fits] in Ha, Hb; try reflexivity; try discriminate;
    try (destruct t; discriminate).
  cbn [map] in E. injection E as E0 E. cbv beta in E0.
  destruct t as [l|]; apply andb_prop in Ha as [Ha1 Ha2];
    apply andb_prop in Hb as [Hb1 Hb2]; f_equal; try (eapply IH; eassumption).
  - apply N.eqb_eq in Ha1, Hb1. congruence.
  - rewrite <- (D x Ha1), <- (D y Hb1). exact E0.
Qed.

Lemma timestampOf_firstn iso :
  timestampOf iso
  = JS.replaceAll (fun c => N.eqb c 58 || N.eqb c 46) 45%N (firstn 19 iso).
Proof. unfold timestampOf, JS.replaceAll. apply firstn_map. Qed.

(** X4: without a truthy hash (absent or empty), two calls for one
    file name whose clocks render as [YYYY-MM-DDTHH:mm:ss.sssZ] resolve
    to the same key exactly when they fall in the same second, that is,
    when the two renderings agree on their first nineteen code units. *)
Theorem timestamp_key_same_iff_same_second
    (filename iso1 iso2 : JS.str) (fileHash : option JS.str) :
  JS.truthy fileHash = false ->
  isoInstant iso1 = true -> isoInstant iso2 = true ->
  (Presign.resolveKey iso1 filename fileHash
   = Presign.resolveKey iso2 filename fileHash
   <-> sameSecond iso1 iso2).
Proof.
  intros Hh H1 H2. unfold sameSecond.
  assert (K : forall iso,
              Presign.resolveKey iso filename fileHash
              = Presign.objectKey (timestampOf iso) (safeFilename filename)).
  { intro iso. unfold Presign.resolveKey.
    destruct fileHash as [[|c h]|]; try reflexivity. discriminate Hh. }
  rewrite !K. unfold Presign.objectKey. split.
  - intro E. apply app_inv_head in E. apply app_inv_tail in E.
    rewrite !timestampOf_firstn in E.
    apply (fits_replace_injective (firstn 19 isoTemplate));
      [apply fits_firstn, H1 | apply fits_firstn, H2 | exact E].
  - intro E. now rewrite !timestampOf_firstn, E.
Qed.

Lemma timestamp_key_same_iff_same_second_witness :
  (Presign.resolveKey (JS.lit "2024-01-15T10:30:45.001Z") (JS.lit "a.png")
     (Some [])
   = Presign.resolveKey (JS.lit "2024-01-15T10:30:45.999Z") (JS.lit "a.png")
       (Some []))
  /\ Presign.resolveKey (JS.lit "2024-01-15T10:30:45.999Z") (JS.lit "a.png")
       None
     <> Presign.resolveKey (JS.lit "2024-01-15T10:30:46.000Z") (JS.lit "a.png")
          None.
Proof.
  split.
  - apply (timestamp_key_same_iff_same_second (JS.lit "a.png")
             (JS.lit "2024-01-15T10:30:45.001Z")
             (JS.lit "2024-01-15T10:30:45.999Z") (Some [])
             eq_refl eq_refl eq_refl).
    reflexivity.
  - intro E.
    apply (timestamp_key_same_iff_same_second (JS.lit "a.png")
             (JS.lit "2024-01-15T10:30:45.999Z")
             (JS.lit "2024-01-15T10:30:46.000Z") None
             eq_refl eq_refl eq_refl) in E.
    vm_compute in E. discriminate E.
Defined.

Lemma replaceAll_Forall (p : JS.char -> bool) r s :
  p r = false -> Forall (fun c => p c = false) (JS.replaceAll p r s).
Proof.
  intro Hr. unfold JS.replaceAll.
  induction s as [|c s IH]; simpl; constructor; auto.
  destruct (p c) eqn:E; auto.
Qed.

Lemma Forall_firstn {A} (P : A -> Prop) n l :
  Forall P l -> Forall P (firstn n l).
Proof.
  intro H. revert n. induction H; intros [|n]; simpl; constructor; auto.
Qed.

(** X5: the timestamp of a key has no colon and no period, has at most
    nineteen code units, and exactly nineteen when the clock's
    rendering has that many, as an ISO instant has. *)
Theorem timestampOf_shape (iso : JS.str) :
  Forall (fun c => c <> 58%N /\ c <> 46%N) (timestampOf iso)
  /\ length (timestampOf iso) = Nat.min 19 (length iso)
  /\ (forall i c, i < 19 -> nth_error iso i = Some c ->
        nth_error (timestampOf iso) i
        = Some (if N.eqb c 58 || N.eqb c 46 then 45%N else c)).
Proof.
  unfold timestampOf. split; [|split].
  - eapply Forall_impl;
      [|apply Forall_firstn, (replaceAll_Forall _ 45%N iso eq_refl)].
    intros c H. simpl in H. apply orb_false_elim in H as [H1 H2].
    apply N.eqb_neq in H1, H2. auto.
  - now rewrite length_firstn, replaceAll_length.
  - intros i c Hi Hc. rewrite nth_error_firstn.
    destruct (Nat.ltb_spec i 19); [|lia].
    exact (replaceAll_nth (fun c => N.eqb c 58 || N.eqb c 46) 45%N iso i c Hc).
Qed.

Lemma underscore_split (h1 h2 s1 s2 : JS.str) :
  Forall (fun c => c <> 95%N) h1 -> Forall (fun c => c <> 95%N) h2 ->
  h1 ++ 95%N :: s1 = h2 ++ 95%N :: s2 -> h1 = h2 /\ s1 = s2.
Proof.
  intros F1. revert h2. induction F1 as [|c h1 Hc F1 IH]; intros h2 F2 E.
  - destruct F2 as [|d h2 Hd F2]; simpl in E.
    + injection E as ->. auto.
    + injection E as E _. congruence.
  - destruct F2 as [|d h2 Hd F2]; simpl in E.
    + injection E as E _. congruence.
    + injection E as -> E. destruct (IH h2 F2 E) as [-> ->]. auto.
Qed.

(** X6: when hashes hold no underscore, as hexadecimal digests do, a
    hash key determines both the hash and the sanitised file name: two
    requests get the same key only for the same hash and file names
    that sanitise alike. *)
Theorem hash_key_determines_hash_and_name (h1 h2 f1 f2 iso1 iso2 : JS.str) :
  JS.truthy (Some h1) = true -> JS.truthy (Some h2) = true ->
  Forall (fun c => c <> 95%N) h1 -> Forall (fun c => c <> 95%N) h2 ->
  (Presign.resolveKey iso1 f1 (Some h1) = Presign.resolveKey iso2 f2 (Some h2)
   <-> h1 = h2 /\ safeFilename f1 = safeFilename f2).
Proof.
  intros T1 T2 F1 F2.
  rewrite (resolveKey_hash iso1 f1 h1 T1), (resolveKey_hash iso2 f2 h2 T2).
  unfold Presign.objectKey. split.
  - intro E. apply app_inv_head in E.
    change (JS.lit "_") with [95%N] in E. simpl in E.
    now apply underscore_split.
  - now intros [-> ->].
Qed.

Lemma hash_key_determines_hash_and_name_witness :
  Presign.resolveKey (JS.lit "2024-01-15T10:30:45.123Z") (JS.lit "a b.png")
    (Some (JS.lit "abc123"))
  = Presign.resolveKey (JS.lit "2025-06-30T23:59:59.999Z") (JS.lit "a#b.png")
      (Some (JS.lit "abc123"))
  <-> JS.lit "abc123" = JS.lit "abc123"
      /\ safeFilename (JS.lit "a b.png") = safeFilename (JS.lit "a#b.png").
Proof.
  apply (hash_key_determines_hash_and_name (JS.lit "abc123") (JS.lit "abc123")
           (JS.lit "a b.png") (JS.lit "a#b.png"));
    try reflexivity;
    vm_compute; repeat constructor; discriminate.
Defined.

(** ** Direct uploads: the writing loop *)

(** The loop while the writes succeed, and at the first that fails. *)
Lemma uploadAll_run w folderName timestamp files :
  forall uploadedFiles log,
    (forall before c after,
       map (commandFor w folderName timestamp) files = before ++ c :: after ->
       send w (log ++ before) c = Fulfilled tt) ->
    uploadAll w folderName timestamp files uploadedFiles log
    = (Fulfilled (uploadedFiles ++ map (entryFor folderName timestamp) files),
       log ++ map (commandFor w folderName timestamp) files).
Proof.
  induction files as [|f files IH]; intros ups log H; simpl.
  - now rewrite !app_nil_r.
  - fold (commandFor w folderName timestamp f).
    pose proof (H [] _ _ eq_refl) as H0. rewrite app_nil_r in H0.
    rewrite H0. rewrite IH.
    + fold (entryFor folderName timestamp f).
      now rewrite <- !app_assoc.
    + intros before c after E. rewrite <- app_assoc.
      apply (H (commandFor w folderName timestamp f :: before) c after).
      simpl. now rewrite E.
Qed.

Lemma uploadAll_abort w folderName timestamp before f after e :
  forall uploadedFiles log,
    (forall pre c post,
       map (commandFor w folderName timestamp) before = pre ++ c :: post ->
       send w (log ++ pre) c = Fulfilled tt) ->
    send w (log ++ map (commandFor w folderName timestamp) before)
      (commandFor w folderName timestamp f) = Threw e ->
    uploadAll w folderName timestamp (before ++ f :: after) uploadedFiles log
    = (Threw e,
       log ++ map (commandFor w folderName timestamp) before
           ++ [commandFor w folderName timestamp f]).
Proof.
  induction before as [|b before IH]; intros ups log H He; simpl in *.
  - rewrite app_nil_r in He.
    fold (commandFor w folderName timestamp f). now rewrite He.
  - fold (commandFor w folderName timestamp b).
    pose proof (H [] _ _ eq_refl) as H0. rewrite app_nil_r in H0.
    rewrite H0. rewrite IH.
    + now rewrite <- !app_assoc.
    + intros pre c post E. rewrite <- app_assoc.
      apply (H (commandFor w folderName timestamp b :: pre) c post).
      simpl. now rewrite E.
    + now rewrite <- app_assoc.
Qed.

(** X7: when the service accepts each write, the files are written in
    the order of the form, each once, with its own bytes and content
    type, under keys of one folder and one timestamp; the answer is 200,
    counts the files and lists each with its key and its size. *)
Theorem storeFiles_writes_every_file w contributor files :
  (forall before c after,
     map (commandFor w (folderOf contributor)
            (timestampOf (up_toISOString w))) files
     = before ++ c :: after ->
     send w before c = Fulfilled tt) ->
  storeFiles w contributor files
  = ({| statusCode := 200;
        responseBody :=
          UploadedBody
            (JS.ofNat (length files) ++ JS.lit " photo(s) uploaded successfully")
            (map (entryFor (folderOf contributor)
                    (timestampOf (up_toISOString w))) files) |},
     map (commandFor w (folderOf contributor)
            (timestampOf (up_toISOString w))) files).
Proof.
  intro H. unfold storeFiles. fold (folderOf contributor).
  rewrite uploadAll_run by exact H.
  simpl. now rewrite length_map.
Qed.

Lemma storeFiles_writes_every_file_witness :
  storeFiles worldAcceptingWrites (Some (JS.lit "Ann Lee")) threeFiles
  = ({| statusCode := 200;
        responseBody :=
          UploadedBody (JS.lit "3 photo(s) uploaded successfully")
            [ {| uf_filename := JS.lit "a b.png";
                 uf_objectKey :=
                   JS.lit "Ann_Lee_UPLOADS/2024-01-15T10-30-45_a_b.png";
                 uf_size := 5 |};
              {| uf_filename := JS.lit "clip.mov";
                 uf_objectKey :=
                   JS.lit "Ann_Lee_UPLOADS/2024-01-15T10-30-45_clip.mov";
                 uf_size := 7 |};
              {| uf_filename := JS.lit "a#b.png";
                 uf_objectKey :=
                   JS.lit "Ann_Lee_UPLOADS/2024-01-15T10-30-45_a_b.png";
                 uf_size := 5 |} ] |},
     map (commandFor worldAcceptingWrites (JS.lit "Ann_Lee_UPLOADS")
            (JS.lit "2024-01-15T10-30-45")) threeFiles).
Proof.
  apply (storeFiles_writes_every_file worldAcceptingWrites
           (Some (JS.lit "Ann Lee")) threeFiles).
  reflexivity.
Defined.

(** X8: the first write the service refuses ends the loop: the answer
    is 500 with the service's message, the files before it have been
    written and stay written, the refused write is the last one sent,
    and no later file is sent. *)
Theorem storeFiles_stops_at_first_failure w contributor before f after e :
  (forall pre c post,
     map (commandFor w (folderOf contributor)
            (timestampOf (up_toISOString w))) before
     = pre ++ c :: post ->
     send w pre c = Fulfilled tt) ->
  send w (map (commandFor w (folderOf contributor)
                 (timestampOf (up_toISOString w))) before)
    (commandFor w (folderOf contributor) (timestampOf (up_toISOString w)) f)
  = Threw e ->
  storeFiles w contributor (before ++ f :: after)
  = ({| statusCode := 500;
        responseBody := ErrorBody (JS.lit "Upload failed: " ++ message e) |},
     map (commandFor w (folderOf contributor)
            (timestampOf (up_toISOString w))) before
     ++ [commandFor w (folderOf contributor)
           (timestampOf (up_toISOString w)) f]).
Proof.
  intros H He. unfold storeFiles. fold (folderOf contributor).
  now rewrite (uploadAll_abort w _ _ before f after e [] [] H He).
Qed.

Lemma storeFiles_stops_at_first_failure_witness :
  storeFiles worldFailingSecondWrite None threeFiles
  = ({| statusCode := 500;
        responseBody := ErrorBody (JS.lit "Upload failed: 503") |},
     map (commandFor worldFailingSecondWrite (JS.lit "Memorial_Guest_UPLOADS")
            (JS.lit "2024-01-15T10-30-45"))
       [photoOne; clipTwo]).
Proof.
  refine (storeFiles_stops_at_first_failure worldFailingSecondWrite None
            [photoOne] clipTwo [photoThree] _ _ eq_refl).
  intros [|c0 pre] c post E; [reflexivity|].
  apply (f_equal (@length _)) in E. simpl in E.
  rewrite length_app in E. simpl in E. lia.
Defined.

(** ** Direct uploads: the keys *)

(** The calls of the loop are the first writes of the form, in order. *)
Lemma uploadAll_log_prefix w folderName timestamp files :
  forall uploadedFiles log,
  exists n,
    snd (uploadAll w folderName timestamp files uploadedFiles log)
    = log ++ firstn n (map (commandFor w folderName timestamp) files).
Proof.
  induction files as [|f files IH]; intros ups log; simpl.
  - exists 0. now rewrite app_nil_r.
  - fold (commandFor w folderName timestamp f).
    destruct (send w log (commandFor w folderName timestamp f)).
    + destruct (IH (ups ++ [entryFor folderName timestamp f])
                  (log ++ [commandFor w folderName timestamp f])) as [n E].
      exists (S n). unfold entryFor in E. rewrite E.
      simpl. now rewrite <- app_assoc.
    + exists 1. reflexivity.
Qed.

Lemma storeFiles_log_prefix w contributor files :
  exists n,
    snd (storeFiles w contributor files)
    = firstn n (map (commandFor w (folderOf contributor)
                       (timestampOf (up_toISOString w))) files).
Proof.
  unfold storeFiles. fold (folderOf contributor).
  destruct (uploadAll_log_prefix w (folderOf contributor)
              (timestampOf (up_toISOString w)) files [] []) as [n E].
  exists n.
  destruct (uploadAll w (folderOf contributor)
              (timestampOf (up_toISOString w)) files [] []) as [[ups|e] log];
    exact E.
Qed.

Lemma nth_error_firstn_Some {A} n (l : list A) i x :
  nth_error (firstn n l) i = Some x -> nth_error l i = Some x.
Proof.
  rewrite nth_error_firstn. destruct (i <? n); [auto | discriminate].
Qed.

(** X9: within one call, two files are written under the same key
    exactly when their names sanitise to the same name; the folder and
    the timestamp are those of the call and do not tell them apart. *)
Theorem upload_keys_equal_iff_names_sanitise_alike
    w contributor files i j ci cj fi fj :
  nth_error (snd (storeFiles w contributor files)) i = Some ci ->
  nth_error (snd (storeFiles w contributor files)) j = Some cj ->
  nth_error files i = Some fi ->
  nth_error files j = Some fj ->
  (Key ci = Key cj
   <-> safeFilename (file_filename fi) = safeFilename (file_filename fj)).
Proof.
  destruct (storeFiles_log_prefix w contributor files) as [n ->].
  intros Hi Hj Fi Fj.
  apply nth_error_firstn_Some in Hi, Hj.
  rewrite nth_error_map, Fi in Hi. rewrite nth_error_map, Fj in Hj.
  simpl in Hi, Hj. injection Hi as <-. injection Hj as <-.
  unfold commandFor, uploadKey. cbn [Key]. split.
  - intro E. now repeat apply app_inv_head in E.
  - now intros ->.
Qed.

Lemma upload_keys_equal_iff_names_sanitise_alike_witness :
  Key (commandFor worldAcceptingWrites (JS.lit "Memorial_Guest_UPLOADS")
         (JS.lit "2024-01-15T10-30-45") photoOne)
  = Key (commandFor worldAcceptingWrites (JS.lit "Memorial_Guest_UPLOADS")
           (JS.lit "2024-01-15T10-30-45") photoThree)
  <-> safeFilename (JS.lit "a b.png") = safeFilename (JS.lit "a#b.png").
Proof.
  exact (upload_keys_equal_iff_names_sanitise_alike worldAcceptingWrites None
           threeFiles 0 2 _ _ photoOne photoThree
           eq_refl eq_refl eq_refl eq_refl).
Defined.

Lemma startsWith_nil s : JS.startsWith s [] = true.
Proof. now destruct s. Qed.

(** Splitting at slashes. *)
Lemma split_slash_free s : forall cur,
  Forall (fun c => c <> 47%N) s ->
  JS.split_from [47%N] s cur 0 = [rev cur ++ s].
Proof.
  induction s as [|c s IH]; intros cur F; simpl.
  - now rewrite app_nil_r.
  - inversion F as [|? ? Hc F']; subst.
    apply N.eqb_neq in Hc. rewrite Hc. simpl.
    rewrite IH by assumption. simpl. now rewrite <- app_assoc.
Qed.

Lemma split_slash_app a : forall b cur,
  Forall (fun c => c <> 47%N) a ->
  JS.split_from [47%N] (a ++ 47%N :: b) cur 0
  = (rev cur ++ a) :: JS.split_from [47%N] b [] 0.
Proof.
  induction a as [|c a IH]; intros b cur F; simpl.
  - now rewrite startsWith_nil, app_nil_r.
  - inversion F as [|? ? Hc F']; subst.
    apply N.eqb_neq in Hc. rewrite Hc. simpl.
    rewrite IH by assumption. simpl. now rewrite <- app_assoc.
Qed.

Lemma split_slash_last s : forall cur,
  Forall (fun c => c <> 47%N) cur ->
  exists pieces final dir,
    JS.split_from [47%N] s cur 0 = pieces ++ [final]
    /\ Forall (fun c => c <> 47%N) final
    /\ rev cur ++ s = dir ++ final
    /\ (dir = [] \/ exists d, dir = d ++ [47%N]).
Proof.
  induction s as [|c s IH]; intros cur F.
  - exists [], (rev cur), []. simpl. rewrite app_nil_r.
    repeat split; auto. now apply Forall_rev.
  - simpl. destruct (N.eqb_spec c 47) as [->|Hc]; simpl.
    + rewrite startsWith_nil.
      destruct (IH [] (Forall_nil _)) as (pieces & final & dir & E & Ff & Ed & Hd).
      exists (rev cur :: pieces), final, (rev cur ++ 47%N :: dir).
      simpl in Ed.
      split; [cbn [app]; f_equal; exact E|]. split; [exact Ff|]. split.
      * rewrite Ed, <- app_assoc. reflexivity.
      * right. destruct Hd as [->|(d & ->)].
        -- now exists (rev cur).
        -- exists (rev cur ++ 47%N :: d). now rewrite <- app_assoc.
    + destruct (IH (c :: cur)) as (pieces & final & dir & E & Ff & Ed & Hd);
        [constructor; assumption|].
      exists pieces, final, dir. simpl in Ed. rewrite <- app_assoc in Ed.
      apply N.eqb_neq in Hc.
      split; [exact E|]. split; [exact Ff|]. split; [exact Ed | exact Hd].
Qed.

Lemma isAlnum_not_special c :
  JS.isAlnum c = true -> c <> 95%N /\ c <> 47%N.
Proof.
  unfold JS.isAlnum, JS.isLower, JS.isUpper, JS.isDigit, JS.between.
  intro H. split; intros ->; discriminate H.
Qed.

Lemma filenameChar_not_slash c : filenameChar c = true -> c <> 47%N.
Proof. intros H ->. discriminate H. Qed.

Lemma folderNameOf_no_slash name :
  Forall (fun c => c <> 47%N) (folderNameOf name).
Proof.
  unfold folderNameOf. apply Forall_app. split.
  - unfold JS.replaceAll. induction name as [|c s IH]; simpl; constructor; auto.
    destruct (JS.isAlnum c) eqn:E; simpl; [|discriminate].
    now apply isAlnum_not_special.
  - vm_compute. repeat constructor; discriminate.
Qed.

(** The pieces of an upload key. *)
Lemma split_uploadKey name timestamp filename :
  Forall (fun c => c <> 47%N) timestamp ->
  JS.split (uploadKey (folderNameOf name) timestamp filename) (JS.lit "/")
  = [folderNameOf name; timestamp ++ JS.lit "_" ++ safeFilename filename].
Proof.
  intro Ft. unfold JS.split, uploadKey.
  change (JS.lit "/") with [47%N]. cbn [app].
  rewrite split_slash_app by apply folderNameOf_no_slash.
  rewrite split_slash_free; [reflexivity|].
  apply Forall_app. split; [exact Ft|].
  apply Forall_app. split; [vm_compute; repeat constructor; discriminate|].
  eapply Forall_impl; [|apply safeFilename_Forall].
  intros c. apply filenameChar_not_slash.
Qed.

(** X10: a key written by the upload handlers has exactly two
    segments between slashes, the folder and the file part: neither the
    contributor name nor the file name can add a path separator; the
    folder holds only letters, digits and underscores. *)
Theorem uploadKey_has_two_segments (name timestamp filename : JS.str) :
  Forall (fun c => c <> 47%N) timestamp ->
  JS.split (uploadKey (folderNameOf name) timestamp filename) (JS.lit "/")
  = [folderNameOf name; timestamp ++ JS.lit "_" ++ safeFilename filename]
  /\ Forall (fun c => JS.isAlnum c = true \/ c = 95%N) (folderNameOf name).
Proof.
  intro Ft. split; [now apply split_uploadKey|].
  unfold folderNameOf. apply Forall_app. split.
  - unfold JS.replaceAll. induction name as [|c s IH]; simpl; constructor; auto.
    destruct (JS.isAlnum c) eqn:E; simpl; auto.
  - change (JS.lit "_UPLOADS") with [95; 85; 80; 76; 79; 65; 68; 83]%N.
    repeat (apply Forall_cons;
            [first [left; reflexivity | right; reflexivity]|]).
    apply Forall_nil.
Qed.

Lemma uploadKey_has_two_segments_witness :
  JS.split (uploadKey (folderNameOf (JS.lit "../etc/Ann Lee"))
              (timestampOf (JS.lit "2024-01-15T10:30:45.123Z"))
              (JS.lit "../../x.png")) (JS.lit "/")
  = [JS.lit "___etc_Ann_Lee_UPLOADS"; JS.lit "2024-01-15T10-30-45_.._.._x.png"].
Proof.
  refine (proj1 (uploadKey_has_two_segments (JS.lit "../etc/Ann Lee")
                   (timestampOf (JS.lit "2024-01-15T10:30:45.123Z"))
                   (JS.lit "../../x.png") _)).
  vm_compute. repeat constructor; discriminate.
Defined.

(** ** From an upload key to its gallery entry *)

Lemma startsWith_UPLOADS_app t :
  t <> [] ->
  JS.startsWith (t ++ JS.lit "_UPLOADS") (JS.lit "_UPLOADS") = true ->
  JS.startsWith t (JS.lit "_UPLOADS") = true.
Proof.
  change (JS.lit "_UPLOADS") with [95; 85; 80; 76; 79; 65; 68; 83]%N.
  intros Hne H.
  destruct t as [|c0 t]; [congruence|].
  do 7 (destruct t as [|? t];
        [simpl in H; repeat (apply andb_prop in H as [_ H]); discriminate H|]).
  simpl in *. rewrite startsWith_nil in *. exact H.
Qed.

Lemma removeFirst_cons c s pat :
  JS.removeFirst (c :: s) pat
  = if JS.startsWith (c :: s) pat then skipn (length pat) (c :: s)
    else c :: JS.removeFirst s pat.
Proof. reflexivity. Qed.

(** Removing [_UPLOADS] from a folder name gives back what precedes
    it, when that holds no [_UPLOADS] itself. *)
Lemma removeFirst_UPLOADS x :
  JS.includes x (JS.lit "_UPLOADS") = false ->
  JS.removeFirst (x ++ JS.lit "_UPLOADS") (JS.lit "_UPLOADS") = x.
Proof.
  induction x as [|c x IH]; intro H.
  - reflexivity.
  - change (JS.includes (c :: x) (JS.lit "_UPLOADS"))
      with (JS.startsWith (c :: x) (JS.lit "_UPLOADS")
            || JS.includes x (JS.lit "_UPLOADS")) in H.
    apply orb_false_elim in H as [H1 H2].
    change ((c :: x) ++ JS.lit "_UPLOADS") with (c :: (x ++ JS.lit "_UPLOADS")).
    rewrite removeFirst_cons.
    destruct (JS.startsWith (c :: x ++ JS.lit "_UPLOADS") (JS.lit "_UPLOADS"))
      eqn:E.
    + apply (startsWith_UPLOADS_app (c :: x)) in E; [|discriminate].
      rewrite E in H1. discriminate.
    + now rewrite IH.
Qed.

Lemma underscores_to_spaces name :
  JS.replaceAll (fun c => N.eqb c 95) 32%N
    (JS.replaceAll (fun c => negb (JS.isAlnum c)) 95%N name)
  = JS.replaceAll (fun c => negb (JS.isAlnum c)) 32%N name.
Proof.
  unfold JS.replaceAll. rewrite map_map. apply map_ext. intro c.
  destruct (JS.isAlnum c) eqn:E; simpl; [|reflexivity].
  apply isAlnum_not_special in E as [E _].
  apply N.eqb_neq in E. now rewrite E.
Qed.

(** X11: the gallery reads back from a key written by the upload
    handlers the contributor and the file they were written for: the
    contributor is the uploaded name with every code unit that is not a
    letter or a digit turned into a space, and the file name is the
    timestamp, an underscore and the sanitised file name.  This needs a
    name whose sanitised form holds no [_UPLOADS], and a timestamp
    without slash, as the clock's is. *)
Theorem gallery_reads_back_upload_key
    (toLowerCase : JS.str -> JS.str) (name timestamp filename : JS.str)
    (size : Z) (lastModified url : JS.str) :
  Forall (fun c => c <> 47%N) timestamp ->
  JS.includes (JS.replaceAll (fun c => negb (JS.isAlnum c)) 95%N name)
    (JS.lit "_UPLOADS") = false ->
  let p :=
    Gallery.project toLowerCase
      {| Gallery.Key := uploadKey (folderNameOf name) timestamp filename;
         Gallery.Size := size;
         Gallery.LastModified := lastModified |} url in
  ph_contributor p = JS.replaceAll (fun c => negb (JS.isAlnum c)) 32%N name
  /\ ph_filename p = timestamp ++ JS.lit "_" ++ safeFilename filename.
Proof.
  intros Ft Hn p. subst p. unfold Gallery.project.
  cbn [ph_contributor ph_filename Gallery.Key].
  rewrite split_uploadKey by exact Ft.
  cbn [nth last]. split; [|reflexivity].
  unfold folderNameOf. rewrite removeFirst_UPLOADS by exact Hn.
  apply underscores_to_spaces.
Qed.

Lemma gallery_reads_back_upload_key_witness :
  let p :=
    Gallery.project asciiLower
      {| Gallery.Key := JS.lit "Ann_Lee_UPLOADS/2024-01-15T10-30-45_a_b.png";
         Gallery.Size := 5;
         Gallery.LastModified := JS.lit "2024-01-15T10:30:46.000Z" |}
      (JS.lit "https://signed.example/get") in
  ph_contributor p = JS.lit "Ann Lee"
  /\ ph_filename p = JS.lit "2024-01-15T10-30-45_a_b.png".
Proof.
  refine (gallery_reads_back_upload_key asciiLower (JS.lit "Ann Lee")
            (JS.lit "2024-01-15T10-30-45") (JS.lit "a b.png") 5
            (JS.lit "2024-01-15T10:30:46.000Z")
            (JS.lit "https://signed.example/get") _ eq_refl).
  vm_compute. repeat constructor; discriminate.
Defined.

(** X12: the file name of a gallery entry is what follows the last
    slash of its key, or the whole key when the key has no slash; it
    holds no slash itself. *)
Theorem photo_filename_is_last_segment
    (toLowerCase : JS.str -> JS.str) (obj : Gallery.s3Object) (url : JS.str) :
  Forall (fun c => c <> 47%N) (ph_filename (Gallery.project toLowerCase obj url))
  /\ exists dir,
       Gallery.Key obj = dir ++ ph_filename (Gallery.project toLowerCase obj url)
       /\ (dir = [] \/ exists d, dir = d ++ [47%N]).
Proof.
  change (ph_filename (Gallery.project toLowerCase obj url))
    with (last (JS.split_from [47%N] (Gallery.Key obj) (@nil N) 0) []).
  destruct (split_slash_last (Gallery.Key obj) [] (Forall_nil _))
    as (pieces & final & dir & E & Ff & Ed & Hd).
  rewrite E, last_last. split; [exact Ff|].
  exists dir. split; [exact Ed | exact Hd].
Qed.

(** ** The multipart parser: what was encoded is what is decoded *)

Lemma search_unfold value buf pos :
  Buffer.search value buf pos
  = if Buffer.isPrefix value buf then Some pos
    else match buf with
         | [] => None
         | _ :: buf' => Buffer.search value buf' (S pos)
         end.
Proof. now destruct buf. Qed.

Lemma search_shift value buf : forall pos,
  Buffer.search value buf pos
  = match Buffer.search value buf 0 with
    | Some i => Some (pos + i)
    | None => None
    end.
Proof.
  induction buf as [|b buf IH]; intro pos.
  - rewrite (search_unfold value [] pos), (search_unfold value [] 0).
    destruct (Buffer.isPrefix value []); [f_equal; lia | reflexivity].
  - rewrite (search_unfold value (b :: buf) pos),
      (search_unfold value (b :: buf) 0).
    destruct (Buffer.isPrefix value (b :: buf)); [f_equal; lia|].
    rewrite (IH (S pos)), (IH 1).
    destruct (Buffer.search value buf 0); [f_equal; lia | reflexivity].
Qed.

Lemma isPrefix_app value : forall a rest,
  length value <= length a ->
  Buffer.isPrefix value (a ++ rest) = Buffer.isPrefix value a.
Proof.
  induction value as [|v value IH]; intros [|x a] rest H; simpl in *;
    try reflexivity; try lia.
  rewrite IH by lia. reflexivity.
Qed.

Lemma isPrefix_self value rest : Buffer.isPrefix value (value ++ rest) = true.
Proof.
  induction value as [|v value IH]; simpl; [reflexivity|].
  rewrite IH. destruct v; reflexivity.
Qed.

(** When the first occurrence in [s ++ value] is the one at its end, so
    it is whatever follows. *)
Lemma search_first value s : forall rest,
  Buffer.search value (s ++ value) 0 = Some (length s) ->
  Buffer.search value (s ++ value ++ rest) 0 = Some (length s).
Proof.
  induction s as [|c s IH]; intros rest H.
  - simpl. rewrite search_unfold, isPrefix_self. reflexivity.
  - change ((c :: s) ++ value) with (c :: s ++ value) in H.
    rewrite search_unfold in H.
    destruct (Buffer.isPrefix value (c :: s ++ value)) eqn:E;
      [discriminate H|].
    rewrite search_shift in H.
    destruct (Buffer.search value (s ++ value) 0) as [i|] eqn:Es;
      [|discriminate H].
    injection H as H. assert (i = length s) by (simpl in H; lia). subst i.
    assert (P : Buffer.isPrefix value (c :: s ++ value ++ rest) = false).
    { change (c :: s ++ value ++ rest) with ((c :: s) ++ value ++ rest).
      rewrite app_assoc, isPrefix_app by (simpl; rewrite length_app; lia).
      exact E. }
    change ((c :: s) ++ value ++ rest) with (c :: s ++ value ++ rest).
    rewrite search_unfold, P, search_shift, (IH rest eq_refl).
    reflexivity.
Qed.

(** Searching from the end of a prefix is searching what follows it. *)
Lemma indexOf_after pre rest value :
  Buffer.indexOf (pre ++ rest) value (Buffer.len pre)
  = match Buffer.search value rest 0 with
    | Some i => (Buffer.len pre + Z.of_nat i)%Z
    | None => (-1)%Z
    end.
Proof.
  unfold Buffer.indexOf, Buffer.len.
  destruct (Z.ltb_spec (Z.of_nat (length pre)) 0); [lia|].
  rewrite Z.min_l by (rewrite length_app; lia).
  rewrite Nat2Z.id, skipn_app, skipn_all, Nat.sub_diag. simpl.
  rewrite search_shift.
  destruct (Buffer.search value rest 0); [|reflexivity].
  now rewrite Nat2Z.inj_add.
Qed.

Lemma slice_middle pre s rest :
  Buffer.slice (pre ++ s ++ rest) (Buffer.len pre)
    (Buffer.len pre + Z.of_nat (length s))
  = s.
Proof.
  unfold Buffer.len.
  rewrite slice_bytesBetween
    by (unfold Buffer.len; rewrite ?length_app; lia).
  unfold bytesBetween.
  replace (Z.to_nat (Z.of_nat (length pre) + Z.of_nat (length s)
                     - Z.of_nat (length pre))) with (length s) by lia.
  rewrite Nat2Z.id, skipn_app, skipn_all, Nat.sub_diag. simpl.
  rewrite firstn_app, firstn_all, Nat.sub_diag. simpl. apply app_nil_r.
Qed.

(** The loop, entered at the occurrence that follows [pre], collects
    the segments that were joined. *)
Lemma collectParts_joined bb segments : forall fuel pre tail parts,
  bb <> [] ->
  length segments < fuel ->
  Forall (fun s => Buffer.search bb (s ++ bb) 0 = Some (length s)) segments ->
  Buffer.search bb tail 0 = None ->
  UploadManual.collectParts fuel
    (pre ++ bb ++ concat (map (fun s => s ++ bb) segments) ++ tail) bb
    (Buffer.len pre) parts
  = Some (parts ++ segments).
Proof.
  induction segments as [|s segments IH]; intros fuel pre tail parts Hbb Hf HF Ht;
    (destruct fuel as [|fuel]; [simpl in Hf; lia|]); simpl UploadManual.collectParts;
    (destruct (Z.eqb_spec (Buffer.len pre) (-1)); [unfold Buffer.len in *; lia|]).
  - simpl concat. simpl app at 2.
    replace (Buffer.len pre + Buffer.len bb)%Z with (Buffer.len (pre ++ bb))
      by (unfold Buffer.len; rewrite length_app; lia).
    rewrite app_assoc, indexOf_after, Ht. simpl. now rewrite app_nil_r.
  - inversion HF as [|? ? Hs HF']; subst. simpl concat.
    replace (Buffer.len pre + Buffer.len bb)%Z with (Buffer.len (pre ++ bb))
      by (unfold Buffer.len; rewrite length_app; lia).
    replace (pre ++ bb ++ ((s ++ bb) ++ concat (map (fun s0 => s0 ++ bb) segments))
                 ++ tail)
      with ((pre ++ bb) ++ s ++ bb
              ++ (concat (map (fun s0 => s0 ++ bb) segments) ++ tail))
      by (now rewrite <- !app_assoc).
    rewrite indexOf_after, (search_first bb s _ Hs).
    destruct (Z.eqb_spec (Buffer.len (pre ++ bb) + Z.of_nat (length s)) (-1));
      [unfold Buffer.len in *; lia|].
    rewrite slice_middle.
    replace (Buffer.len (pre ++ bb) + Z.of_nat (length s))%Z
      with (Buffer.len ((pre ++ bb) ++ s))
      by (unfold Buffer.len; rewrite !length_app; lia).
    replace ((pre ++ bb) ++ s ++ bb
               ++ concat (map (fun s0 => s0 ++ bb) segments) ++ tail)
      with (((pre ++ bb) ++ s) ++ bb
              ++ concat (map (fun s0 => s0 ++ bb) segments) ++ tail)
      by (now rewrite <- !app_assoc).
    rewrite IH by (auto; simpl in Hf; lia).
    now rewrite <- app_assoc.
Qed.

Lemma concat_length_ge (bb : Buffer.t) (segments : list Buffer.t) :
  bb <> [] ->
  length segments <= length (concat (map (fun s => s ++ bb) segments)).
Proof.
  intro Hbb. induction segments as [|s segments IH]; simpl; [lia|].
  rewrite !length_app.
  assert (0 < length bb) by (destruct bb; [congruence | simpl; lia]). lia.
Qed.

Lemma rawParts_joined bb segments tail :
  bb <> [] ->
  Forall (fun s => Buffer.search bb (s ++ bb) 0 = Some (length s)) segments ->
  Buffer.search bb tail 0 = None ->
  UploadManual.rawParts (joinSegments bb segments tail) bb = Some segments.
Proof.
  intros Hbb HF Ht. unfold UploadManual.rawParts, joinSegments.
  pose proof (indexOf_after [] (bb ++ concat (map (fun s => s ++ bb) segments)
                                  ++ tail) bb) as E0.
  simpl app in E0. change (Buffer.len []) with 0%Z in E0.
  rewrite E0, search_unfold, isPrefix_self.
  change (0 + Z.of_nat 0)%Z with (Buffer.len []).
  apply (collectParts_joined bb segments _ [] tail [] Hbb); auto.
  simpl app. rewrite !length_app.
  pose proof (concat_length_ge bb segments Hbb).
  unfold Buffer.t in *. lia.
Qed.

(** X13: a body made of segments joined by the boundary is cut back
    into exactly those segments, in order, when the boundary occurs in
    no segment (nor across a segment and the boundary that follows it)
    and not in what follows the last boundary. *)
Theorem rawParts_recovers_joined_segments
    (boundary : option JS.str) (segments : list Buffer.t) (tail : Buffer.t) :
  Forall (fun s =>
            Buffer.search (UploadManual.boundaryBuffer boundary)
              (s ++ UploadManual.boundaryBuffer boundary) 0
            = Some (length s)) segments ->
  Buffer.search (UploadManual.boundaryBuffer boundary) tail 0 = None ->
  UploadManual.rawParts
    (joinSegments (UploadManual.boundaryBuffer boundary) segments tail)
    (UploadManual.boundaryBuffer boundary)
  = Some segments.
Proof.
  intros HF Ht.
  now apply rawParts_joined; [apply boundaryBuffer_nonempty | |].
Qed.

Lemma rawParts_recovers_joined_segments_witness :
  UploadManual.rawParts
    (joinSegments (bytesOf "--XYZ")
       [segmentOf photoHeaders photoBytes; segmentOf photoHeaders (bytesOf "-")]
       (bytesOf "--" ++ CRLF))
    (bytesOf "--XYZ")
  = Some [segmentOf photoHeaders photoBytes;
          segmentOf photoHeaders (bytesOf "-")].
Proof.
  apply (rawParts_recovers_joined_segments (Some (JS.lit "XYZ"))
           [segmentOf photoHeaders photoBytes;
            segmentOf photoHeaders (bytesOf "-")]
           (bytesOf "--" ++ CRLF)).
  - repeat constructor.
  - reflexivity.
Defined.

Lemma skipn_length_app {A} (l r : list A) : skipn (length l) (l ++ r) = r.
Proof. induction l; simpl; auto. Qed.

Lemma firstn_without_last_two {A} (d : list A) a b :
  firstn (length (d ++ [a; b]) - 2) (d ++ [a; b]) = d.
Proof.
  rewrite length_app. simpl length.
  replace (length d + 2 - 2) with (length d + 0) by lia.
  rewrite firstn_app_2. simpl. apply app_nil_r.
Qed.

(** A well-delimited segment decodes to its file, bytes unchanged. *)
Lemma decodePart_file toString result p :
  Buffer.search UploadManual.CRLFCRLF
    (ep_headers p ++ UploadManual.CRLFCRLF) 0
  = Some (length (ep_headers p)) ->
  Regex.filenameMatch (toString (ep_headers p)) = Some (ep_filename p) ->
  UploadManual.decodePart toString result
    (segmentOf (ep_headers p) (ep_data p))
  = {| UploadManual.files :=
         UploadManual.files result ++ [decodedFile toString p];
       UploadManual.contributor := UploadManual.contributor result |}.
Proof.
  intros Hs Hm. unfold UploadManual.decodePart, segmentOf.
  set (h := ep_headers p) in *. set (d := ep_data p).
  change [x0d; x0a; x0d; x0a] with UploadManual.CRLFCRLF.
  pose proof (indexOf_after [] (h ++ UploadManual.CRLFCRLF ++ d ++ [x0d; x0a])
                UploadManual.CRLFCRLF) as E.
  rewrite (search_first _ h _ Hs) in E.
  change ([] ++ h ++ UploadManual.CRLFCRLF ++ d ++ [x0d; x0a])
    with (h ++ UploadManual.CRLFCRLF ++ d ++ [x0d; x0a]) in E.
  change (Buffer.len []) with 0%Z in E. rewrite E.
  destruct (Z.eqb_spec (0 + Z.of_nat (length h)) (-1)); [lia|].
  pose proof (slice_middle [] h (UploadManual.CRLFCRLF ++ d ++ [x0d; x0a])) as Sl.
  change (Buffer.len []) with 0%Z in Sl.
  change ([] ++ h ++ UploadManual.CRLFCRLF ++ d ++ [x0d; x0a])
    with (h ++ UploadManual.CRLFCRLF ++ d ++ [x0d; x0a]) in Sl.
  rewrite Sl, Hm.
  assert (C : UploadManual.cleanContent
                (h ++ UploadManual.CRLFCRLF ++ d ++ [x0d; x0a])
                (0 + Z.of_nat (length h)) = d).
  { rewrite cleanContent_firstn; [| symmetry; exact E | lia].
    replace (Z.to_nat (0 + Z.of_nat (length h) + 4))
      with (length (h ++ UploadManual.CRLFCRLF))
      by (rewrite length_app; simpl; lia).
    rewrite app_assoc, skipn_length_app.
    apply firstn_without_last_two. }
  rewrite C. reflexivity.
Qed.

Lemma fold_decodePart_files toString parts : forall result,
  Forall (fun p =>
            Buffer.search UploadManual.CRLFCRLF
              (ep_headers p ++ UploadManual.CRLFCRLF) 0
            = Some (length (ep_headers p))
            /\ Regex.filenameMatch (toString (ep_headers p))
               = Some (ep_filename p)) parts ->
  fold_left (UploadManual.decodePart toString)
    (map (fun p => segmentOf (ep_headers p) (ep_data p)) parts) result
  = {| UploadManual.files :=
         UploadManual.files result ++ map (decodedFile toString) parts;
       UploadManual.contributor := UploadManual.contributor result |}.
Proof.
  induction parts as [|p parts IH]; intros result HF; simpl.
  - rewrite app_nil_r. now destruct result.
  - inversion HF as [|? ? [Hs Hm] HF']; subst.
    rewrite (decodePart_file toString result p Hs Hm), IH by assumption.
    simpl. now rewrite <- app_assoc.
Qed.

(** X14: the parser gives back the file parts a producer encoded: for
    parts joined under a boundary, each well delimited, it returns one
    file per part, in order, with the declared name, the content type
    of the header block, and the bytes of the part unchanged, whatever
    bytes they are. *)
Theorem parseMultipart_returns_encoded_files
    (toString : Buffer.t -> JS.str) (boundary : option JS.str)
    (parts : list encodedPart) (tail : Buffer.t) :
  Forall (wellDelimited toString (UploadManual.boundaryBuffer boundary)) parts ->
  Buffer.search (UploadManual.boundaryBuffer boundary) tail 0 = None ->
  UploadManual.parseMultipart toString
    (joinSegments (UploadManual.boundaryBuffer boundary)
       (map (fun p => segmentOf (ep_headers p) (ep_data p)) parts) tail)
    boundary
  = Some {| UploadManual.files := map (decodedFile toString) parts;
            UploadManual.contributor := JS.lit "Memorial_Guest" |}.
Proof.
  intros HF Ht. unfold UploadManual.parseMultipart.
  rewrite rawParts_joined; [| apply boundaryBuffer_nonempty | | exact Ht].
  - rewrite fold_decodePart_files; [reflexivity|].
    eapply Forall_impl; [|exact HF]. intros p (_ & Hs & Hm). auto.
  - apply Forall_map. eapply Forall_impl; [|exact HF].
    intros p (Hb & _). exact Hb.
Qed.

Lemma parseMultipart_returns_encoded_files_witness :
  UploadManual.parseMultipart asciiToString
    (joinSegments (bytesOf "--XYZ") [segmentOf photoHeaders photoBytes]
       (bytesOf "--" ++ CRLF))
    (Some (JS.lit "XYZ"))
  = Some {| UploadManual.files :=
              [{| file_filename := JS.lit "a.png";
                  file_contentType := JS.lit "image/png";
                  file_data := photoBytes |}];
            UploadManual.contributor := JS.lit "Memorial_Guest" |}.
Proof.
  apply (parseMultipart_returns_encoded_files asciiToString
           (Some (JS.lit "XYZ")) [encodedPhoto] (bytesOf "--" ++ CRLF)).
  - repeat constructor.
  - reflexivity.
Defined.

(** ** The multipart parser: what it returns is well formed *)

Lemma run_Forall p s : Forall (fun c => p c = true) (Regex.run p s).
Proof.
  induction s as [|c s IH]; simpl; [constructor|].
  destruct (p c) eqn:E; constructor; auto.
Qed.

Lemma quotedHere_Some s r :
  Regex.quotedHere s = Some r ->
  r <> [] /\ Forall (fun c => c <> 34%N) r.
Proof.
  unfold Regex.quotedHere.
  pose proof (run_Forall Regex.notQuote s) as F.
  destruct (Regex.run Regex.notQuote s) as [|c r'] eqn:E; [discriminate|].
  destruct (skipn _ s); [discriminate|].
  intro H. injection H as <-. split; [discriminate|].
  eapply Forall_impl; [|exact F]. intros a Ha.
  unfold Regex.notQuote in Ha. apply negb_true_iff, N.eqb_neq in Ha. exact Ha.
Qed.

Lemma quoted_unfold prefix s :
  Regex.quoted prefix s
  = match (if JS.startsWith s prefix
           then Regex.quotedHere (skipn (length prefix) s) else None) with
    | Some r => Some r
    | None => match s with
              | [] => None
              | _ :: s' => Regex.quoted prefix s'
              end
    end.
Proof. now destruct s. Qed.

Lemma quoted_Some prefix s r :
  Regex.quoted prefix s = Some r ->
  r <> [] /\ Forall (fun c => c <> 34%N) r.
Proof.
  induction s as [|c s IH]; rewrite quoted_unfold.
  - destruct (JS.startsWith [] prefix); [|discriminate].
    destruct (Regex.quotedHere _) eqn:E; [|discriminate].
    intro H. injection H as <-. eapply quotedHere_Some; eauto.
  - destruct (JS.startsWith (c :: s) prefix); [|exact IH].
    destruct (Regex.quotedHere _) eqn:E; [|exact IH].
    intro H. injection H as <-. eapply quotedHere_Some; eauto.
Qed.

Lemma notLineBreak_spec c :
  Regex.notLineBreak c = true -> c <> 13%N /\ c <> 10%N.
Proof.
  unfold Regex.notLineBreak, Regex.isLineBreak. intro H.
  apply negb_true_iff, orb_false_elim in H as [H1 H2].
  apply N.eqb_neq in H1, H2. auto.
Qed.

Lemma not_space_not_lineBreak c :
  JS.isSpace c = false -> Regex.notLineBreak c = true.
Proof.
  intro H. unfold Regex.notLineBreak, Regex.isLineBreak.
  destruct (N.eqb_spec c 13) as [->|_]; [discriminate H|].
  destruct (N.eqb_spec c 10) as [->|_]; [discriminate H|]. reflexivity.
Qed.

Lemma run_line_Some c s :
  Regex.notLineBreak c = true ->
  Regex.run Regex.notLineBreak (c :: s) <> []
  /\ Forall (fun a => a <> 13%N /\ a <> 10%N)
       (Regex.run Regex.notLineBreak (c :: s)).
Proof.
  intro H. split.
  - simpl. rewrite H. discriminate.
  - eapply Forall_impl; [|apply run_Forall]. apply notLineBreak_spec.
Qed.

Lemma afterSpaces_Some s : forall r,
  Regex.afterSpaces s = Some r ->
  r <> [] /\ Forall (fun c => c <> 13%N /\ c <> 10%N) r.
Proof.
  induction s as [|c s IH]; intros r; [discriminate|].
  cbn [Regex.afterSpaces].
  destruct (JS.isSpace c) eqn:Es.
  - destruct (Regex.afterSpaces s) as [r'|].
    + intro H. injection H as <-. now apply IH.
    + destruct (Regex.isLineBreak c) eqn:El; [discriminate|].
      intro H. injection H as <-. apply run_line_Some.
      unfold Regex.notLineBreak. now rewrite El.
  - intro H. injection H as <-. apply run_line_Some.
    now apply not_space_not_lineBreak.
Qed.

Lemma contentTypeMatch_unfold s :
  Regex.contentTypeMatch s
  = match (if Regex.startsWithFolded s (JS.lit "Content-Type:")
           then Regex.afterSpaces (skipn 13 s) else None) with
    | Some r => Some r
    | None => match s with
              | [] => None
              | _ :: s' => Regex.contentTypeMatch s'
              end
    end.
Proof. now destruct s. Qed.

Lemma contentTypeMatch_Some s : forall r,
  Regex.contentTypeMatch s = Some r ->
  r <> [] /\ Forall (fun c => c <> 13%N /\ c <> 10%N) r.
Proof.
  induction s as [|c s IH]; intro r; rewrite contentTypeMatch_unfold.
  - destruct (Regex.startsWithFolded [] _); [|discriminate].
    destruct (Regex.afterSpaces _) eqn:E; [|discriminate].
    intro H. injection H as <-. eapply afterSpaces_Some; eauto.
  - destruct (Regex.startsWithFolded (c :: s) _); [|apply IH].
    destruct (Regex.afterSpaces _) eqn:E; [|apply IH].
    intro H. injection H as <-. eapply afterSpaces_Some; eauto.
Qed.

(** What a well-formed result is, and that decoding a segment keeps a
    result well formed and adds at most one file. *)
Lemma decodePart_keeps toString result part :
  let good (f : file) :=
    file_filename f <> []
    /\ Forall (fun c => c <> 34%N) (file_filename f)
    /\ file_contentType f <> []
    /\ Forall (fun c => c <> 13%N /\ c <> 10%N) (file_contentType f) in
  UploadManual.contributor result <> [] ->
  Forall good (UploadManual.files result) ->
  UploadManual.contributor (UploadManual.decodePart toString result part) <> []
  /\ Forall good (UploadManual.files (UploadManual.decodePart toString result part))
  /\ length (UploadManual.files (UploadManual.decodePart toString result part))
     <= S (length (UploadManual.files result)).
Proof.
  intros good Hc Hf. unfold UploadManual.decodePart.
  destruct (_ =? -1)%Z; [auto|].
  destruct (Regex.filenameMatch _) as [fname|] eqn:Em.
  - cbn [UploadManual.files UploadManual.contributor].
    split; [exact Hc|]. split; [|rewrite length_app; simpl; lia].
    apply Forall_app. split; [exact Hf|]. constructor; [|constructor].
    unfold good. cbn [file_filename file_contentType].
    destruct (quoted_Some _ _ _ Em) as [N1 N2].
    split; [exact N1|]. split; [exact N2|].
    destruct (Regex.contentTypeMatch _) as [ct|] eqn:Ec.
    + exact (contentTypeMatch_Some _ _ Ec).
    + split; [discriminate|].
      change (JS.lit "application/octet-stream")
        with (map N_of_ascii (list_ascii_of_string "application/octet-stream")).
      simpl. repeat constructor; discriminate.
  - destruct (Regex.nameMatch _) as [n|]; [|auto].
    destruct (JS.eqb n (JS.lit "contributor")); [|auto].
    cbn [UploadManual.files UploadManual.contributor].
    split; [|auto].
    unfold JS.orElse. destruct (JS.trim _); discriminate.
Qed.

Lemma fold_decodePart_keeps toString parts : forall result,
  let good (f : file) :=
    file_filename f <> []
    /\ Forall (fun c => c <> 34%N) (file_filename f)
    /\ file_contentType f <> []
    /\ Forall (fun c => c <> 13%N /\ c <> 10%N) (file_contentType f) in
  UploadManual.contributor result <> [] ->
  Forall good (UploadManual.files result) ->
  let final := fold_left (UploadManual.decodePart toString) parts result in
  UploadManual.contributor final <> []
  /\ Forall good (UploadManual.files final)
  /\ length (UploadManual.files final)
     <= length parts + length (UploadManual.files result).
Proof.
  induction parts as [|part parts IH]; intros result good Hc Hf; simpl.
  - auto.
  - destruct (decodePart_keeps toString result part Hc Hf) as (C & F & L).
    destruct (IH _ C F) as (C' & F' & L').
    split; [exact C'|]. split; [exact F'|]. lia.
Qed.

(** X15: whatever the buffer, the decoder and the boundary, the result
    of the parser has a contributor that is not the empty string, at
    most one file per raw segment, and for every file a name that is
    not empty and holds no double quote and a content type that is not
    empty and holds no line break. *)
Theorem parseMultipart_result_is_well_formed
    (toString : Buffer.t -> JS.str) (body : Buffer.t)
    (boundary : option JS.str) :
  exists parts result,
    UploadManual.rawParts body (UploadManual.boundaryBuffer boundary)
    = Some parts
    /\ UploadManual.parseMultipart toString body boundary = Some result
    /\ UploadManual.contributor result <> []
    /\ length (UploadManual.files result) <= length parts
    /\ Forall (fun f =>
                 file_filename f <> []
                 /\ Forall (fun c => c <> 34%N) (file_filename f)
                 /\ file_contentType f <> []
                 /\ Forall (fun c => c <> 13%N /\ c <> 10%N)
                      (file_contentType f))
         (UploadManual.files result).
Proof.
  destruct (occurrences_exist body (UploadManual.boundaryBuffer boundary)
              (boundaryBuffer_nonempty boundary)
              (Z.to_nat (Buffer.len body + 1 - 0)) 0%Z (Z.le_refl 0) (le_n _))
    as [occs Hocc].
  pose proof (rawParts_segments body boundary occs Hocc) as R.
  eexists _, _. split; [exact R|].
  unfold UploadManual.parseMultipart. rewrite R. split; [reflexivity|].
  destruct (fold_decodePart_keeps toString
              (delimitedSegments body (UploadManual.boundaryBuffer boundary) occs)
              {| UploadManual.files := [];
                 UploadManual.contributor := JS.lit "Memorial_Guest" |})
    as (C & F & L); [discriminate | constructor |].
  split; [exact C|]. split; [simpl in L; lia | exact F].
Qed.

(** ** The upload handler: a header without boundary *)

Lemma includes_cons c s p :
  JS.includes (c :: s) p = JS.startsWith (c :: s) p || JS.includes s p.
Proof. reflexivity. Qed.

(** A string that does not include the separator is one piece. *)
Lemma split_without_separator sep s : forall cur,
  JS.includes s sep = false ->
  JS.split_from sep s cur 0 = [rev cur ++ s].
Proof.
  induction s as [|c s IH]; intros cur H.
  - simpl. now rewrite app_nil_r.
  - rewrite includes_cons in H. apply orb_false_elim in H as [H1 H2].
    cbn [JS.split_from]. rewrite H1, IH by exact H2.
    simpl. now rewrite <- app_assoc.
Qed.

(** X16: when the content-type header says [multipart/form-data] but
    names no boundary, the handler does not refuse the request: it
    parses the body with the boundary token [undefined], that is, with
    the delimiter [--undefined], and stores what that parse finds. *)
Theorem upload_without_boundary_uses_undefined
    (toString : Buffer.t -> JS.str) w ev ct body :
  UploadManual.httpMethod ev = JS.lit "POST" ->
  credentialsMissing (up_env w) = false ->
  UploadManual.header_content_type ev = Some ct ->
  JS.includes ct (JS.lit "multipart/form-data") = true ->
  JS.includes ct (JS.lit "boundary=") = false ->
  UploadManual.bodyBuffer ev = Fulfilled body ->
  exists parts result,
    UploadManual.rawParts body (Buffer.from (JS.lit "--undefined")) = Some parts
    /\ result
       = fold_left (UploadManual.decodePart toString) parts
           {| UploadManual.files := [];
              UploadManual.contributor := JS.lit "Memorial_Guest" |}
    /\ UploadManual.handler toString w ev
       = Some (storeFiles w (Some (UploadManual.contributor result))
                 (UploadManual.files result)).
Proof.
  intros Hm Hc Hct Hinc Hnb Hb.
  destruct (occurrences_exist body (UploadManual.boundaryBuffer None)
              (boundaryBuffer_nonempty None)
              (Z.to_nat (Buffer.len body + 1 - 0)) 0%Z (Z.le_refl 0) (le_n _))
    as [occs Hocc].
  pose proof (rawParts_segments body None occs Hocc) as R.
  eexists _, _. split; [exact R|]. split; [reflexivity|].
  unfold UploadManual.handler. rewrite Hm, Hc, Hct.
  change (JS.eqb (JS.lit "POST") (JS.lit "OPTIONS")) with false.
  change (JS.eqb (JS.lit "POST") (JS.lit "POST")) with true.
  cbn [negb].
  destruct ct as [|c ct]; [discriminate Hinc|].
  cbn [JS.truthy]. rewrite Hinc, Hb. cbn [negb].
  unfold JS.split. rewrite split_without_separator by exact Hnb.
  cbn [nth_error rev app]. unfold UploadManual.parseMultipart.
  now rewrite R.
Qed.

Lemma upload_without_boundary_uses_undefined_witness :
  UploadManual.handler asciiToString worldAcceptingWrites requestWithoutBoundary
  = Some (storeFiles worldAcceptingWrites (Some (JS.lit "Memorial_Guest"))
            [{| file_filename := JS.lit "a.png";
                file_contentType := JS.lit "image/png";
                file_data := photoBytes |}]).
Proof.
  destruct (upload_without_boundary_uses_undefined asciiToString
              worldAcceptingWrites requestWithoutBoundary
              (JS.lit "multipart/form-data")
              (joinSegments (bytesOf "--undefined")
                 [segmentOf photoHeaders photoBytes] (bytesOf "--" ++ CRLF))
              eq_refl eq_refl eq_refl eq_refl eq_refl eq_refl)
    as (parts & result & R & E & H).
  rewrite H, E.
  assert (P : parts = [segmentOf photoHeaders photoBytes])
    by (vm_compute in R; injection R as <-; reflexivity).
  rewrite P. reflexivity.
Defined.

(** ** The gallery: the shuffle *)

Lemma setAt_swap_head {A} (x a : A) l j :
  nth_error l j = Some a ->
  Permutation (a :: Gallery.setAt j x l) (x :: l).
Proof.
  revert j. induction l as [|y l IH]; intros [|j] H; simpl in *;
    try discriminate.
  - injection H as ->. apply perm_swap.
  - apply IH in H.
    eapply perm_trans; [apply perm_swap|].
    eapply perm_trans; [apply perm_skip, H|]. apply perm_swap.
Qed.

Lemma swap_Permutation {A} (array : list A) : forall i j,
  Permutation (Gallery.swap array i j) array.
Proof.
  unfold Gallery.swap.
  induction array as [|x l IH]; intros i j.
  - destruct i, j; reflexivity.
  - destruct i as [|i], j as [|j]; simpl.
    + reflexivity.
    + destruct (nth_error l j) as [aj|] eqn:Ej; [|reflexivity].
      now apply setAt_swap_head.
    + destruct (nth_error l i) as [ai|] eqn:Ei; [|reflexivity].
      now apply setAt_swap_head.
    + specialize (IH i j).
      destruct (nth_error l i) as [ai|]; [|reflexivity].
      destruct (nth_error l j) as [aj|]; [|reflexivity].
      now apply perm_skip.
Qed.

Lemma shuffleFrom_Permutation {A} r i : forall k (array : list A),
  Permutation (Gallery.shuffleFrom r k i array) array.
Proof.
  induction i as [|i IH]; intros k array; simpl; [reflexivity|].
  eapply perm_trans; [apply IH | apply swap_Permutation].
Qed.

(** X17: whatever the random draws, [shuffleArray] returns a
    rearrangement of its argument: every element is kept, as many times
    as it occurs. *)
Theorem shuffleArray_is_a_permutation {A} (r : Gallery.randomSource)
    (array : list A) :
  Permutation (Gallery.shuffleArray r array) array.
Proof. apply shuffleFrom_Permutation. Qed.

Lemma NoDup_firstn {A} n (l : list A) : NoDup l -> NoDup (firstn n l).
Proof.
  intro H. revert n. induction H as [|x l Hx H IH]; intros [|n]; simpl;
    try constructor; auto.
  intro Hin. apply Hx. now apply In_firstn in Hin.
Qed.

Lemma NoDup_map_filter {A B} (f : A -> B) p (l : list A) :
  NoDup (map f l) -> NoDup (map f (filter p l)).
Proof.
  induction l as [|x l IH]; simpl; intro H; [constructor|].
  inversion H as [|? ? Hx H']; subst.
  destruct (p x); simpl; auto. constructor; auto.
  intro Hin. apply Hx. apply in_map_iff in Hin as (y & Ey & Hy).
  apply filter_In in Hy as [Hy _]. apply in_map_iff. eauto.
Qed.

(** X18: when the keys of the listing are distinct, as the keys of a
    bucket are, no key is selected twice; and when at most fifty
    objects pass the filter, the selection is a rearrangement of all of
    them. *)
Theorem selection_without_repeat
    (toLowerCase : JS.str -> JS.str) (r : Gallery.randomSource)
    (allObjects : list Gallery.s3Object) :
  (NoDup (map Gallery.Key allObjects) ->
   NoDup (map Gallery.Key (Gallery.selection toLowerCase r allObjects)))
  /\ (length (Gallery.mediaFiles toLowerCase allObjects) <= 50 ->
      Permutation (Gallery.selection toLowerCase r allObjects)
        (Gallery.mediaFiles toLowerCase allObjects)).
Proof.
  unfold Gallery.selection. split.
  - intro H. rewrite <- firstn_map. apply NoDup_firstn.
    eapply Permutation_NoDup;
      [apply Permutation_sym, Permutation_map, shuffleFrom_Permutation|].
    now apply NoDup_map_filter.
  - intro H. rewrite firstn_all2.
    + apply shuffleFrom_Permutation.
    + unfold Gallery.shuffleArray. now rewrite shuffleFrom_length.
Qed.

Lemma selection_without_repeat_witness :
  NoDup (map Gallery.Key
           (Gallery.selection asciiLower alwaysZero
              (Gallery.objectsOf firstPage ++ Gallery.objectsOf secondPage))).
Proof.
  apply (proj1 (selection_without_repeat asciiLower alwaysZero
                  (Gallery.objectsOf firstPage ++ Gallery.objectsOf secondPage))).
  vm_compute.
  repeat (constructor; [intro H; simpl in H; intuition discriminate|]).
  constructor.
Defined.

(** ** The gallery: failures and the photos of an answer *)

(** The loop over continuing pages followed by a failed request. *)
Lemma listAll_failure bucket pages : forall e later allObjects token log,
  Forall (fun r => JS.truthy (Gallery.nextToken r) = true) pages ->
  Gallery.listAll bucket (map Fulfilled pages ++ Threw e :: later)
    allObjects token log
  = Some (Threw e,
          log ++ map (Gallery.ListObjectsV2 bucket 1000)
                   (token :: map Gallery.nextToken pages)).
Proof.
  induction pages as [|r pages IH]; intros e later allObjects token log HF.
  - reflexivity.
  - inversion HF as [|? ? Hr HF']; subst.
    cbn [app map Gallery.listAll]. rewrite Hr, IH by assumption.
    cbn [map]. now rewrite <- app_assoc.
Qed.

(** X19: the enumeration is all or nothing: when a list request fails
    after any number of pages, the handler answers 500 "Failed to fetch
    gallery" with the message of the failure, nothing of the pages
    already listed is shown, and no URL is signed. *)
Theorem gallery_listing_failure_is_total
    (toLowerCase : JS.str -> JS.str) w pages e later :
  credentialsMissing (Gallery.env w) = false ->
  Gallery.listing w = map Fulfilled pages ++ Threw e :: later ->
  Forall (fun r => JS.truthy (Gallery.nextToken r) = true) pages ->
  Gallery.handler toLowerCase w (JS.lit "GET")
  = Some ({| statusCode := 500;
             responseBody :=
               ErrorDetailsBody (JS.lit "Failed to fetch gallery") (message e) |},
          map (Gallery.ListObjectsV2 (R2_BUCKET_NAME (Gallery.env w)) 1000)
            (None :: map Gallery.nextToken pages)).
Proof.
  intros Hc Hl HF. unfold Gallery.handler.
  change (JS.eqb (JS.lit "GET") (JS.lit "OPTIONS")) with false.
  change (JS.eqb (JS.lit "GET") (JS.lit "GET")) with true.
  cbn [negb]. rewrite Hc, Hl, listAll_failure by exact HF.
  reflexivity.
Qed.

Lemma gallery_listing_failure_is_total_witness :
  Gallery.handler asciiLower worldFailingSecondPage (JS.lit "GET")
  = Some ({| statusCode := 500;
             responseBody :=
               ErrorDetailsBody (JS.lit "Failed to fetch gallery")
                 (JS.lit "connect ETIMEDOUT") |},
          [Gallery.ListObjectsV2 (JS.lit "family-archive-uploads") 1000 None;
           Gallery.ListObjectsV2 (JS.lit "family-archive-uploads") 1000
             (Some (JS.lit "page-2"))]).
Proof.
  exact (gallery_listing_failure_is_total asciiLower worldFailingSecondPage
           [firstPage] _ [] eq_refl eq_refl
           (Forall_cons firstPage eq_refl (Forall_nil _))).
Defined.

Lemma all_map_threw {A B} (f : A -> outcome B) items a e :
  In a items -> f a = Threw e ->
  exists a' e', In a' items /\ f a' = Threw e'
                /\ Gallery.all (map f items) = Threw e'.
Proof.
  induction items as [|x items IH]; simpl; [tauto|].
  intros Hin Ha. destruct (f x) as [b|ex] eqn:Ex.
  - destruct Hin as [->|Hin]; [congruence|].
    destruct (IH Hin Ha) as (a' & e' & Hin' & Ha' & E).
    exists a', e'. rewrite E. auto.
  - exists x, ex. auto.
Qed.

(** X20: there is no partial gallery: when the listing completes and
    the signer refuses the URL of any selected object, the handler
    answers 500 "Failed to fetch gallery" with the message of a refused
    signature, after asking a URL for every selected object. *)
Theorem gallery_signing_failure_is_total
    (toLowerCase : JS.str -> JS.str) w allObjects log obj e :
  credentialsMissing (Gallery.env w) = false ->
  Gallery.listAll (R2_BUCKET_NAME (Gallery.env w)) (Gallery.listing w) [] None []
  = Some (Fulfilled allObjects, log) ->
  In obj (Gallery.selection toLowerCase (Gallery.random w) allObjects) ->
  Gallery.getSignedUrl w (R2_BUCKET_NAME (Gallery.env w)) (Gallery.Key obj)
    3600%Z = Threw e ->
  exists obj' e',
    In obj' (Gallery.selection toLowerCase (Gallery.random w) allObjects)
    /\ Gallery.getSignedUrl w (R2_BUCKET_NAME (Gallery.env w))
         (Gallery.Key obj') 3600%Z = Threw e'
    /\ Gallery.handler toLowerCase w (JS.lit "GET")
       = Some ({| statusCode := 500;
                  responseBody :=
                    ErrorDetailsBody (JS.lit "Failed to fetch gallery")
                      (message e') |},
               log ++
               map (fun o =>
                      Gallery.GetSignedUrl (R2_BUCKET_NAME (Gallery.env w))
                        (Gallery.Key o) 3600)
                 (Gallery.selection toLowerCase (Gallery.random w) allObjects)).
Proof.
  intros Hc Hl Hin He.
  destruct (all_map_threw (Gallery.signOne toLowerCase w) _ obj e Hin)
    as (obj' & e' & Hin' & Ho & E).
  { unfold Gallery.signOne. now rewrite He. }
  exists obj', e'. split; [exact Hin'|]. split.
  - unfold Gallery.signOne in Ho.
    destruct (Gallery.getSignedUrl w _ (Gallery.Key obj') 3600%Z);
      [discriminate | congruence].
  - unfold Gallery.handler.
    change (JS.eqb (JS.lit "GET") (JS.lit "OPTIONS")) with false.
    change (JS.eqb (JS.lit "GET") (JS.lit "GET")) with true.
    cbn [negb]. rewrite Hc, Hl, E. reflexivity.
Qed.

Lemma gallery_signing_failure_is_total_witness :
  exists log,
    Gallery.handler asciiLower worldRefusingOneSignature (JS.lit "GET")
    = Some ({| statusCode := 500;
               responseBody :=
                 ErrorDetailsBody (JS.lit "Failed to fetch gallery")
                   (JS.lit "could not load credentials") |}, log)
    /\ length log = 4.
Proof.
  destruct (gallery_signing_failure_is_total asciiLower
              worldRefusingOneSignature
              (Gallery.objectsOf firstPage ++ Gallery.objectsOf secondPage)
              [Gallery.ListObjectsV2 (JS.lit "family-archive-uploads") 1000 None;
               Gallery.ListObjectsV2 (JS.lit "family-archive-uploads") 1000
                 (Some (JS.lit "page-2"))]
              (object "Bob_UPLOADS/a.JPG")
              {| name := JS.lit "CredentialsProviderError";
                 message := JS.lit "could not load credentials" |}
              eq_refl eq_refl (or_intror (or_introl eq_refl)) eq_refl)
    as (obj' & e' & _ & Ho & H).
  assert (E : e' = {| name := JS.lit "CredentialsProviderError";
                      message := JS.lit "could not load credentials" |}).
  { cbn [Gallery.getSignedUrl worldRefusingOneSignature] in Ho.
    unfold signerRefusingOne in Ho.
    destruct (JS.eqb _ _); [congruence | discriminate]. }
  subst e'. eexists. split; [exact H | reflexivity].
Defined.

(** X21: in a gallery answer, the photos are the selected objects in
    the order of the selection, one photo per object; each carries the
    key, the size and the modification time of its object, and its URL
    is the one the signer gave for that object's own key, in the
    configured bucket, for 3600 seconds; the answer is a 200, reached by
    a GET, after the list requests and one signature per photo. *)
Theorem gallery_photos_match_selection
    (toLowerCase : JS.str -> JS.str) w httpMethod resp log photos total :
  Gallery.handler toLowerCase w httpMethod = Some (resp, log) ->
  responseBody resp = GalleryBody photos total ->
  httpMethod = JS.lit "GET" /\ statusCode resp = 200%Z
  /\ exists allObjects listLog,
       Gallery.listAll (R2_BUCKET_NAME (Gallery.env w)) (Gallery.listing w)
         [] None []
       = Some (Fulfilled allObjects, listLog)
       /\ log = listLog ++
                map (fun o =>
                       Gallery.GetSignedUrl (R2_BUCKET_NAME (Gallery.env w))
                         (Gallery.Key o) 3600)
                  (Gallery.selection toLowerCase (Gallery.random w) allObjects)
       /\ Forall2
            (fun obj p =>
               Gallery.getSignedUrl w (R2_BUCKET_NAME (Gallery.env w))
                 (Gallery.Key obj) 3600%Z = Fulfilled (ph_url p)
               /\ ph_key p = Gallery.Key obj
               /\ ph_size p = Gallery.Size obj
               /\ ph_lastModified p = Gallery.LastModified obj
               /\ p = Gallery.project toLowerCase obj (ph_url p))
            (Gallery.selection toLowerCase (Gallery.random w) allObjects)
            photos.
Proof.
  unfold Gallery.handler.
  destruct (JS.eqb httpMethod (JS.lit "OPTIONS"));
    [intros H; injection H as <- <-; discriminate|].
  destruct (JS.eqb httpMethod (JS.lit "GET")) eqn:Em; cbn [negb];
    [|intros H; injection H as <- <-; discriminate].
  apply JS_eqb_eq in Em.
  destruct (credentialsMissing (Gallery.env w));
    [intros H; injection H as <- <-; discriminate|].
  destruct (Gallery.listAll _ _ _ _ _) as [[[allObjects|e] log0]|];
    [| intros H; injection H as <- <-; discriminate | discriminate].
  destruct (Gallery.all _) as [ps|e] eqn:Eall;
    [| intros H; injection H as <- <-; discriminate].
  intros H Hb. injection H as <- <-. simpl in Hb. injection Hb as <- <-.
  split; [exact Em|]. split; [reflexivity|].
  exists allObjects, log0. split; [reflexivity|]. split; [reflexivity|].
  apply all_map_fulfilled in Eall.
  induction Eall as [|obj p objs ps' Hp _ IH]; constructor; auto.
  unfold Gallery.signOne in Hp.
  destruct (Gallery.getSignedUrl _ _ _ _) as [url|]; [|discriminate].
  injection Hp as <-. repeat split; reflexivity.
Qed.

Lemma gallery_photos_match_selection_witness :
  exists resp log photos total,
    Gallery.handler asciiLower twoPageWorld (JS.lit "GET") = Some (resp, log)
    /\ responseBody resp = GalleryBody photos total
    /\ statusCode resp = 200%Z
    /\ map ph_url photos
       = [JS.lit "https://signed.example/Ann_Lee_UPLOADS/clip.mov";
          JS.lit "https://signed.example/Bob_UPLOADS/a.JPG"]
    /\ map ph_contributor photos = [JS.lit "Ann Lee"; JS.lit "Bob"].
Proof.
  eexists _, _, _, _.
  split; [vm_compute; reflexivity|].
  split; [reflexivity|].
  split; [|split; reflexivity].
  eapply (gallery_photos_match_selection asciiLower twoPageWorld (JS.lit "GET"));
    [vm_compute; reflexivity | reflexivity].
Defined.

(** ** The gallery: kinds of media *)

Lemma endsWith_app s e :
  JS.endsWith s e = true -> exists pre, s = pre ++ e.
Proof.
  unfold JS.endsWith. intro H. apply andb_prop in H as [_ H].
  apply JS_eqb_eq in H.
  exists (firstn (length s - length e) s).
  rewrite <- (firstn_skipn (length s - length e) s) at 1.
  now rewrite H.
Qed.

Lemma last_app_nonempty {A} (pre e : list A) d :
  e <> [] -> last (pre ++ e) d = last e d.
Proof.
  intro He. induction pre as [|x pre IH]; [reflexivity|].
  simpl. rewrite IH. destruct (pre ++ e) eqn:E; [|reflexivity].
  apply app_eq_nil in E as [_ E]. contradiction.
Qed.

Lemma endsWith_last s e :
  e <> [] -> JS.endsWith s e = true -> last s 0%N = last e 0%N.
Proof.
  intros He H. apply endsWith_app in H as [pre ->].
  now apply last_app_nonempty.
Qed.

(** X22: no gallery entry is flagged both as a video and as a HEIC
    image. *)
Theorem photo_is_not_both_video_and_heic
    (toLowerCase : JS.str -> JS.str) (obj : Gallery.s3Object) (url : JS.str) :
  ph_isVideo (Gallery.project toLowerCase obj url)
  && ph_isHeic (Gallery.project toLowerCase obj url) = false.
Proof.
  unfold Gallery.project. cbn [ph_isVideo ph_isHeic].
  set (key := toLowerCase (Gallery.Key obj)).
  destruct (existsb _ (map JS.lit [".mp4"; ".mov"; ".webm"]%string)) eqn:Ev;
    [|reflexivity].
  destruct (existsb _ (map JS.lit [".heic"; ".heif"]%string)) eqn:Eh;
    [|reflexivity].
  exfalso.
  apply existsb_exists in Ev as (v & Hv & Ev).
  apply existsb_exists in Eh as (h & Hh & Eh).
  assert (Lv : last key 0%N = last v 0%N)
    by (apply endsWith_last; [|exact Ev];
        simpl in Hv; intuition (subst; discriminate)).
  assert (Lh : last key 0%N = last h 0%N)
    by (apply endsWith_last; [|exact Eh];
        simpl in Hh; intuition (subst; discriminate)).
  rewrite Lv in Lh. clear - Hv Hh Lh.
  simpl in Hv, Hh.
  destruct Hv as [<-|[<-|[<-|[]]]]; destruct Hh as [<-|[<-|[]]];
    vm_compute in Lh; discriminate Lh.
Qed.

(** ** Storage is reached only by validated requests *)

(** X23: the upload handlers and the gallery handler call the storage
    service only after their checks: the busboy handler only for a POST
    with credentials configured and a form that parsed with at least
    one file; the handler with its own parser only for a POST with
    credentials configured, a content type that includes
    [multipart/form-data] and a body that could be read; the gallery
    only for a GET with credentials configured. *)
Theorem storage_calls_only_after_validation :
  (forall w ev resp log,
     UploadBusboy.handler w ev = (resp, log) -> log <> [] ->
     UploadBusboy.httpMethod ev = JS.lit "POST"
     /\ credentialsMissing (up_env w) = false
     /\ exists form,
          UploadBusboy.parseMultipartForm ev = Fulfilled form
          /\ UploadBusboy.files form <> [])
  /\ (forall toString w ev resp log,
        UploadManual.handler toString w ev = Some (resp, log) -> log <> [] ->
        UploadManual.httpMethod ev = JS.lit "POST"
        /\ credentialsMissing (up_env w) = false
        /\ (exists ct,
              (UploadManual.header_content_type ev = Some ct
               \/ UploadManual.header_Content_Type ev = Some ct)
              /\ JS.includes ct (JS.lit "multipart/form-data") = true)
        /\ exists body, UploadManual.bodyBuffer ev = Fulfilled body)
  /\ (forall toLowerCase w httpMethod resp log,
        Gallery.handler toLowerCase w httpMethod = Some (resp, log) ->
        log <> [] ->
        httpMethod = JS.lit "GET" /\ credentialsMissing (Gallery.env w) = false).
Proof.
  split; [|split].
  - intros w ev resp log. unfold UploadBusboy.handler.
    destruct (JS.eqb (UploadBusboy.httpMethod ev) (JS.lit "OPTIONS"));
      [intros H; injection H as <- <-; congruence|].
    destruct (JS.eqb (UploadBusboy.httpMethod ev) (JS.lit "POST")) eqn:Em;
      cbn [negb]; [|intros H; injection H as <- <-; congruence].
    apply JS_eqb_eq in Em.
    destruct (credentialsMissing (up_env w));
      [intros H; injection H as <- <-; congruence|].
    destruct (UploadBusboy.parseMultipartForm ev) as [form|e];
      [|intros H; injection H as <- <-; congruence].
    destruct (UploadBusboy.files form) as [|f fs] eqn:Ef;
      [intros H; injection H as <- <-; congruence|].
    intros _ _. repeat split; auto. exists form. rewrite Ef.
    split; [reflexivity | discriminate].
  - intros toString w ev resp log. unfold UploadManual.handler.
    destruct (JS.eqb (UploadManual.httpMethod ev) (JS.lit "OPTIONS"));
      [intros H; injection H as <- <-; congruence|].
    destruct (JS.eqb (UploadManual.httpMethod ev) (JS.lit "POST")) eqn:Em;
      cbn [negb]; [|intros H; injection H as <- <-; congruence].
    apply JS_eqb_eq in Em.
    destruct (credentialsMissing (up_env w));
      [intros H; injection H as <- <-; congruence|].
    set (contentType :=
           if JS.truthy (UploadManual.header_content_type ev)
           then UploadManual.header_content_type ev
           else UploadManual.header_Content_Type ev).
    assert (Hct : forall ct, contentType = Some ct ->
                    UploadManual.header_content_type ev = Some ct
                    \/ UploadManual.header_Content_Type ev = Some ct)
      by (unfold contentType;
          destruct (JS.truthy (UploadManual.header_content_type ev)); auto).
    destruct contentType as [[|c ct]|];
      try (intros H; injection H as <- <-; congruence).
    destruct (JS.includes (c :: ct) (JS.lit "multipart/form-data")) eqn:Ei;
      cbn [negb]; [|intros H; injection H as <- <-; congruence].
    destruct (UploadManual.bodyBuffer ev) as [body|e];
      [|intros H; injection H as <- <-; congruence].
    intros _ _. split; [exact Em|]. split; [reflexivity|]. split.
    + exists (c :: ct). split; [apply Hct; reflexivity | exact Ei].
    + now exists body.
  - intros toLowerCase w httpMethod resp log. unfold Gallery.handler.
    destruct (JS.eqb httpMethod (JS.lit "OPTIONS"));
      [intros H; injection H as <- <-; congruence|].
    destruct (JS.eqb httpMethod (JS.lit "GET")) eqn:Em;
      cbn [negb]; [|intros H; injection H as <- <-; congruence].
    apply JS_eqb_eq in Em.
    destruct (credentialsMissing (Gallery.env w));
      [intros H; injection H as <- <-; congruence|].
    auto.
Qed.

(** ** The file name pattern *)

Lemma startsWith_app_long p : forall a rest,
  length p <= length a ->
  JS.startsWith (a ++ rest) p = JS.startsWith a p.
Proof.
  induction p as [|y p IH]; intros a rest H.
  - now rewrite !startsWith_nil.
  - destruct a as [|x a]; simpl in *; [lia|].
    rewrite IH by lia. reflexivity.
Qed.

Lemma startsWith_self p rest : JS.startsWith (p ++ rest) p = true.
Proof.
  induction p as [|y p IH]; simpl; [apply startsWith_nil|].
  now rewrite N.eqb_refl, IH.
Qed.

Lemma run_app_stop p f c rest :
  Forall (fun a => p a = true) f -> p c = false ->
  Regex.run p (f ++ c :: rest) = f.
Proof.
  intros F Hc. induction F as [|a f Ha F IH]; simpl.
  - now rewrite Hc.
  - now rewrite Ha, IH.
Qed.

(** The attribute pattern finds the first occurrence of its literal
    when a quoted, non-empty text follows it. *)
Lemma quoted_first literal pre : forall f post,
  f <> [] -> Forall (fun c => c <> 34%N) f ->
  JS.includes (pre ++ literal) (literal ++ [34%N]) = false ->
  Regex.quoted (literal ++ [34%N])
    (pre ++ (literal ++ [34%N]) ++ f ++ 34%N :: post)
  = Some f.
Proof.
  induction pre as [|c pre IH]; intros f post Hne Hf Hinc;
    rewrite quoted_unfold.
  - simpl app. rewrite startsWith_self, skipn_length_app.
    unfold Regex.quotedHere.
    rewrite run_app_stop; [| | reflexivity].
    + destruct f as [|a f]; [contradiction|].
      unfold JS.str, JS.char in *.
      now rewrite (skipn_length_app (a :: f) (34%N :: post)).
    + eapply Forall_impl; [|exact Hf]. intros a Ha.
      unfold Regex.notQuote. now apply negb_true_iff, N.eqb_neq.
  - change ((c :: pre) ++ literal) with (c :: pre ++ literal) in Hinc.
    rewrite includes_cons in Hinc. apply orb_false_elim in Hinc as [H1 H2].
    assert (S : JS.startsWith
                  ((c :: pre) ++ (literal ++ [34%N]) ++ f ++ 34%N :: post)
                  (literal ++ [34%N]) = false).
    { rewrite <- app_assoc, app_assoc.
      rewrite startsWith_app_long; [exact H1|].
      simpl. rewrite !length_app. simpl. lia. }
    rewrite S. simpl app. now apply IH.
Qed.

(** X24: in a header block where [filename=] followed by a double
    quote first occurs before a non-empty text without double quote
    that a double quote closes, the file name the parser takes is that
    text. *)
Theorem filenameMatch_takes_first_quoted_name (pre f post : JS.str) :
  f <> [] -> Forall (fun c => c <> 34%N) f ->
  JS.includes (pre ++ JS.lit "filename=") (JS.lit "filename=" ++ [34%N]) = false ->
  Regex.filenameMatch
    (pre ++ (JS.lit "filename=" ++ [34%N]) ++ f ++ 34%N :: post)
  = Some f.
Proof.
  intros Hne Hf Hinc. unfold Regex.filenameMatch.
  now apply quoted_first.
Qed.

Lemma filenameMatch_takes_first_quoted_name_witness :
  Regex.filenameMatch (asciiToString photoHeaders) = Some (JS.lit "a.png").
Proof.
  refine (filenameMatch_takes_first_quoted_name
            (asciiToString
               (CRLF ++ bytesOf "Content-Disposition: form-data; name=" ++ [x22]
                  ++ bytesOf "photo" ++ [x22] ++ bytesOf "; "))
            (JS.lit "a.png")
            (asciiToString (CRLF ++ bytesOf "Content-Type: image/png"))
            _ _ eq_refl).
  - discriminate.
  - vm_compute. repeat constructor; discriminate.
Defined.

(** ** The contributor field *)

(** A well-delimited segment, seen by the decoder: its header block
    and its bytes. *)
Lemma decodePart_segment toString result h d :
  Buffer.search UploadManual.CRLFCRLF (h ++ UploadManual.CRLFCRLF) 0
  = Some (length h) ->
  UploadManual.decodePart toString result (segmentOf h d)
  = match Regex.filenameMatch (toString h) with
    | Some filename =>
        {| UploadManual.files :=
             UploadManual.files result ++
             [{| file_filename := filename;
                 file_contentType :=
                   match Regex.contentTypeMatch (toString h) with
                   | Some ct => ct
                   | None => JS.lit "application/octet-stream"
                   end;
                 file_data := d |}];
           UploadManual.contributor := UploadManual.contributor result |}
    | None =>
        match Regex.nameMatch (toString h) with
        | Some n =>
            if JS.eqb n (JS.lit "contributor") then
              {| UploadManual.files := UploadManual.files result;
                 UploadManual.contributor :=
                   JS.orElse (Some (JS.trim (toString d)))
                     (JS.lit "Memorial_Guest") |}
            else result
        | None => result
        end
    end.
Proof.
  intros Hs. unfold UploadManual.decodePart, segmentOf.
  change [x0d; x0a; x0d; x0a] with UploadManual.CRLFCRLF.
  pose proof (indexOf_after [] (h ++ UploadManual.CRLFCRLF ++ d ++ [x0d; x0a])
                UploadManual.CRLFCRLF) as E.
  rewrite (search_first _ h _ Hs) in E.
  change ([] ++ h ++ UploadManual.CRLFCRLF ++ d ++ [x0d; x0a])
    with (h ++ UploadManual.CRLFCRLF ++ d ++ [x0d; x0a]) in E.
  change (Buffer.len []) with 0%Z in E. rewrite E.
  destruct (Z.eqb_spec (0 + Z.of_nat (length h)) (-1)); [lia|].
  pose proof (slice_middle [] h (UploadManual.CRLFCRLF ++ d ++ [x0d; x0a])) as Sl.
  change (Buffer.len []) with 0%Z in Sl.
  change ([] ++ h ++ UploadManual.CRLFCRLF ++ d ++ [x0d; x0a])
    with (h ++ UploadManual.CRLFCRLF ++ d ++ [x0d; x0a]) in Sl.
  rewrite Sl.
  assert (C : UploadManual.cleanContent
                (h ++ UploadManual.CRLFCRLF ++ d ++ [x0d; x0a])
                (0 + Z.of_nat (length h)) = d).
  { rewrite cleanContent_firstn; [| symmetry; exact E | lia].
    replace (Z.to_nat (0 + Z.of_nat (length h) + 4))
      with (length (h ++ UploadManual.CRLFCRLF))
      by (rewrite length_app; simpl; lia).
    rewrite app_assoc, skipn_length_app.
    apply firstn_without_last_two. }
  rewrite C. reflexivity.
Qed.

(** X25: the contributor field sets the contributor of the whole
    form wherever it stands among the file parts: with file parts
    before it and after it, the parser returns all the files, in order,
    and as contributor the trimmed text of the field, or
    [Memorial_Guest] when that text is empty. *)
Theorem contributor_field_applies_wherever_it_stands
    (toString : Buffer.t -> JS.str) (boundary : option JS.str)
    (before after : list encodedPart) (headers value tail : Buffer.t) :
  Forall (wellDelimited toString (UploadManual.boundaryBuffer boundary)) before ->
  Forall (wellDelimited toString (UploadManual.boundaryBuffer boundary)) after ->
  Buffer.search (UploadManual.boundaryBuffer boundary)
    (segmentOf headers value ++ UploadManual.boundaryBuffer boundary) 0
  = Some (length (segmentOf headers value)) ->
  Buffer.search UploadManual.CRLFCRLF (headers ++ UploadManual.CRLFCRLF) 0
  = Some (length headers) ->
  Regex.filenameMatch (toString headers) = None ->
  Regex.nameMatch (toString headers) = Some (JS.lit "contributor") ->
  Buffer.search (UploadManual.boundaryBuffer boundary) tail 0 = None ->
  UploadManual.parseMultipart toString
    (joinSegments (UploadManual.boundaryBuffer boundary)
       (map (fun p => segmentOf (ep_headers p) (ep_data p)) before
        ++ segmentOf headers value
        :: map (fun p => segmentOf (ep_headers p) (ep_data p)) after)
       tail)
    boundary
  = Some {| UploadManual.files := map (decodedFile toString) (before ++ after);
            UploadManual.contributor :=
              JS.orElse (Some (JS.trim (toString value)))
                (JS.lit "Memorial_Guest") |}.
Proof.
  intros Hb Ha Hseg Hh Hf Hn Ht. unfold UploadManual.parseMultipart.
  assert (W : forall ps,
              Forall (wellDelimited toString
                        (UploadManual.boundaryBuffer boundary)) ps ->
              Forall (fun p =>
                        Buffer.search UploadManual.CRLFCRLF
                          (ep_headers p ++ UploadManual.CRLFCRLF) 0
                        = Some (length (ep_headers p))
                        /\ Regex.filenameMatch (toString (ep_headers p))
                           = Some (ep_filename p)) ps).
  { intros ps F. eapply Forall_impl; [|exact F]. intros p (_ & H1 & H2). auto. }
  assert (D : forall ps,
              Forall (wellDelimited toString
                        (UploadManual.boundaryBuffer boundary)) ps ->
              Forall (fun s =>
                        Buffer.search (UploadManual.boundaryBuffer boundary)
                          (s ++ UploadManual.boundaryBuffer boundary) 0
                        = Some (length s))
                (map (fun p => segmentOf (ep_headers p) (ep_data p)) ps)).
  { intros ps F. apply Forall_map. eapply Forall_impl; [|exact F].
    intros p (H1 & _). exact H1. }
  rewrite rawParts_joined; [| apply boundaryBuffer_nonempty | | exact Ht].
  - rewrite fold_left_app. cbn [fold_left].
    rewrite (fold_decodePart_files toString before _ (W _ Hb)).
    rewrite (decodePart_segment toString _ headers value Hh), Hf, Hn.
    change (JS.eqb (JS.lit "contributor") (JS.lit "contributor")) with true.
    cbv iota.
    rewrite (fold_decodePart_files toString after _ (W _ Ha)).
    cbn [UploadManual.files UploadManual.contributor app].
    now rewrite map_app.
  - apply Forall_app. split; [apply D, Hb|].
    constructor; [exact Hseg | apply D, Ha].
Qed.

Lemma contributor_field_applies_wherever_it_stands_witness :
  UploadManual.parseMultipart asciiToString
    (joinSegments (bytesOf "--XYZ")
       [segmentOf photoHeaders photoBytes;
        segmentOf contributorHeaders (bytesOf "  Ann Lee ");
        segmentOf photoHeaders (bytesOf "second")]
       (bytesOf "--" ++ CRLF))
    (Some (JS.lit "XYZ"))
  = Some {| UploadManual.files :=
              [{| file_filename := JS.lit "a.png";
                  file_contentType := JS.lit "image/png";
                  file_data := photoBytes |};
               {| file_filename := JS.lit "a.png";
                  file_contentType := JS.lit "image/png";
                  file_data := bytesOf "second" |}];
            UploadManual.contributor := JS.lit "Ann Lee" |}.
Proof.
  apply (contributor_field_applies_wherever_it_stands asciiToString
           (Some (JS.lit "XYZ")) [encodedPhoto]
           [{| ep_headers := photoHeaders; ep_data := bytesOf "second";
               ep_filename := JS.lit "a.png" |}]
           contributorHeaders (bytesOf "  Ann Lee ") (bytesOf "--" ++ CRLF));
    try reflexivity; repeat constructor.
Defined.

(** ** The boundary token *)

Lemma split_skip sep x : forall b cur,
  JS.split_from sep (x ++ b) cur (length x) = JS.split_from sep b cur 0.
Proof.
  induction x as [|c x IH]; intros b cur; [reflexivity|].
  simpl. apply IH.
Qed.

(** Splitting at the first occurrence of the separator. *)
Lemma split_first sep0 sep pre : forall b cur,
  JS.includes (pre ++ removelast (sep0 :: sep)) (sep0 :: sep) = false ->
  JS.split_from (sep0 :: sep) (pre ++ (sep0 :: sep) ++ b) cur 0
  = (rev cur ++ pre) :: JS.split_from (sep0 :: sep) b [] 0.
Proof.
  induction pre as [|c pre IH]; intros b cur H.
  - cbn [app JS.split_from].
    change (sep0 :: sep ++ b) with ((sep0 :: sep) ++ b).
    rewrite startsWith_self, app_nil_r. cbn [length Nat.sub].
    rewrite Nat.sub_0_r. now rewrite split_skip.
  - change ((c :: pre) ++ removelast (sep0 :: sep))
      with (c :: (pre ++ removelast (sep0 :: sep))) in H.
    rewrite includes_cons in H. apply orb_false_elim in H as [H1 H2].
    assert (S : JS.startsWith ((c :: pre) ++ (sep0 :: sep) ++ b) (sep0 :: sep)
                = false).
    { assert (E : sep0 :: sep
                  = removelast (sep0 :: sep) ++ [last (sep0 :: sep) 0%N])
        by (apply app_removelast_last; discriminate).
      set (body := removelast (sep0 :: sep)) in *.
      assert (R : (c :: pre) ++ (sep0 :: sep) ++ b
                  = ((c :: pre) ++ body) ++ last (sep0 :: sep) 0%N :: b).
      { rewrite <- app_assoc. f_equal. rewrite E at 1.
        now rewrite <- app_assoc. }
      rewrite R, startsWith_app_long; [exact H1|].
      apply (f_equal (@length _)) in E. rewrite !length_app in *.
      simpl in *. lia. }
    change ((c :: pre) ++ (sep0 :: sep) ++ b)
      with (c :: (pre ++ (sep0 :: sep) ++ b)) in *.
    cbn [JS.split_from]. rewrite S, IH by exact H2.
    simpl. now rewrite <- app_assoc.
Qed.

Lemma boundary_of_header pre b :
  JS.includes (pre ++ JS.lit "boundary") (JS.lit "boundary=") = false ->
  JS.includes b (JS.lit "boundary=") = false ->
  nth_error (JS.split (pre ++ JS.lit "boundary=" ++ b) (JS.lit "boundary=")) 1
  = Some b.
Proof.
  intros Hp Hb. unfold JS.split.
  change (JS.lit "boundary=") with (98%N :: JS.lit "oundary=") in *.
  rewrite split_first by exact Hp.
  now rewrite split_without_separator by exact Hb.
Qed.

Lemma boundary_before_further pre b more :
  JS.includes (pre ++ JS.lit "boundary") (JS.lit "boundary=") = false ->
  JS.includes (b ++ JS.lit "boundary") (JS.lit "boundary=") = false ->
  nth_error
    (JS.split (pre ++ JS.lit "boundary=" ++ b ++ JS.lit "boundary=" ++ more)
       (JS.lit "boundary=")) 1
  = Some b.
Proof.
  intros Hp Hb. unfold JS.split.
  change (JS.lit "boundary=") with (98%N :: JS.lit "oundary=") in *.
  rewrite split_first by exact Hp.
  rewrite split_first by exact Hb.
  reflexivity.
Qed.

(** X26: the boundary token is everything that follows the first
    [boundary=] of the content-type header, up to a further
    [boundary=] if there is one and to the end of the header otherwise:
    parameters that follow in the header and quotes around the token
    are part of it. *)
Theorem boundary_token_is_rest_of_header (pre b : JS.str) :
  JS.includes (pre ++ JS.lit "boundary") (JS.lit "boundary=") = false ->
  (JS.includes b (JS.lit "boundary=") = false ->
   nth_error (JS.split (pre ++ JS.lit "boundary=" ++ b) (JS.lit "boundary=")) 1
   = Some b
   /\ UploadManual.boundaryBuffer
        (nth_error (JS.split (pre ++ JS.lit "boundary=" ++ b)
                      (JS.lit "boundary=")) 1)
      = x2d :: x2d :: Buffer.from b)
  /\ (JS.includes (b ++ JS.lit "boundary") (JS.lit "boundary=") = false ->
      forall more,
        nth_error
          (JS.split
             (pre ++ JS.lit "boundary=" ++ b ++ JS.lit "boundary=" ++ more)
             (JS.lit "boundary=")) 1
        = Some b
        /\ UploadManual.boundaryBuffer
             (nth_error
                (JS.split
                   (pre ++ JS.lit "boundary=" ++ b ++ JS.lit "boundary="
                        ++ more)
                   (JS.lit "boundary=")) 1)
           = x2d :: x2d :: Buffer.from b).
Proof.
  intros Hp. split.
  - intro Hb. rewrite (boundary_of_header pre b Hp Hb). split; reflexivity.
  - intros Hb more. rewrite (boundary_before_further pre b more Hp Hb).
    split; reflexivity.
Qed.

Lemma boundary_token_is_rest_of_header_witness :
  nth_error
    (JS.split (JS.lit "multipart/form-data; boundary=XYZ; charset=utf-8")
       (JS.lit "boundary=")) 1
  = Some (JS.lit "XYZ; charset=utf-8")
  /\ nth_error
       (JS.split (JS.lit "multipart/form-data; boundary=A; x-boundary=B")
          (JS.lit "boundary=")) 1
     = Some (JS.lit "A; x-").
Proof.
  split.
  - exact (proj1 (proj1 (boundary_token_is_rest_of_header
                           (JS.lit "multipart/form-data; ")
                           (JS.lit "XYZ; charset=utf-8") eq_refl) eq_refl)).
  - exact (proj1 (proj2 (boundary_token_is_rest_of_header
                           (JS.lit "multipart/form-data; ")
                           (JS.lit "A; x-") eq_refl) eq_refl (JS.lit "B"))).
Defined.

(** ** A push of files, from the request to the bucket *)

(** X27: a POST whose header names a boundary and whose body holds
    file parts joined under that boundary, each well delimited, sent to
    a service that accepts the writes: the handler with its own parser
    writes one object per part, in order, with the bytes of the part
    unchanged and the content type of its header block, under
    [Memorial_Guest_UPLOADS/], the timestamp of the call, an underscore
    and the sanitised file name; it answers 200, counts the files and
    lists each with its key and its size. *)
Theorem manual_upload_stores_encoded_files
    (toString : Buffer.t -> JS.str) w ev (pre b : JS.str)
    (parts : list encodedPart) (tail : Buffer.t) :
  UploadManual.httpMethod ev = JS.lit "POST" ->
  credentialsMissing (up_env w) = false ->
  UploadManual.header_content_type ev
  = Some (pre ++ JS.lit "boundary=" ++ b) ->
  JS.includes (pre ++ JS.lit "boundary=" ++ b) (JS.lit "multipart/form-data")
  = true ->
  JS.includes (pre ++ JS.lit "boundary") (JS.lit "boundary=") = false ->
  JS.includes b (JS.lit "boundary=") = false ->
  UploadManual.bodyBuffer ev
  = Fulfilled
      (joinSegments (UploadManual.boundaryBuffer (Some b))
         (map (fun p => segmentOf (ep_headers p) (ep_data p)) parts) tail) ->
  Forall (wellDelimited toString (UploadManual.boundaryBuffer (Some b))) parts ->
  Buffer.search (UploadManual.boundaryBuffer (Some b)) tail 0 = None ->
  (forall before c after,
     map (commandFor w (JS.lit "Memorial_Guest_UPLOADS")
            (timestampOf (up_toISOString w)))
       (map (decodedFile toString) parts)
     = before ++ c :: after ->
     send w before c = Fulfilled tt) ->
  UploadManual.handler toString w ev
  = Some ({| statusCode := 200;
             responseBody :=
               UploadedBody
                 (JS.ofNat (length parts)
                  ++ JS.lit " photo(s) uploaded successfully")
                 (map (entryFor (JS.lit "Memorial_Guest_UPLOADS")
                         (timestampOf (up_toISOString w)))
                    (map (decodedFile toString) parts)) |},
          map (commandFor w (JS.lit "Memorial_Guest_UPLOADS")
                 (timestampOf (up_toISOString w)))
            (map (decodedFile toString) parts)).
Proof.
  intros Hm Hc Hct Hinc Hp Hb Hbody HF Ht Hsend.
  unfold UploadManual.handler. rewrite Hm, Hc, Hct.
  change (JS.eqb (JS.lit "POST") (JS.lit "OPTIONS")) with false.
  change (JS.eqb (JS.lit "POST") (JS.lit "POST")) with true.
  cbn [negb].
  remember (pre ++ JS.lit "boundary=" ++ b) as ct eqn:Ect.
  destruct ct as [|c ct]; [discriminate Hinc|].
  cbn [JS.truthy]. rewrite Hinc, Hbody. cbn [negb].
  rewrite Ect, (boundary_of_header pre b Hp Hb).
  unfold UploadManual.parseMultipart.
  rewrite rawParts_joined; [| apply boundaryBuffer_nonempty | | exact Ht].
  - rewrite fold_decodePart_files.
    + cbn [UploadManual.files UploadManual.contributor app].
      unfold storeFiles.
      change (folderNameOf
                (JS.orElse (Some (JS.lit "Memorial_Guest"))
                   (JS.lit "Memorial_Guest")))
        with (JS.lit "Memorial_Guest_UPLOADS").
      rewrite uploadAll_run by exact Hsend.
      cbn [app]. now rewrite !length_map.
    + eapply Forall_impl; [|exact HF]. intros p (_ & H1 & H2). auto.
  - apply Forall_map. eapply Forall_impl; [|exact HF].
    intros p (H1 & _). exact H1.
Qed.

Lemma manual_upload_stores_encoded_files_witness :
  UploadManual.handler asciiToString worldAcceptingWrites photoRequest
  = Some ({| statusCode := 200;
             responseBody :=
               UploadedBody (JS.lit "1 photo(s) uploaded successfully")
                 [{| uf_filename := JS.lit "a.png";
                     uf_objectKey :=
                       JS.lit "Memorial_Guest_UPLOADS/2024-01-15T10-30-45_a.png";
                     uf_size := 17 |}] |},
          [{| Bucket := JS.lit "family-archive-uploads";
              Key := JS.lit "Memorial_Guest_UPLOADS/2024-01-15T10-30-45_a.png";
              Body := photoBytes;
              ContentType := JS.lit "image/png" |}]).
Proof.
  apply (manual_upload_stores_encoded_files asciiToString worldAcceptingWrites
           photoRequest (JS.lit "multipart/form-data; ") (JS.lit "XYZ")
           [encodedPhoto] (bytesOf "--" ++ CRLF));
    try reflexivity.
  repeat constructor.
Defined.

(* ================================================================== *)
(** * The multipart parser on a truncated buffer *)

(** The parse of file parts, a contributor field and further file
    parts, all well delimited, followed by anything that holds no
    boundary. *)
Lemma parseMultipart_joined toString boundary before after headers value gap :
  Forall (wellDelimited toString (UploadManual.boundaryBuffer boundary)) before ->
  Forall (wellDelimited toString (UploadManual.boundaryBuffer boundary)) after ->
  Buffer.search (UploadManual.boundaryBuffer boundary)
    (segmentOf headers value ++ UploadManual.boundaryBuffer boundary) 0
  = Some (length (segmentOf headers value)) ->
  Buffer.search UploadManual.CRLFCRLF (headers ++ UploadManual.CRLFCRLF) 0
  = Some (length headers) ->
  Regex.filenameMatch (toString headers) = None ->
  Regex.nameMatch (toString headers) = Some (JS.lit "contributor") ->
  Buffer.search (UploadManual.boundaryBuffer boundary) gap 0 = None ->
  UploadManual.parseMultipart toString
    (joinSegments (UploadManual.boundaryBuffer boundary)
       (map (fun p => segmentOf (ep_headers p) (ep_data p)) before
        ++ segmentOf headers value
        :: map (fun p => segmentOf (ep_headers p) (ep_data p)) after)
       gap)
    boundary
  = Some {| UploadManual.files := map (decodedFile toString) (before ++ after);
            UploadManual.contributor :=
              JS.orElse (Some (JS.trim (toString value)))
                (JS.lit "Memorial_Guest") |}.
Proof.
  intros Hb Ha Hseg Hh Hf Hn Ht. unfold UploadManual.parseMultipart.
  assert (W : forall ps,
              Forall (wellDelimited toString
                        (UploadManual.boundaryBuffer boundary)) ps ->
              Forall (fun p =>
                        Buffer.search UploadManual.CRLFCRLF
                          (ep_headers p ++ UploadManual.CRLFCRLF) 0
                        = Some (length (ep_headers p))
                        /\ Regex.filenameMatch (toString (ep_headers p))
                           = Some (ep_filename p)) ps).
  { intros ps F. eapply Forall_impl; [|exact F]. intros p (_ & H1 & H2). auto. }
  assert (D : forall ps,
              Forall (wellDelimited toString
                        (UploadManual.boundaryBuffer boundary)) ps ->
              Forall (fun s =>
                        Buffer.search (UploadManual.boundaryBuffer boundary)
                          (s ++ UploadManual.boundaryBuffer boundary) 0
                        = Some (length s))
                (map (fun p => segmentOf (ep_headers p) (ep_data p)) ps)).
  { intros ps F. apply Forall_map. eapply Forall_impl; [|exact F].
    intros p (H1 & _). exact H1. }
  rewrite rawParts_joined; [| apply boundaryBuffer_nonempty | | exact Ht].
  - rewrite fold_left_app. cbn [fold_left].
    rewrite (fold_decodePart_files toString before _ (W _ Hb)).
    rewrite (decodePart_segment toString _ headers value Hh), Hf, Hn.
    change (JS.eqb (JS.lit "contributor") (JS.lit "contributor")) with true.
    cbv iota.
    rewrite (fold_decodePart_files toString after _ (W _ Ha)).
    cbn [UploadManual.files UploadManual.contributor app].
    now rewrite map_app.
  - apply Forall_app. split; [apply D, Hb|].
    constructor; [exact Hseg | apply D, Ha].
Qed.

(** The same with file parts only. *)
Lemma parseMultipart_joined_files toString boundary parts gap :
  Forall (wellDelimited toString (UploadManual.boundaryBuffer boundary)) parts ->
  Buffer.search (UploadManual.boundaryBuffer boundary) gap 0 = None ->
  UploadManual.parseMultipart toString
    (joinSegments (UploadManual.boundaryBuffer boundary)
       (map (fun p => segmentOf (ep_headers p) (ep_data p)) parts) gap)
    boundary
  = Some {| UploadManual.files := map (decodedFile toString) parts;
            UploadManual.contributor := JS.lit "Memorial_Guest" |}.
Proof.
  intros HF Ht. unfold UploadManual.parseMultipart.
  rewrite rawParts_joined; [| apply boundaryBuffer_nonempty | | exact Ht].
  - rewrite fold_decodePart_files; [reflexivity|].
    eapply Forall_impl; [|exact HF]. intros p (_ & Hs & Hm). auto.
  - apply Forall_map. eapply Forall_impl; [|exact HF].
    intros p (Hb & _). exact Hb.
Qed.

(** C5: whatever the buffer and the boundary token, the parser ends
    with a result and raises nothing.  The buffer has its successive
    boundary occurrences, the last of which has no closing occurrence
    after it; the raw segments collected are exactly those delimited by
    consecutive occurrences, and the parser decodes those and nothing
    that follows the last occurrence.  So, for a buffer that is cut off
    after well-delimited parts, with what remains (the gap) holding no
    boundary: the parser returns one file per file part before the gap,
    in order, with its declared name, the content type of its header
    block and its bytes unchanged, and the contributor of the field that
    stands among them (or [Memorial_Guest] without a field); it returns
    nothing of the gap. *)
Theorem parseMultipart_keeps_delimited_parts
    (body : Buffer.t) (boundary : option JS.str) :
  (exists occurrences,
     occurrencesFrom body (UploadManual.boundaryBuffer boundary) 0 occurrences)
  /\ (forall occurrences,
        occurrencesFrom body (UploadManual.boundaryBuffer boundary) 0
          occurrences ->
        UploadManual.rawParts body (UploadManual.boundaryBuffer boundary)
        = Some (delimitedSegments body (UploadManual.boundaryBuffer boundary)
                  occurrences)
        /\ forall toString,
             UploadManual.parseMultipart toString body boundary
             = Some (fold_left (UploadManual.decodePart toString)
                       (delimitedSegments body
                          (UploadManual.boundaryBuffer boundary) occurrences)
                       {| UploadManual.files := [];
                          UploadManual.contributor := JS.lit "Memorial_Guest" |}))
  /\ (forall toString parts gap,
        Forall (wellDelimited toString (UploadManual.boundaryBuffer boundary))
          parts ->
        Buffer.search (UploadManual.boundaryBuffer boundary) gap 0 = None ->
        body = joinSegments (UploadManual.boundaryBuffer boundary)
                 (map (fun p => segmentOf (ep_headers p) (ep_data p)) parts)
                 gap ->
        UploadManual.parseMultipart toString body boundary
        = Some {| UploadManual.files := map (decodedFile toString) parts;
                  UploadManual.contributor := JS.lit "Memorial_Guest" |})
  /\ (forall toString before after headers value gap,
        Forall (wellDelimited toString (UploadManual.boundaryBuffer boundary))
          before ->
        Forall (wellDelimited toString (UploadManual.boundaryBuffer boundary))
          after ->
        Buffer.search (UploadManual.boundaryBuffer boundary)
          (segmentOf headers value ++ UploadManual.boundaryBuffer boundary) 0
        = Some (length (segmentOf headers value)) ->
        Buffer.search UploadManual.CRLFCRLF
          (headers ++ UploadManual.CRLFCRLF) 0
        = Some (length headers) ->
        Regex.filenameMatch (toString headers) = None ->
        Regex.nameMatch (toString headers) = Some (JS.lit "contributor") ->
        Buffer.search (UploadManual.boundaryBuffer boundary) gap 0 = None ->
        body = joinSegments (UploadManual.boundaryBuffer boundary)
                 (map (fun p => segmentOf (ep_headers p) (ep_data p)) before
                  ++ segmentOf headers value
                  :: map (fun p => segmentOf (ep_headers p) (ep_data p)) after)
                 gap ->
        UploadManual.parseMultipart toString body boundary
        = Some {| UploadManual.files :=
                    map (decodedFile toString) (before ++ after);
                  UploadManual.contributor :=
                    JS.orElse (Some (JS.trim (toString value)))
                      (JS.lit "Memorial_Guest") |}).
Proof.
  split; [|split; [|split]].
  - apply (occurrences_exist body (UploadManual.boundaryBuffer boundary)
             (boundaryBuffer_nonempty boundary)
             (Z.to_nat (Buffer.len body + 1 - 0)) 0%Z (Z.le_refl 0) (le_n _)).
  - intros occurrences Hocc.
    pose proof (rawParts_segments body boundary occurrences Hocc) as R.
    split; [exact R|].
    intro toString. unfold UploadManual.parseMultipart. now rewrite R.
  - intros toString parts gap HF Hg ->.
    now apply parseMultipart_joined_files.
  - intros toString before after headers value gap Hb Ha Hs Hh Hf Hn Hg ->.
    now apply parseMultipart_joined.
Qed.

Lemma parseMultipart_keeps_delimited_parts_witness :
  UploadManual.rawParts truncatedForm
    (UploadManual.boundaryBuffer (Some (JS.lit "XYZ")))
  = Some [CRLF ++
          bytesOf "Content-Disposition: form-data; name=" ++ [x22] ++
          bytesOf "contributor" ++ [x22] ++ CRLF ++ CRLF ++
          bytesOf "Bob" ++ CRLF]
  /\ UploadManual.parseMultipart asciiToString truncatedForm
       (Some (JS.lit "XYZ"))
     = Some {| UploadManual.files := [];
               UploadManual.contributor := JS.lit "Bob" |}
  /\ UploadManual.parseMultipart asciiToString truncatedUpload
       (Some (JS.lit "XYZ"))
     = Some {| UploadManual.files :=
                 [{| file_filename := JS.lit "a.png";
                     file_contentType := JS.lit "image/png";
                     file_data := photoBytes |}];
               UploadManual.contributor := JS.lit "Bob" |}.
Proof.
  split; [|split].
  - refine (proj1 (proj1 (proj2 (parseMultipart_keeps_delimited_parts
                                   truncatedForm (Some (JS.lit "XYZ"))))
                     [0%Z; 66%Z] _)).
    vm_compute. repeat split; discriminate.
  - apply (proj2 (proj2 (proj2 (parseMultipart_keeps_delimited_parts
                                  truncatedForm (Some (JS.lit "XYZ")))))
             asciiToString [] [] contributorHeaders (bytesOf "Bob")
             segmentWithoutCRLF);
      try reflexivity; constructor.
  - apply (proj2 (proj2 (proj2 (parseMultipart_keeps_delimited_parts
                                  truncatedUpload (Some (JS.lit "XYZ")))))
             asciiToString [] [encodedPhoto] contributorHeaders
             (bytesOf " Bob  ")
             (photoHeaders ++ CRLF ++ CRLF ++ bytesOf "PNGDATA"));
      try reflexivity; repeat constructor.
Defined.
